(** * NuleculeManager (atomicapp/nulecule/main.py): lifecycle controller
      and answer resolution, as a shallow embedding.

    The controller is Python code that threads one mutable object
    ([self]), a store of shared dictionaries, the filesystem and calls to
    external collaborators.  The embedding keeps all of these explicit:
    - Python dictionaries live in a heap and are named by location, so that
      two names for one dictionary stay two names for one dictionary;
    - methods are computations in a state-and-exception monad whose
      exceptional outcome still carries the state reached when the
      exception was raised;
    - the collaborators that are not part of main.py (atomicapp.constants,
      atomicapp.utils.Utils, atomicapp.nulecule.base.Nulecule, os,
      tempfile, anymarkup) are parameters of the development. *)

From Stdlib Require Import ZArith String Ascii List Bool.
From stdpp Require Import base option list gmap strings fin_maps.

Local Open Scope string_scope.

(** ** Strings and paths (str.lstrip, str.lower, os.path.isabs, os.path.join) *)

Module Path.

Definition sep : ascii := "/"%char.

(** [os.path.isabs(s)]: on POSIX, [s.startswith('/')]. *)
Definition isabs (s : string) : bool :=
  match s with
  | String c _ => Ascii.eqb c sep
  | EmptyString => false
  end.

(** [s.lstrip('/')]: drops every leading separator. *)
Fixpoint lstrip (s : string) : string :=
  match s with
  | String c s' => if Ascii.eqb c sep then lstrip s' else s
  | EmptyString => EmptyString
  end.

(** [s.endswith('/')]. *)
Fixpoint endswith_sep (s : string) : bool :=
  match s with
  | EmptyString => false
  | String c EmptyString => Ascii.eqb c sep
  | String _ s' => endswith_sep s'
  end.

(** Python truth value of a string: non-empty. *)
Definition nonempty (s : string) : bool :=
  match s with EmptyString => false | String _ _ => true end.

(** [os.path.join(a, b)] of posixpath, for two components. *)
Definition join (a b : string) : string :=
  if isabs b then b
  else if negb (nonempty a) || endswith_sep a then a ++ b
  else a ++ String sep b.

Definition lower_ascii (c : ascii) : ascii :=
  let n := nat_of_ascii c in
  if (65 <=? n)%nat && (n <=? 90)%nat then ascii_of_nat (n + 32) else c.

(** [s.lower()] on ASCII text. *)
Fixpoint lower (s : string) : string :=
  match s with
  | EmptyString => EmptyString
  | String c s' => String (lower_ascii c) (lower s')
  end.

End Path.

(** Truth value of an optional string ([None] and [''] are false). *)
Definition str_truthy (o : option string) : bool :=
  match o with
  | Some s => Path.nonempty s
  | None => false
  end.

(** Lines 51-60 of [__init__]: an absolute path is re-rooted under
    [Utils.getRoot()], anything else is passed through. *)
Definition reroot (root : string) (p : string) : string :=
  if Path.isabs p then Path.join root (Path.lstrip p) else p.

(** The guarded form used for [destination] and [answers_file]:
    [if x and os.path.isabs(x): x = os.path.join(root, x.lstrip('/'))]. *)
Definition reroot_opt (root : string) (o : option string) : option string :=
  match o with
  | Some p => if Path.nonempty p && Path.isabs p
              then Some (Path.join root (Path.lstrip p)) else Some p
  | None => None
  end.


(** ** Python values and the store of dictionaries *)

(** Leaf values of an answers document. *)
Inductive scalar :=
| SNone
| SBool (b : bool)
| SInt (z : Z)
| SStr (s : string).

(** Python truth value of a leaf. *)
Definition truthy (v : scalar) : bool :=
  match v with
  | SNone => false
  | SBool b => b
  | SInt z => negb (Z.eqb z 0)
  | SStr s => Path.nonempty s
  end.

Abbreviation loc := positive (only parsing).

(** A section is a dictionary of key/value pairs. *)
Abbreviation sect := (gmap string scalar) (only parsing).

(** What a document stores under a section name: a leaf (as in a YAML
    file that says [general:] and nothing else) or a reference to a
    section dictionary. *)
Inductive entry :=
| EVal (v : scalar)
| ESec (l : loc).

Abbreviation doc := (gmap string entry) (only parsing).

(** The store: document dictionaries and section dictionaries, by location.
    Assignment through a name updates the dictionary at its location, so
    every other name of that dictionary observes the change. *)
Record heap := Heap {
  docs : gmap loc doc;
  secs : gmap loc sect
}.

(** A document as a plain tree, with no identity: what a file holds and
    what a module-level constant denotes. *)
Inductive fentry :=
| FVal (v : scalar)
| FSec (s : sect).

Abbreviation fdoc := (gmap string fentry) (only parsing).

Definition alloc_sec (s : sect) (h : heap) : loc * heap :=
  let l := fresh (dom (secs h)) in
  (l, Heap (docs h) (<[l := s]> (secs h))).

Definition alloc_doc (d : doc) (h : heap) : loc * heap :=
  let l := fresh (dom (docs h)) in
  (l, Heap (<[l := d]> (docs h)) (secs h)).

Definition build_entry (fe : fentry) (h : heap) : entry * heap :=
  match fe with
  | FVal v => (EVal v, h)
  | FSec s => let '(l, h') := alloc_sec s h in (ESec l, h')
  end.

Fixpoint build_items (items : list (string * fentry)) (h : heap) : doc * heap :=
  match items with
  | [] => (∅, h)
  | (k, fe) :: rest =>
      let '(d, h1) := build_items rest h in
      let '(e, h2) := build_entry fe h1 in
      (<[k := e]> d, h2)
  end.

(** Fresh dictionaries for a tree: what parsing a file and
    [copy.deepcopy] of a constant produce. *)
Definition build_doc (fd : fdoc) (h : heap) : loc * heap :=
  let '(d, h1) := build_items (map_to_list fd) h in
  alloc_doc d h1.

Definition snap_entry (h : heap) (e : entry) : option fentry :=
  match e with
  | EVal v => Some (FVal v)
  | ESec l => FSec <$> secs h !! l
  end.

(** The tree a document denotes in the store: what a serializer reads. *)
Definition snapshot (h : heap) (l : loc) : option fdoc :=
  match docs h !! l with
  | Some d =>
      if bool_decide (map_Forall (λ _ e, is_Some (snap_entry h e)) d)
      then Some (omap (snap_entry h) d)
      else None
  | None => None
  end.

(** [copy.deepcopy] of the entries of a document; [memo] is deepcopy's
    memo dictionary, so a section reachable under two names is copied
    once. *)
Fixpoint copy_items (items : list (string * entry)) (memo : gmap loc loc)
    (h : heap) : option (doc * gmap loc loc * heap) :=
  match items with
  | [] => Some (∅, memo, h)
  | (k, e) :: rest =>
      match copy_items rest memo h with
      | None => None
      | Some (d, memo1, h1) =>
          match e with
          | EVal v => Some (<[k := EVal v]> d, memo1, h1)
          | ESec ls =>
              match memo1 !! ls with
              | Some ls' => Some (<[k := ESec ls']> d, memo1, h1)
              | None =>
                  match secs h1 !! ls with
                  | None => None
                  | Some s =>
                      let '(ls', h2) := alloc_sec s h1 in
                      Some (<[k := ESec ls']> d, <[ls := ls']> memo1, h2)
                  end
              end
          end
      end
  end.

(** [copy.deepcopy(config)] for a document in the store. *)
Definition deepcopy_doc (l : loc) (h : heap) : option (loc * heap) :=
  match docs h !! l with
  | None => None
  | Some d =>
      match copy_items (map_to_list d) ∅ h with
      | None => None
      | Some (d', _, h1) => Some (alloc_doc d' h1)
      end
  end.

(** [doc[sec][k]] read through the store, when [doc[sec]] is a section. *)
Definition lookup2 (h : heap) (l : loc) (sec k : string) : option scalar :=
  match docs h !! l with
  | Some d =>
      match d !! sec with
      | Some (ESec ls) =>
          match secs h !! ls with
          | Some s => s !! k
          | None => None
          end
      | _ => None
      end
  | None => None
  end.

(** The same read on a tree. *)
Definition flookup2 (fd : fdoc) (sec k : string) : option scalar :=
  match fd !! sec with
  | Some (FSec s) => s !! k
  | _ => None
  end.

(** ** The filesystem *)

(** A file either holds a serialized answers document (with the format it
    was written in, when one was named) or something else. *)
Inductive content :=
| Answers (fmt : option string) (d : fdoc)
| Opaque.

Inductive node :=
| NDir
| NFile (c : content).

(** Paths are compared as written: two different strings name two
    different nodes. *)
Abbreviation fs := (gmap string node) (only parsing).

(** [os.path.exists(p)]; the empty path names nothing. *)
Definition path_exists (f : fs) (p : string) : bool :=
  Path.nonempty p && match f !! p with Some _ => true | None => false end.

(** [os.path.isfile(p)]. *)
Definition path_isfile (f : fs) (p : string) : bool :=
  Path.nonempty p && match f !! p with Some (NFile _) => true | _ => false end.

(** ** Collaborators outside main.py *)

(** The names imported from [atomicapp.constants]. *)
Record Consts := {
  GLOBAL_CONF : string;
  ANSWERS_FILE_SAMPLE_FORMAT : string;
  ANSWERS_FILE : string;
  ANSWERS_FILE_SAMPLE : string;
  ANSWERS_RUNTIME_FILE : string;
  DEFAULT_ANSWERS : fdoc;
  DEFAULT_NAMESPACE : string;
  MAIN_FILE : string;
  NAMESPACE_KEY : string;
  PROVIDER_KEY : string
}.

(** What main.py asks of [Utils], [os], [tempfile] and [anymarkup].
    Functions of the filesystem take it as an argument. *)
Record Env := {
  (** [Utils.getRoot()] *)
  getRoot : string;
  (** [os.getcwd()] *)
  getcwd : string;
  (** [os.environ] *)
  environ : gmap string string;
  (** [Utils.running_on_openshift()] *)
  running_on_openshift : bool;
  (** [Utils.get_openshift_api_endpoint_from_env()]; [None] when it raises *)
  get_openshift_api_endpoint_from_env : option string;
  (** [Utils.getNewAppCacheDir(image)] *)
  getNewAppCacheDir : string → string;
  (** [Utils.getSupportedProviders(app_path)] *)
  getSupportedProviders : fs → string → list string;
  (** the directory name [tempfile.mkdtemp(prefix=...)] picks *)
  mkdtemp_name : fs → string → string;
  (** [Utils.copy_dir(src, dest, update=...)]; [None] when it raises *)
  copy_dir : fs → string → string → bool → option fs;
  (** whether [anymarkup.serialize_file(_, path, format=fmt)] can write *)
  can_write : fs → string → option string → bool
}.

(** Result of a call into the descriptor engine: it may change the store
    and the filesystem, and it may raise. *)
Inductive eres (A : Type) :=
| EOk (a : A) (h : heap) (f : fs)
| EFail (h : heap) (f : fs).
Arguments EOk {A} a h f.
Arguments EFail {A} h f.

(** The descriptor engine, [atomicapp.nulecule.base.Nulecule]: the two
    class methods that produce a bundle handle, the handle's [config]
    attribute, and the handle's methods.  A method that changes the handle
    returns the changed handle. *)
Record Engine := {
  bundle : Type;
  (** [Nulecule.unpack(image, dest, config=, nodeps=, dryrun=, update=)] *)
  nl_unpack : string → option string → option loc → bool → bool → bool →
              heap → fs → eres bundle;
  (** [Nulecule.load_from_path(src, dryrun=, config=)] *)
  nl_load_from_path : option string → bool → option loc →
                      heap → fs → eres bundle;
  (** [nulecule.config] *)
  nl_config : bundle → loc;
  (** [nulecule.load_config(config=, ask=, skip_asking=)] *)
  nl_load_config : bundle → loc → bool → bool → heap → fs → eres bundle;
  (** [nulecule.render(provider, dryrun)] *)
  nl_render : bundle → option string → bool → heap → fs → eres bundle;
  (** [nulecule.run(provider, dryrun)] *)
  nl_run : bundle → option string → bool → heap → fs → eres bundle;
  (** [nulecule.stop(provider, dryrun)] *)
  nl_stop : bundle → option string → bool → heap → fs → eres bundle
}.

(** ** Exceptions, the call log, and the controller's state *)

Inductive exn :=
| NuleculeException (msg : string)
| KeyError (k : string)
| TypeError
| AttributeError
| IOError
| UtilsError
| EngineError
| DanglingReference.

(** Calls that leave the controller, in the order they are made (most
    recent first). *)
Inductive event :=
| EvMkdtemp (prefix : string)
| EvCopyDir (src dst : string) (update : bool)
| EvLoadAnswers (path : string)
| EvUnpack (image : string) (dest : option string) (config : option loc)
    (nodeps dryrun update : bool)
| EvLoadFromPath (src : option string) (dryrun : bool) (config : option loc)
| EvLoadConfig (config : loc) (ask skip_asking : bool)
| EvRender (provider : option string) (dryrun : bool)
| EvRun (provider : option string) (dryrun : bool)
| EvStop (provider : option string) (dryrun : bool)
| EvSerialize (path : string) (fmt : option string) (d : fdoc).

(** The attributes of a [NuleculeManager] instance. *)
Record manager (B : Type) := Manager {
  answers : loc;
  cli_answers : option sect;
  answers_format : option string;
  answers_file : option string;
  app_path : option string;
  image : option string;
  main_file : option string;
  nulecule : option B
}.
Arguments Manager {B}.
Arguments answers {B}.
Arguments cli_answers {B}.
Arguments answers_format {B}.
Arguments answers_file {B}.
Arguments app_path {B}.
Arguments image {B}.
Arguments main_file {B}.
Arguments nulecule {B}.

Record state (B : Type) := State {
  self : manager B;
  hp : heap;
  fsys : fs;
  trace : list event
}.
Arguments State {B}.
Arguments self {B}.
Arguments hp {B}.
Arguments fsys {B}.
Arguments trace {B}.

(** A method either returns or raises; both leave a state behind. *)
Inductive outcome (B A : Type) :=
| Ret (a : A) (s : state B)
| Raise (e : exn) (s : state B).
Arguments Ret {B A}.
Arguments Raise {B A}.

Definition final {B A} (o : outcome B A) : state B :=
  match o with
  | Ret _ s => s
  | Raise _ s => s
  end.

Definition M (B A : Type) : Type := state B → outcome B A.

Definition ret {B A} (a : A) : M B A := fun s => Ret a s.

Definition raise {B A} (e : exn) : M B A := fun s => Raise e s.

Definition bind {B A C} (m : M B A) (k : A → M B C) : M B C :=
  fun s =>
    match m s with
    | Ret a s' => k a s'
    | Raise e s' => Raise e s'
    end.

Notation "'let*' x ':=' m 'in' k" := (bind m (fun x => k))
  (at level 10, x name, m at level 100, k at level 200).

Notation "m ';;;' k" := (bind m (fun _ => k))
  (at level 100, k at level 200, right associativity).

Definition get_self {B} : M B (manager B) := fun s => Ret (self s) s.

Definition upd_self {B} (f : manager B → manager B) : M B unit :=
  fun s => Ret tt (State (f (self s)) (hp s) (fsys s) (trace s)).

Definition get_fs {B} : M B fs := fun s => Ret (fsys s) s.

Definition put_fs {B} (f : fs) : M B unit :=
  fun s => Ret tt (State (self s) (hp s) f (trace s)).

Definition log {B} (ev : event) : M B unit :=
  fun s => Ret tt (State (self s) (hp s) (fsys s) (ev :: trace s)).

(** A total operation on the store. *)
Definition heap_op {B A} (f : heap → A * heap) : M B A :=
  fun s => let '(a, h) := f (hp s) in Ret a (State (self s) h (fsys s) (trace s)).

(** A read of the store that fails on a reference to nothing. *)
Definition heap_read {B A} (f : heap → option A) : M B A :=
  fun s => match f (hp s) with
           | Some a => Ret a s
           | None => Raise DanglingReference s
           end.

(** A call into the engine. *)
Definition call {B A} (f : heap → fs → eres A) : M B A :=
  fun s =>
    match f (hp s) (fsys s) with
    | EOk a h f' => Ret a (State (self s) h f' (trace s))
    | EFail h f' => Raise EngineError (State (self s) h f' (trace s))
    end.

Definition set_answers {B} (l : loc) : M B unit :=
  upd_self (fun m => Manager l (cli_answers m) (answers_format m)
    (answers_file m) (app_path m) (image m) (main_file m) (nulecule m)).

Definition set_answers_format {B} (x : option string) : M B unit :=
  upd_self (fun m => Manager (answers m) (cli_answers m) x
    (answers_file m) (app_path m) (image m) (main_file m) (nulecule m)).

Definition set_answers_file {B} (x : option string) : M B unit :=
  upd_self (fun m => Manager (answers m) (cli_answers m) (answers_format m)
    x (app_path m) (image m) (main_file m) (nulecule m)).

Definition set_app_path {B} (x : option string) : M B unit :=
  upd_self (fun m => Manager (answers m) (cli_answers m) (answers_format m)
    (answers_file m) x (image m) (main_file m) (nulecule m)).

Definition set_image {B} (x : option string) : M B unit :=
  upd_self (fun m => Manager (answers m) (cli_answers m) (answers_format m)
    (answers_file m) (app_path m) x (main_file m) (nulecule m)).

Definition set_main_file {B} (x : option string) : M B unit :=
  upd_self (fun m => Manager (answers m) (cli_answers m) (answers_format m)
    (answers_file m) (app_path m) (image m) x (nulecule m)).

Definition set_nulecule {B} (x : option B) : M B unit :=
  upd_self (fun m => Manager (answers m) (cli_answers m) (answers_format m)
    (answers_file m) (app_path m) (image m) (main_file m) x).

(** [os.path.join(self.app_path, ...)] needs a string: on [None] it
    raises. *)
Definition attr_app_path {B} : M B string :=
  let* me := get_self in
  match app_path me with
  | Some p => ret p
  | None => raise AttributeError
  end.

(** [d[k]] on a document. *)
Definition getitem {B} (l : loc) (k : string) : M B entry :=
  let* d := heap_read (fun h => docs h !! l) in
  match d !! k with
  | Some e => ret e
  | None => raise (KeyError k)
  end.

(** [d.get(k)] on a document. *)
Definition doc_get {B} (l : loc) (k : string) : M B (option entry) :=
  let* d := heap_read (fun h => docs h !! l) in
  ret (d !! k).

(** [d[k] = e] on a document. *)
Definition doc_set {B} (l : loc) (k : string) (e : entry) : M B unit :=
  let* d := heap_read (fun h => docs h !! l) in
  heap_op (fun h => (tt, Heap (<[l := <[k := e]> d]> (docs h)) (secs h))).

(** [s.get(k)] where [s] is what a document stores: a leaf has no [get]. *)
Definition entry_get {B} (e : entry) (k : string) : M B (option scalar) :=
  match e with
  | ESec ls =>
      let* s := heap_read (fun h => secs h !! ls) in
      ret (s !! k)
  | EVal _ => raise AttributeError
  end.

(** [s[k] = v] where [s] is what a document stores: a leaf does not
    support item assignment. *)
Definition entry_set {B} (e : entry) (k : string) (v : scalar) : M B unit :=
  match e with
  | ESec ls =>
      let* s := heap_read (fun h => secs h !! ls) in
      heap_op (fun h => (tt, Heap (docs h) (<[ls := <[k := v]> s]> (secs h))))
  | EVal _ => raise TypeError
  end.

(** [d[sec][k] = v]. *)
Definition setitem2 {B} (l : loc) (sec k : string) (v : scalar) : M B unit :=
  let* e := getitem l sec in
  entry_set e k v.

(** Truth value of what a document stores: a dictionary is true when it
    is not empty. *)
Definition entry_truthy {B} (e : entry) : M B bool :=
  match e with
  | EVal v => ret (truthy v)
  | ESec ls =>
      let* s := heap_read (fun h => secs h !! ls) in
      ret (negb (bool_decide (s = ∅)))
  end.

(** [for x in items: body(x)]. *)
Fixpoint for_each {B A} (items : list A) (body : A → M B unit) : M B unit :=
  match items with
  | [] => ret tt
  | x :: rest => body x ;;; for_each rest body
  end.

(** [a or b] on optional strings. *)
Definition or_str (a : option string) (b : string) : string :=
  match a with
  | Some s => if Path.nonempty s then s else b
  | None => b
  end.

(** ** NuleculeManager *)

Section Controller.

Variable K : Consts.
Variable U : Env.
Variable E : Engine.

(** [Utils.loadAnswers(path)].
    Modelled from the spec: [atomicapp.utils] is not among the sources;
    the spec's [load(path)] returns the document the file holds and "fails
    with configuration error if the file is malformed or unreadable".  The
    returned document is made of dictionaries of its own. *)
Definition loadAnswers (path : string) : M (bundle E) loc :=
  log (EvLoadAnswers path) ;;;
  let* f := get_fs in
  match f !! path with
  | Some (NFile (Answers _ d)) =>
      if Path.nonempty path then heap_op (build_doc d) else raise UtilsError
  | _ => raise UtilsError
  end.

(** [copy.deepcopy(config)]. *)
Definition deepcopy (config : loc) : M (bundle E) loc :=
  fun s =>
    match deepcopy_doc config (hp s) with
    | Some (l, h) => Ret l (State (self s) h (fsys s) (trace s))
    | None => Raise DanglingReference s
    end.

(** [tempfile.mkdtemp(prefix=...)]: creates the directory it names. *)
Definition mkdtemp (prefix : string) : M (bundle E) string :=
  log (EvMkdtemp prefix) ;;;
  let* f := get_fs in
  let name := mkdtemp_name U f prefix in
  put_fs (<[name := NDir]> f) ;;;
  ret name.

(** Lines 301-306 of [_process_answers]: without an answers file so far,
    look for the conventional one in the application directory. *)
Definition find_answers_file : M (bundle E) unit :=
  let* me := get_self in
  if negb (str_truthy (answers_file me)) then
    let* ap := attr_app_path in
    let f := Path.join ap (ANSWERS_FILE K) in
    let* fsy := get_fs in
    if path_isfile fsy f then set_answers_file (Some f) else ret tt
  else ret tt.

(** Lines 308-310: with an answers file, load it; the loaded document
    becomes [self.answers]. *)
Definition load_answers_file : M (bundle E) unit :=
  let* me := get_self in
  match answers_file me with
  | Some af =>
      if Path.nonempty af
      then let* l := loadAnswers af in set_answers l
      else ret tt
  | None => ret tt
  end.

(** Line 315, the body of the loop: [self.answers[GLOBAL_CONF][k] = v]. *)
Definition set_cli_answer (kv : string * scalar) : M (bundle E) unit :=
  let* me := get_self in
  setitem2 (answers me) (GLOBAL_CONF K) kv.1 kv.2.

(** Lines 312-315: every command-line answer is stored in the global
    section.  The keys of a dictionary are distinct, so the order of the
    iteration does not show in the result. *)
Definition merge_cli_answers : M (bundle E) unit :=
  let* me := get_self in
  match cli_answers me with
  | Some cli =>
      if negb (bool_decide (cli = ∅))
      then for_each (map_to_list cli) set_cli_answer
      else ret tt
  | None => ret tt
  end.

(** [NuleculeManager._process_answers], lines 286-315. *)
Definition _process_answers : M (bundle E) unit :=
  find_answers_file ;;;
  load_answers_file ;;;
  merge_cli_answers.

(** [NuleculeManager._write_answers], lines 317-332: the serializer reads
    the document from the store and replaces the file at [path]. *)
Definition _write_answers (path : string) (answers : loc)
    (answers_format : option string) : M (bundle E) unit :=
  let* d := heap_read (fun h => snapshot h answers) in
  log (EvSerialize path answers_format d) ;;;
  let* f := get_fs in
  if can_write U f path answers_format
  then put_fs (<[path := NFile (Answers answers_format d)]> f)
  else raise IOError.

(** [NuleculeManager._get_runtime_answers], lines 334-354. *)
Definition _get_runtime_answers (config : loc) (cli_provider : option string)
    : M (bundle E) loc :=
  let* _config := deepcopy config in
  let* g := doc_get config (GLOBAL_CONF K) in
  let* g' :=
    match g with
    | Some e =>
        let* t := entry_truthy e in
        if t then ret e
        else let* l := heap_op (alloc_sec ∅) in ret (ESec l)
    | None => let* l := heap_op (alloc_sec ∅) in ret (ESec l)
    end in
  doc_set _config (GLOBAL_CONF K) g' ;;;
  let* sec := getitem _config (GLOBAL_CONF K) in
  let* ns := entry_get sec (NAMESPACE_KEY K) in
  let ns' :=
    match ns with
    | Some v => if truthy v then v else SStr (DEFAULT_NAMESPACE K)
    | None => SStr (DEFAULT_NAMESPACE K)
    end in
  setitem2 _config (GLOBAL_CONF K) (NAMESPACE_KEY K) ns' ;;;
  match cli_provider with
  | Some p =>
      if Path.nonempty p
      then setitem2 _config (GLOBAL_CONF K) (PROVIDER_KEY K) (SStr p)
      else ret tt
  | None => ret tt
  end ;;;
  ret _config.

(** [NuleculeManager.unpack], lines 112-139. *)
Definition unpack (update dryrun nodeps : bool) (config : option loc)
    : M (bundle E) (bundle E) :=
  let* me := get_self in
  match image me with
  | Some img =>
      if Path.nonempty img then
        log (EvUnpack img (app_path me) config nodeps dryrun update) ;;;
        call (nl_unpack E img (app_path me) config nodeps dryrun update)
      else
        log (EvLoadFromPath (app_path me) dryrun config) ;;;
        call (nl_load_from_path E (app_path me) dryrun config)
  | None =>
      log (EvLoadFromPath (app_path me) dryrun config) ;;;
      call (nl_load_from_path E (app_path me) dryrun config)
  end.

(** [self.nulecule.load_config(config=self.nulecule.config, ...)]. *)
Definition load_own_config (b : bundle E) (ask skip_asking : bool)
    : M (bundle E) (bundle E) :=
  log (EvLoadConfig (nl_config E b) ask skip_asking) ;;;
  let* b' := call (nl_load_config E b (nl_config E b) ask skip_asking) in
  set_nulecule (Some b') ;;;
  ret b'.

(** [NuleculeManager.genanswers], lines 141-170. *)
Definition genanswers (dryrun : bool) (answers_format : option string)
    : M (bundle E) unit :=
  set_answers_format
    (Some (or_str answers_format (ANSWERS_FILE_SAMPLE_FORMAT K))) ;;;
  let answers_file := Path.join (getcwd U) (ANSWERS_FILE K) in
  let* f := get_fs in
  if path_exists f answers_file then
    raise (NuleculeException "Can't generate answers.conf over existing file")
  else
    let* me := get_self in
    let* b := unpack false dryrun false (Some (answers me)) in
    set_nulecule (Some b) ;;;
    let* b := load_own_config b false true in
    let* answers := _get_runtime_answers (nl_config E b) None in
    _write_answers answers_file answers answers_format.

(** [NuleculeManager.install], lines 172-204. *)
Definition install (nodeps update dryrun : bool)
    (answers_format : option string) : M (bundle E) unit :=
  set_answers_format
    (Some (or_str answers_format (ANSWERS_FILE_SAMPLE_FORMAT K))) ;;;
  let* me := get_self in
  let* b := unpack update dryrun false (Some (answers me)) in
  set_nulecule (Some b) ;;;
  let* b := load_own_config b false true in
  let* runtime_answers := _get_runtime_answers (nl_config E b) None in
  let* ap := attr_app_path in
  _write_answers (Path.join ap (ANSWERS_FILE_SAMPLE K))
    runtime_answers answers_format.

(** [NuleculeManager.run], lines 206-254.  [dryrun] is
    [kwargs.get('dryrun') or False]. *)
Definition run (cli_provider : option string) (answers_output : option string)
    (ask : bool) (fmt : option string) (dryrun : bool)
    : M (bundle E) unit :=
  set_answers_format
    (Some (or_str fmt (ANSWERS_FILE_SAMPLE_FORMAT K))) ;;;
  let* me := get_self in
  let* b := unpack false dryrun false (Some (answers me)) in
  set_nulecule (Some b) ;;;
  let* me := get_self in
  (if negb (str_truthy (answers_file me)) then _process_answers else ret tt) ;;;
  let* ap := attr_app_path in
  let* f := get_fs in
  let providers := getSupportedProviders U f ap in
  match cli_provider, providers with
  | None, [p] =>
      let* me := get_self in
      setitem2 (answers me) (GLOBAL_CONF K) (PROVIDER_KEY K) (SStr p)
  | _, _ => ret tt
  end ;;;
  let* b := load_own_config b ask false in
  log (EvRender cli_provider dryrun) ;;;
  let* b := call (nl_render E b cli_provider dryrun) in
  set_nulecule (Some b) ;;;
  log (EvRun cli_provider dryrun) ;;;
  let* b := call (nl_run E b cli_provider dryrun) in
  set_nulecule (Some b) ;;;
  let* runtime_answers := _get_runtime_answers (nl_config E b) cli_provider in
  let* ap := attr_app_path in
  let* me := get_self in
  _write_answers (Path.join ap (ANSWERS_RUNTIME_FILE K))
    runtime_answers (answers_format me) ;;;
  match answers_output with
  | Some out =>
      if Path.nonempty out then
        let* me := get_self in
        _write_answers out runtime_answers (answers_format me)
      else ret tt
  | None => ret tt
  end.

(** [NuleculeManager.stop], lines 256-273. *)
Definition stop (cli_provider : option string) (dryrun : bool)
    : M (bundle E) unit :=
  let* ap := attr_app_path in
  set_answers_file (Some (Path.join ap (ANSWERS_RUNTIME_FILE K))) ;;;
  _process_answers ;;;
  let* me := get_self in
  log (EvLoadFromPath (app_path me) dryrun (Some (answers me))) ;;;
  let* b := call (nl_load_from_path E (app_path me) dryrun (Some (answers me))) in
  set_nulecule (Some b) ;;;
  let* me := get_self in
  log (EvLoadConfig (answers me) false false) ;;;
  let* b := call (nl_load_config E b (answers me) false false) in
  set_nulecule (Some b) ;;;
  log (EvRender cli_provider dryrun) ;;;
  let* b := call (nl_render E b cli_provider dryrun) in
  set_nulecule (Some b) ;;;
  log (EvStop cli_provider dryrun) ;;;
  let* b := call (nl_stop E b cli_provider dryrun) in
  set_nulecule (Some b).

(** [NuleculeManager.uninstall], lines 275-278: [self.stop()] is a call
    without the required [cli_provider], which raises before [stop]'s
    body starts. *)
Definition uninstall : M (bundle E) unit := raise TypeError.

(** [NuleculeManager.clean], lines 280-284: starts by [self.uninstall()]. *)
Definition clean (force : bool) : M (bundle E) unit := uninstall.

(** [x if x else None] for an optional string: the string when it is
    true. *)
Definition as_truthy (o : option string) : option string :=
  match o with
  | Some s => if Path.nonempty s then Some s else None
  | None => None
  end.

(** [destination and destination.lower() == 'none'], line 65. *)
Definition is_none_sentinel (d : option string) : bool :=
  match as_truthy d with
  | Some s => String.eqb (Path.lower s) "none"
  | None => false
  end.

(** [Utils.copy_dir(src, dst, update=...)]. *)
Definition copy_dir_call (src dst : string) (update : bool)
    : M (bundle E) unit :=
  log (EvCopyDir src dst update) ;;;
  let* f := get_fs in
  match copy_dir U f src dst update with
  | Some f' => put_fs f'
  | None => raise IOError
  end.

(** [os.environ[k]]. *)
Definition environ_get (k : string) : M (bundle E) string :=
  match environ U !! k with
  | Some v => ret v
  | None => raise (KeyError k)
  end.

(** Lines 105-110 of [__init__]; in each assignment the right-hand side
    is evaluated before the target. *)
Definition openshift_overrides : M (bundle E) unit :=
  if running_on_openshift U then
    let* me := get_self in
    setitem2 (answers me) (GLOBAL_CONF K) "provider" (SStr "openshift") ;;;
    let* tok := environ_get "TOKEN_ENV_VAR" in
    setitem2 (answers me) (GLOBAL_CONF K) "accesstoken" (SStr tok) ;;;
    let* ns := environ_get "POD_NAMESPACE" in
    setitem2 (answers me) (GLOBAL_CONF K) "namespace" (SStr ns) ;;;
    let* api :=
      match get_openshift_api_endpoint_from_env U with
      | Some a => ret a
      | None => raise UtilsError
      end in
    setitem2 (answers me) (GLOBAL_CONF K) "providerapi" (SStr api)
  else ret tt.

(** Lines 62-92 of [__init__]: where the application is and where it
    goes. *)
Definition init_location (app_spec : string) (destination : option string)
    : M (bundle E) unit :=
  let* destination :=
    if is_none_sentinel destination
    then let* d := mkdtemp "atomicapp" in ret (Some d)
    else ret destination in
  let* f := get_fs in
  (if negb (path_exists f app_spec)
   then set_image (Some app_spec)
   else set_app_path (Some app_spec)) ;;;
  let* me := get_self in
  match as_truthy (app_path me), as_truthy destination with
  | Some ap, Some dst =>
      copy_dir_call ap dst true ;;;
      set_app_path (Some dst)
  | _, _ => ret tt
  end ;;;
  let* me := get_self in
  match as_truthy (image me) with
  | Some img =>
      match as_truthy destination with
      | Some dst => set_app_path (Some dst)
      | None => set_app_path (Some (getNewAppCacheDir U img))
      end
  | None => ret tt
  end ;;;
  let* ap := attr_app_path in
  set_main_file (Some (Path.join ap (MAIN_FILE K))).

(** Lines 94-110 of [__init__]: the answers. *)
Definition init_answers (answers_file : option string) : M (bundle E) unit :=
  match as_truthy answers_file with
  | Some af =>
      let* f := get_fs in
      if negb (path_isfile f af)
      then raise (NuleculeException ("Answers file doesn't exist: " ++ af))
      else set_answers_file (Some af)
  | None => ret tt
  end ;;;
  _process_answers ;;;
  openshift_overrides.

(** Lines 51-110 of [__init__], on an instance whose attributes have
    their first values (lines 44-49). *)
Definition init_body (app_spec : string) (destination answers_file : option string)
    : M (bundle E) unit :=
  let app_spec := reroot (getRoot U) app_spec in
  let destination := reroot_opt (getRoot U) destination in
  let answers_file := reroot_opt (getRoot U) answers_file in
  init_location app_spec destination ;;;
  init_answers answers_file.

(** [NuleculeManager.__init__], lines 32-110: builds the instance in a
    given store and filesystem. *)
Definition __init__ (app_spec : string) (destination : option string)
    (cli_answers : option sect) (answers_file : option string)
    (h : heap) (f : fs) (tr : list event) : outcome (bundle E) unit :=
  let '(l, h1) := build_doc (DEFAULT_ANSWERS K) h in
  init_body app_spec destination answers_file
    (State (Manager l cli_answers None None None None None None) h1 f tr).

End Controller.

(** ** Instances used to run the model *)

(** The values [atomicapp.constants] gives these names. *)
Definition atomicapp_constants : Consts := {|
  GLOBAL_CONF := "general";
  ANSWERS_FILE_SAMPLE_FORMAT := "ini";
  ANSWERS_FILE := "answers.conf";
  ANSWERS_FILE_SAMPLE := "answers.conf.sample";
  ANSWERS_RUNTIME_FILE := "answers.conf.gen";
  DEFAULT_ANSWERS := {[ "general" := FSec {[ "namespace" := SStr "default" ]} ]};
  DEFAULT_NAMESPACE := "default";
  MAIN_FILE := "Nulecule";
  NAMESPACE_KEY := "namespace";
  PROVIDER_KEY := "provider"
|}.

(** The files of an image, written under the destination. *)
Definition unpack_files (payload : list (string * node)) (dest : string) (f : fs)
    : fs :=
  foldr (fun kv acc => <[Path.join dest kv.1 := kv.2]> acc) f payload.

(** [config or {}]: the object itself unless it is empty or absent. *)
Definition config_or_new (config : option loc) (h : heap) : loc * heap :=
  match config with
  | Some l =>
      match docs h !! l with
      | Some d => if bool_decide (d = ∅) then alloc_doc ∅ h else (l, h)
      | None => (l, h)
      end
  | None => alloc_doc ∅ h
  end.

(** Modelled from the spec: the descriptor engine
    ([atomicapp.nulecule.base.Nulecule]) is not among the sources; the spec
    lists its entry points and says that a handle carries a configuration
    which [loadConfig] "mutates/returns".  This is an engine that does the
    least the interface allows: the handle keeps the configuration object
    it is given ([config or {}]), [load_config] makes the object it is
    given the handle's configuration, and [render], [run] and [stop]
    change nothing.  Unpacking an image puts the image's files under the
    destination unless [dryrun] is set. *)
Definition plain_engine (payload : list (string * node)) : Engine := {|
  bundle := loc;
  nl_unpack := fun _ dest config _ dryrun _ h f =>
    let '(l, h') := config_or_new config h in
    match dest with
    | Some d => EOk l h' (if dryrun then f else unpack_files payload d f)
    | None => EFail h f
    end;
  nl_load_from_path := fun src _ config h f =>
    let '(l, h') := config_or_new config h in
    match src with
    | Some _ => EOk l h' f
    | None => EFail h f
    end;
  nl_config := fun b => b;
  nl_load_config := fun _ config _ _ h f => EOk config h f;
  nl_render := fun b _ _ h f => EOk b h f;
  nl_run := fun b _ _ h f => EOk b h f;
  nl_stop := fun b _ _ h f => EOk b h f
|}.

(** A host outside any managed platform. *)
Definition plain_env (providers : list string) : Env := {|
  getRoot := "/";
  getcwd := "/work";
  environ := ∅;
  running_on_openshift := false;
  get_openshift_api_endpoint_from_env := None;
  getNewAppCacheDir := fun img => "/var/lib/atomicapp/" ++ img;
  getSupportedProviders := fun _ _ => providers;
  mkdtemp_name := fun _ prefix => "/tmp/" ++ prefix ++ "0";
  copy_dir := fun f _ _ _ => Some f;
  can_write := fun _ _ _ => true
|}.

(** The same host as seen from inside an OpenShift pod. *)
Definition pod_env (providers : list string) : Env := {|
  getRoot := "/";
  getcwd := "/work";
  environ := {[ "TOKEN_ENV_VAR" := "tok"; "POD_NAMESPACE" := "podns" ]};
  running_on_openshift := true;
  get_openshift_api_endpoint_from_env := Some "https://api.pod";
  getNewAppCacheDir := fun img => "/var/lib/atomicapp/" ++ img;
  getSupportedProviders := fun _ _ => providers;
  mkdtemp_name := fun _ prefix => "/tmp/" ++ prefix ++ "0";
  copy_dir := fun f _ _ _ => Some f;
  can_write := fun _ _ _ => true
|}.

Definition empty_heap : heap := Heap ∅ ∅.

(** * Vocabulary of the properties, and inputs to run them on *)

Local Open Scope list_scope.

(** [preserves R m]: whatever [m] does, returning or raising, the state
    it leaves is related by [R] to the state it started in. *)
Definition preserves {B A} (R : relation (state B)) (m : M B A) : Prop :=
  ∀ s, R s (final (m s)).

(** The family of relations used below: [Q] bounds how the instance
    changes, the flags say whether the store and the filesystem stay as
    they are, and [P] holds of every call logged. *)
Definition effect {B} (P : event → Prop) (Q : relation (manager B))
    (keep_heap keep_fs : bool) : relation (state B) :=
  λ s s',
    Q (self s) (self s') ∧
    (keep_heap = true → hp s' = hp s) ∧
    (keep_fs = true → fsys s' = fsys s) ∧
    ∃ new, trace s' = new ++ trace s ∧ Forall P new.

(** Only [self.nulecule] changes. *)
Definition only_nulecule {B} : relation (manager B) :=
  λ m m',
    answers m' = answers m ∧ cli_answers m' = cli_answers m ∧
    answers_format m' = answers_format m ∧ answers_file m' = answers_file m ∧
    app_path m' = app_path m ∧ image m' = image m ∧
    main_file m' = main_file m.

(** The attributes fixed by the constructor stay as they are. *)
Definition same_location {B} : relation (manager B) :=
  λ m m',
    cli_answers m' = cli_answers m ∧ app_path m' = app_path m ∧
    image m' = image m.

(** As [same_location], and [self.answers_format] stays too. *)
Definition same_location_format {B} : relation (manager B) :=
  λ m m', same_location m m' ∧ answers_format m' = answers_format m.

Definition no_event (ev : event) : Prop := False.

Definition is_load (ev : event) : Prop :=
  match ev with EvLoadAnswers _ => True | _ => False end.

Definition is_serialize (ev : event) : Prop :=
  match ev with EvSerialize _ _ _ => True | _ => False end.

Definition not_unpack (ev : event) : Prop :=
  match ev with EvUnpack _ _ _ _ _ _ => False | _ => True end.

Definition not_load (ev : event) : Prop :=
  match ev with EvLoadAnswers _ => False | _ => True end.

Definition any_event (ev : event) : Prop := True.

(** Answer resolution leaves everything but [self.answers] and
    [self.answers_file] as it is, does not touch the filesystem, and calls
    nothing but [Utils.loadAnswers]. *)
Definition resolution_change {B} : relation (manager B) :=
  λ m m',
    cli_answers m' = cli_answers m ∧ answers_format m' = answers_format m ∧
    app_path m' = app_path m ∧ image m' = image m ∧
    main_file m' = main_file m ∧ nulecule m' = nulecule m.

(** [denotes h d fd]: in store [h], the document dictionary [d] reads as
    the tree [fd]. *)
Definition denotes (h : heap) (d : doc) (fd : fdoc) : Prop :=
  ∀ k, snap_entry h <$> d !! k = Some <$> fd !! k.

(** No section dictionary is stored under two names. *)
Definition unshared (d : doc) : Prop :=
  ∀ k1 k2 l, d !! k1 = Some (ESec l) → d !! k2 = Some (ESec l) → k1 = k2.

(** [h'] has every dictionary of [h], unchanged. *)
Definition extends (h h' : heap) : Prop :=
  (∀ l d, docs h !! l = Some d → docs h' !! l = Some d) ∧
  (∀ l s, secs h !! l = Some s → secs h' !! l = Some s).

(** [for k, v in items: s[k] = v] on a dictionary. *)
Definition merge_items (items : list (string * scalar)) (s : sect) : sect :=
  foldl (λ acc kv, <[kv.1 := kv.2]> acc) s items.

(** The tree after the command-line answers are merged into its global
    section. *)
Definition merge_cli (G : string) (cli : option sect) (fd : fdoc) : fdoc :=
  match cli, fd !! G with
  | Some c, Some (FSec s) => <[G := FSec (c ∪ s)]> fd
  | _, _ => fd
  end.

(** The store with one section dictionary replaced. *)
Definition set_section (h : heap) (ls : loc) (s : sect) : heap :=
  Heap (docs h) (<[ls := s]> (secs h)).

(** A command-line answer over a value from below. *)
Definition cli_over (cli : option sect) (k : string) (below : option scalar)
    : option scalar :=
  match cli with
  | Some c => match c !! k with Some v => Some v | None => below end
  | None => below
  end.

(** The instance with one attribute replaced. *)
Definition with_answers {B} (l : loc) (m : manager B) : manager B :=
  Manager l (cli_answers m) (answers_format m) (answers_file m) (app_path m)
    (image m) (main_file m) (nulecule m).

Definition with_answers_file {B} (x : option string) (m : manager B)
    : manager B :=
  Manager (answers m) (cli_answers m) (answers_format m) x (app_path m)
    (image m) (main_file m) (nulecule m).

(** The answers file that the first step of answer resolution settles
    on. *)
Definition resolved_answers_file (K : Consts) {B} (s : state B)
    : option string :=
  if str_truthy (answers_file (self s)) then answers_file (self s)
  else match app_path (self s) with
       | Some ap =>
           if path_isfile (fsys s) (Path.join ap (ANSWERS_FILE K))
           then Some (Path.join ap (ANSWERS_FILE K))
           else answers_file (self s)
       | None => answers_file (self s)
       end.

(** The destination after line 67, and the filesystem with the temporary
    directory when one is made. *)
Definition effective_destination (U : Env) (f : fs) (destination : option string)
    : option string * fs :=
  let d := reroot_opt (getRoot U) destination in
  if is_none_sentinel d
  then (Some (mkdtemp_name U f "atomicapp"),
        <[mkdtemp_name U f "atomicapp" := NDir]> f)
  else (d, f).

(** Where the constructor leaves the application, as a property of the
    instance and the filesystem. *)
Definition located (U : Env) (src : string) (dst : option string) (f1 : fs)
    {B} (m : manager B) (f' : fs) : Prop :=
  if path_exists f1 src then
    image m = None ∧
    match as_truthy dst with
    | Some d => app_path m = Some d ∧ copy_dir U f1 src d true = Some f'
    | None => app_path m = Some src ∧ f' = f1
    end
  else
    image m = Some src ∧ f' = f1 ∧
    app_path m = Some (match as_truthy dst with
                       | Some d => d
                       | None => getNewAppCacheDir U src
                       end).

Definition with_answers_format {B} (x : option string) (m : manager B)
    : manager B :=
  Manager (answers m) (cli_answers m) x (answers_file m) (app_path m)
    (image m) (main_file m) (nulecule m).

(** [self.answers_file], [self.answers] and the location stay as they
    are. *)
Definition keeps_resolution {B} : relation (manager B) :=
  λ m m',
    answers m' = answers m ∧ answers_file m' = answers_file m ∧
    same_location m m'.

(** [self.answers_file] and the location stay as they are. *)
Definition keeps_answers_file {B} : relation (manager B) :=
  λ m m', answers_file m' = answers_file m ∧ same_location m m'.

(** The four values the platform detection stores, over a value from
    below; the later assignment wins when two keys coincide. *)
Definition platform_over (tok ns api : string) (k : string)
    (below : option scalar) : option scalar :=
  if decide (k = "providerapi") then Some (SStr api)
  else if decide (k = "namespace") then Some (SStr ns)
  else if decide (k = "accesstoken") then Some (SStr tok)
  else if decide (k = "provider") then Some (SStr "openshift")
  else below.

(** A host with an unpacked application in [/app]. *)
Definition host_fs : fs :=
  {[ "/app" := NDir; "/app/Nulecule" := NFile Opaque ]}.

(** The same host, with an answers file already in the working
    directory. *)
Definition host_fs_with_answers : fs :=
  <["/work/answers.conf" :=
      NFile (Answers None {[ "general" := FSec {[ "namespace" := SStr "mine" ]} ]})]>
    host_fs.

(** An instance for the application in [/app], before any answers are
    resolved. *)
Definition bare_instance (E : Engine) (l : loc) : manager (bundle E) :=
  Manager l None None None (Some "/app") None (Some "/app/Nulecule") None.

(** The global section of the document at [l] exists and holds a
    namespace value. *)
Definition has_namespace (K : Consts) (h : heap) (l : loc) : Prop :=
  is_Some (lookup2 h l (GLOBAL_CONF K) (NAMESPACE_KEY K)).

(** The same for a tree. *)
Definition fhas_namespace (K : Consts) (fd : fdoc) : Prop :=
  is_Some (flookup2 fd (GLOBAL_CONF K) (NAMESPACE_KEY K)).

(** The answers file of the instance, when it holds a document, holds
    one with a namespace in its global section. *)
Definition answers_file_has_namespace (K : Consts) {B} (s : state B) : Prop :=
  ∀ p fmt fd,
    as_truthy (answers_file (self s)) = Some p →
    fsys s !! p = Some (NFile (Answers fmt fd)) →
    fhas_namespace K fd.

(** A host whose application directory holds an answers file without a
    global section. *)
Definition host_fs_no_global : fs :=
  <["/app/answers.conf" :=
      NFile (Answers None {[ "mariadb" := FSec {[ "password" := SStr "x" ]} ]})]>
    host_fs.

(** A host whose application directory holds an answers file with a
    global section naming a provider and a namespace. *)
Definition host_fs_embedded : fs :=
  <["/app/answers.conf" :=
      NFile (Answers None
               {[ "general" := FSec {[ "namespace" := SStr "emb";
                                      "provider" := SStr "docker" ]} ]})]>
    host_fs.

(** The command-line answers can be merged into the tree: there are none,
    or the tree has a global section. *)
Definition mergeable (K : Consts) (cli : option sect) (fd : fdoc) : Prop :=
  match cli with
  | Some c => c = ∅ ∨ ∃ sec, fd !! GLOBAL_CONF K = Some (FSec sec)
  | None => True
  end.

(** The command-line answers do not name [k]. *)
Definition cli_lacks (cli : option sect) (k : string) : Prop :=
  match cli with
  | Some c => c !! k = None
  | None => True
  end.

(** Lines 268-273 of [stop]: what follows answer resolution. *)
Definition stop_engine_calls (E : Engine) (cli_provider : option string)
    (dryrun : bool) : M (bundle E) unit :=
  let* me := get_self in
  log (EvLoadFromPath (app_path me) dryrun (Some (answers me))) ;;;
  let* b := call (nl_load_from_path E (app_path me) dryrun (Some (answers me))) in
  set_nulecule (Some b) ;;;
  let* me := get_self in
  log (EvLoadConfig (answers me) false false) ;;;
  let* b := call (nl_load_config E b (answers me) false false) in
  set_nulecule (Some b) ;;;
  log (EvRender cli_provider dryrun) ;;;
  let* b := call (nl_render E b cli_provider dryrun) in
  set_nulecule (Some b) ;;;
  log (EvStop cli_provider dryrun) ;;;
  let* b := call (nl_stop E b cli_provider dryrun) in
  set_nulecule (Some b).

(** A host with an answers file of the user's, outside the application
    directory. *)
Definition user_answers : fdoc :=
  {[ "general" := FSec {[ "namespace" := SStr "fromfile";
                          "provider" := SStr "docker" ]} ]}.

Definition host_fs_user_answers : fs :=
  <["/work/my.conf" := NFile (Answers None user_answers)]> host_fs.

(** The instance for [/app] built with that answers file, and the same
    instance after a returning [run]. *)
Definition built : state (bundle (plain_engine [])) :=
  final (__init__ atomicapp_constants (plain_env ["docker"]) (plain_engine [])
           "/app" None None (Some "/work/my.conf") empty_heap
           host_fs_user_answers []).

Definition after_run : state (bundle (plain_engine [])) :=
  final (run atomicapp_constants (plain_env ["docker"]) (plain_engine [])
           None None false None false built).

(** [self.answers_file], the application path and [self.answers] are as
    before, and [Utils.loadAnswers] has not been called. *)
Definition resolves_nothing {B} (s s' : state B) : Prop :=
  answers_file (self s') = answers_file (self s) ∧
  app_path (self s') = app_path (self s) ∧
  answers (self s') = answers (self s) ∧
  ∃ new, trace s' = new ++ trace s ∧ Forall not_load new.

(** An image whose files include an answers file. *)
Definition image_files : list (string * node) :=
  [ ("Nulecule", NFile Opaque);
    ("answers.conf",
     NFile (Answers None
              {[ "general" := FSec {[ "namespace" := SStr "emb";
                                     "provider" := SStr "docker" ]} ]})) ].

(** A configuration whose global section names a provider. *)
Definition docker_config : fdoc :=
  {[ "general" := FSec {[ "provider" := SStr "docker" ]} ]}.

(** A state whose store holds that configuration, and its location. *)
Definition config_state : state (bundle (plain_engine [])) :=
  State (bare_instance (plain_engine []) 1%positive)
    (build_doc docker_config empty_heap).2 ∅ [].

Definition config_loc : loc := (build_doc docker_config empty_heap).1.

(** Lines 70-86 as a function of the source and the destination after
    lines 51-67: the image, the application path and the filesystem the
    constructor goes on with; nothing when it raises there (the copy
    fails, or the source is the empty string, which is no image and
    leaves no application path to join [MAIN_FILE] to). *)
Definition location_of (U : Env) (src : string) (dst : option string)
    (f1 : fs) : option (option string * string * fs) :=
  if path_exists f1 src then
    match as_truthy dst with
    | Some d =>
        match copy_dir U f1 src d true with
        | Some f' => Some (None, d, f')
        | None => None
        end
    | None => Some (None, src, f1)
    end
  else if Path.nonempty src then
    Some (Some src,
          match as_truthy dst with
          | Some d => d
          | None => getNewAppCacheDir U src
          end,
          f1)
  else None.

(** The calls the location part of the constructor logs, most recent
    first. *)
Definition location_events (src : string) (d0 dst : option string) (f1 : fs)
    : list event :=
  (if path_exists f1 src
   then match as_truthy dst with
        | Some d => [EvCopyDir src d true]
        | None => []
        end
   else []) ++
  (if is_none_sentinel d0 then [EvMkdtemp "atomicapp"] else []).

(** The path of [p] under [dst] when [p] is [src] or lies under it. *)
Definition moved_path (src dst p : string) : option string :=
  if String.eqb p src then Some dst
  else if String.prefix (src ++ "/")%string p
       then Some (dst ++ String.substring (String.length src)
                           (String.length p - String.length src) p)%string
       else None.

(** A tree copy that merges: every node at or under [src] is written at
    the same place under [dst]; nothing is removed. *)
Definition copy_tree (f : fs) (src dst : string) : fs :=
  map_fold (λ p n acc,
              match moved_path src dst p with
              | Some q => <[q := n]> acc
              | None => acc
              end) f f.

(** A host where [Utils.copy_dir] copies.
    Modelled from the spec: [atomicapp.utils] is not among the sources;
    the spec has the bundle "copied (with update/merge semantics, not
    destructive overwrite) into the destination". *)
Definition copying_env : Env := {|
  getRoot := "/";
  getcwd := "/work";
  environ := ∅;
  running_on_openshift := false;
  get_openshift_api_endpoint_from_env := None;
  getNewAppCacheDir := fun img => ("/var/lib/atomicapp/" ++ img)%string;
  getSupportedProviders := fun _ _ => [];
  mkdtemp_name := fun _ prefix => ("/tmp/" ++ prefix ++ "0")%string;
  copy_dir := fun f src dst _ => Some (copy_tree f src dst);
  can_write := fun _ _ _ => true
|}.

(** The same host seen from a container that has it mounted at
    [/host]. *)
Definition container_env : Env := {|
  getRoot := "/host";
  getcwd := "/work";
  environ := ∅;
  running_on_openshift := false;
  get_openshift_api_endpoint_from_env := None;
  getNewAppCacheDir := fun img => ("/host/var/lib/atomicapp/" ++ img)%string;
  getSupportedProviders := fun _ _ => [];
  mkdtemp_name := fun _ prefix => ("/tmp/" ++ prefix ++ "0")%string;
  copy_dir := fun f src dst _ => Some (copy_tree f src dst);
  can_write := fun _ _ _ => true
|}.

(** What the container sees: the host's application in [/host/app] and
    the user's answers file in [/host/work/my.conf]. *)
Definition container_fs : fs :=
  {[ "/host/app" := NDir;
     "/host/app/Nulecule" := NFile Opaque;
     "/host/work/my.conf" := NFile (Answers None user_answers) ]}.

(** ** Vocabulary of the further properties *)

(** The flags a call into the engine carries: [dryrun] for every call
    that has one, [nodeps] and [update] for [Nulecule.unpack], [ask] and
    [skip_asking] for [load_config]. *)
Definition call_flags (nodeps dryrun update ask skip_asking : bool)
    (ev : event) : Prop :=
  match ev with
  | EvUnpack _ _ _ n d u => n = nodeps ∧ d = dryrun ∧ u = update
  | EvLoadFromPath _ d _ => d = dryrun
  | EvLoadConfig _ a sk => a = ask ∧ sk = skip_asking
  | EvRender _ d => d = dryrun
  | EvRun _ d => d = dryrun
  | EvStop _ d => d = dryrun
  | _ => True
  end.

(** The provider a call of [render], [run] or [stop] carries. *)
Definition call_provider (cli_provider : option string) (ev : event) : Prop :=
  match ev with
  | EvRender p _ => p = cli_provider
  | EvRun p _ => p = cli_provider
  | EvStop p _ => p = cli_provider
  | _ => True
  end.

(** Not a call of [render], [run] or [stop]. *)
Definition no_deploy (ev : event) : Prop :=
  match ev with
  | EvRender _ _ => False
  | EvRun _ _ => False
  | EvStop _ _ => False
  | _ => True
  end.

(** What the constructor fixes: the command-line answers, the
    application path, the image and the main file. *)
Definition keeps_identity {B} : relation (manager B) :=
  λ m m',
    cli_answers m' = cli_answers m ∧ app_path m' = app_path m ∧
    image m' = image m ∧ main_file m' = main_file m.

(** [raises_only P m]: whenever [m] raises, the exception is in [P]. *)
Definition raises_only {B A} (P : exn → Prop) (m : M B A) : Prop :=
  ∀ s e s', m s = Raise e s' → P e.

Definition not_nulecule_exception (e : exn) : Prop :=
  match e with
  | NuleculeException _ => False
  | _ => True
  end.

(** The outcome is not a [NuleculeException]. *)
Definition no_nulecule_exception {B A} (o : outcome B A) : Prop :=
  match o with
  | Raise (NuleculeException _) _ => False
  | _ => True
  end.

(** Any change of the instance. *)
Definition any_change {B} : relation (manager B) := λ _ _, True.

(** The class method [unpack] calls for an instance: [Nulecule.unpack]
    when the instance has an image, [Nulecule.load_from_path] on the
    application path otherwise (lines 133-139). *)
Definition unpack_event {B} (m : manager B) (config : option loc)
    (nodeps dryrun update : bool) : event :=
  match as_truthy (image m) with
  | Some img => EvUnpack img (app_path m) config nodeps dryrun update
  | None => EvLoadFromPath (app_path m) dryrun config
  end.



(** Lines 348-352 on the global section the runtime answers start from:
    its namespace, unless it has one that is true, becomes
    [DEFAULT_NAMESPACE], and a provider that is given is stored. *)
Definition runtime_section (K : Consts) (cli_provider : option string)
    (s0 : sect) : sect :=
  let ns := match s0 !! NAMESPACE_KEY K with
            | Some v => if truthy v then v else SStr (DEFAULT_NAMESPACE K)
            | None => SStr (DEFAULT_NAMESPACE K)
            end in
  match as_truthy cli_provider with
  | Some p => <[PROVIDER_KEY K := SStr p]> (<[NAMESPACE_KEY K := ns]> s0)
  | None => <[NAMESPACE_KEY K := ns]> s0
  end.

(** [config.get(GLOBAL_CONF) or {}] on a tree (line 347): the global
    section when there is one, an empty one when there is none or a
    value that is false; a value that is true is no dictionary. *)
Definition global_base (K : Consts) (fd : fdoc) : option sect :=
  match fd !! GLOBAL_CONF K with
  | Some (FSec s) => Some s
  | Some (FVal v) => if truthy v then None else Some ∅
  | None => Some ∅
  end.

(** The runtime answers, as a tree. *)
Definition runtime_tree (K : Consts) (cli_provider : option string)
    (fd : fdoc) : option fdoc :=
  match global_base K fd with
  | Some s0 =>
      Some (<[GLOBAL_CONF K := FSec (runtime_section K cli_provider s0)]> fd)
  | None => None
  end.

(** The global section of a tree is a dictionary that is not empty: the
    case in which line 347 hands the input's own section on. *)
Definition global_shared (K : Consts) (fd : fdoc) : bool :=
  match fd !! GLOBAL_CONF K with
  | Some (FSec s) => negb (bool_decide (s = ∅))
  | _ => false
  end.

(** * Properties *)

(** ** Paths *)

Lemma lstrip_not_abs (s : string) : Path.isabs (Path.lstrip s) = false.
Proof.
  induction s as [|c s IH]; simpl; [reflexivity|].
  destruct (Ascii.eqb c Path.sep) eqn:Hc; [exact IH|].
  simpl. exact Hc.
Qed.

Lemma join_relative (a b : string) :
  Path.isabs b = false →
  Path.join a b =
    if negb (Path.nonempty a) || Path.endswith_sep a then (a ++ b)%string
    else (a ++ String Path.sep b)%string.
Proof. intros Hb. unfold Path.join. rewrite Hb. reflexivity. Qed.

Lemma nonempty_app (a b : string) :
  Path.nonempty (a ++ b)%string = Path.nonempty a || Path.nonempty b.
Proof. destruct a; reflexivity. Qed.

Lemma join_nonempty (a b : string) :
  Path.nonempty (Path.join a b) = Path.nonempty a || Path.nonempty b.
Proof.
  unfold Path.join.
  destruct (Path.isabs b) eqn:Hb.
  - destruct b; [discriminate|]. simpl. rewrite orb_true_r. reflexivity.
  - destruct (negb (Path.nonempty a) || Path.endswith_sep a) eqn:Ha;
      rewrite nonempty_app.
    + reflexivity.
    + destruct a; [discriminate|]. reflexivity.
Qed.

(** ** The monad *)

Section Monad_facts.

Context {B : Type}.

Lemma bind_ret_inv {A C} (m : M B A) (k : A → M B C) s c s' :
  bind m k s = Ret c s' → ∃ a s1, m s = Ret a s1 ∧ k a s1 = Ret c s'.
Proof.
  unfold bind. destruct (m s) as [a s1|e s1]; [eauto|discriminate].
Qed.

Lemma bind_unfold {A C} (m : M B A) (k : A → M B C) s :
  bind m k s = match m s with
               | Ret a s1 => k a s1
               | Raise e s1 => Raise e s1
               end.
Proof. reflexivity. Qed.

Lemma final_bind {A C} (m : M B A) (k : A → M B C) s :
  final (bind m k s) = match m s with
                       | Ret a s1 => final (k a s1)
                       | Raise _ s1 => s1
                       end.
Proof. unfold bind. destruct (m s); reflexivity. Qed.

Lemma preserves_bind {A C} (R : relation (state B)) `{!PreOrder R} (m : M B A) (k : A → M B C) :
  preserves R m → (∀ a, preserves R (k a)) → preserves R (bind m k).
Proof.
  intros Hm Hk s. rewrite final_bind. specialize (Hm s).
  destruct (m s) as [a s1|e s1]; simpl in Hm; [|exact Hm].
  etransitivity; [exact Hm|apply Hk].
Qed.

Lemma preserves_ret {A} (R : relation (state B)) `{!PreOrder R} (a : A) : preserves R (ret a).
Proof. intros s. simpl. reflexivity. Qed.

Lemma preserves_raise {A} (R : relation (state B)) `{!PreOrder R} e : preserves R (raise (A := A) e).
Proof. intros s. simpl. reflexivity. Qed.

#[global] Instance effect_preorder P (Q : relation (manager B)) kh kf :
  PreOrder Q → PreOrder (effect P Q kh kf).
Proof.
  intros HQ. split.
  - intros s. unfold effect. repeat split; try reflexivity.
    exists []. split; [reflexivity|constructor].
  - intros s1 s2 s3 (Hq1 & Hh1 & Hf1 & n1 & Ht1 & Hp1) (Hq2 & Hh2 & Hf2 & n2 & Ht2 & Hp2).
    unfold effect. repeat split.
    + etransitivity; eassumption.
    + intros Hk. rewrite Hh2, Hh1; auto.
    + intros Hk. rewrite Hf2, Hf1; auto.
    + exists (n2 ++ n1). split.
      * rewrite Ht2, Ht1. apply app_assoc.
      * apply Forall_app. split; assumption.
Qed.

Section Effect.

Context (P : event → Prop) (Q : relation (manager B)) (kh kf : bool).
Context `{!PreOrder Q}.

Local Abbreviation R := (effect P Q kh kf).

Lemma effect_same (s : state B) h f :
  (kh = true → h = hp s) → (kf = true → f = fsys s) →
  R s (State (self s) h f (trace s)).
Proof.
  intros Hh Hf. unfold effect. simpl. repeat split; auto.
  - reflexivity.
  - exists []. split; [reflexivity|constructor].
Qed.

Lemma preserves_get_self : preserves R (get_self (B := B)).
Proof. intros s. simpl. reflexivity. Qed.

Lemma preserves_get_fs : preserves R (get_fs (B := B)).
Proof. intros s. simpl. reflexivity. Qed.

Lemma preserves_heap_read {A} (f : heap → option A) :
  preserves R (heap_read (B := B) f).
Proof. intros s. unfold heap_read. destruct (f (hp s)); simpl; reflexivity. Qed.

Lemma preserves_heap_op {A} (f : heap → A * heap) :
  kh = false → preserves R (heap_op (B := B) f).
Proof.
  intros Hk s. unfold heap_op. destruct (f (hp s)) as [a h]. simpl.
  apply effect_same; [congruence|reflexivity].
Qed.

Lemma preserves_put_fs f : kf = false → preserves R (put_fs (B := B) f).
Proof.
  intros Hk s. simpl. apply effect_same; [reflexivity|congruence].
Qed.

Lemma preserves_call {A} (g : heap → fs → eres A) :
  kh = false → kf = false → preserves R (call (B := B) g).
Proof.
  intros Hh Hf s. unfold call.
  destruct (g (hp s) (fsys s)); simpl; apply effect_same; congruence.
Qed.

Lemma preserves_log ev : P ev → preserves R (log (B := B) ev).
Proof.
  intros Hev s. unfold effect. simpl. repeat split; auto.
  - reflexivity.
  - exists [ev]. split; [reflexivity|]. constructor; [exact Hev|constructor].
Qed.

Lemma preserves_upd_self (f : manager B → manager B) :
  (∀ m, Q m (f m)) → preserves R (upd_self f).
Proof.
  intros Hf s. unfold effect. simpl. repeat split; auto.
  exists []. split; [reflexivity|constructor].
Qed.

End Effect.

End Monad_facts.


Lemma effect_mono {B} (P P' : event → Prop) (Q Q' : relation (manager B))
    (kh kf kh' kf' : bool) {A} (m : M B A) :
  (∀ ev, P ev → P' ev) →
  (∀ x y, Q x y → Q' x y) →
  (kh' = true → kh = true) →
  (kf' = true → kf = true) →
  preserves (effect P Q kh kf) m → preserves (effect P' Q' kh' kf') m.
Proof.
  intros HP HQ Hh Hf Hm s. destruct (Hm s) as (Hq & Hhp & Hfs & new & Ht & Hn).
  unfold effect. repeat split; auto.
  exists new. split; [exact Ht|]. eapply Forall_impl; eauto.
Qed.

(** Bounds on how the instance changes. *)

#[global] Instance only_nulecule_preorder {B} : PreOrder (@only_nulecule B).
Proof.
  split.
  - intros m. unfold only_nulecule. tauto.
  - intros a b c H1 H2. unfold only_nulecule in *.
    destruct H1 as (?&?&?&?&?&?&?), H2 as (?&?&?&?&?&?&?).
    repeat split; congruence.
Qed.

#[global] Instance same_location_preorder {B} : PreOrder (@same_location B).
Proof.
  split.
  - intros m. unfold same_location. tauto.
  - intros a b c H1 H2. unfold same_location in *.
    destruct H1 as (?&?&?), H2 as (?&?&?).
    repeat split; congruence.
Qed.

#[global] Instance same_location_format_preorder {B} :
  PreOrder (@same_location_format B).
Proof.
  split.
  - intros m. split; reflexivity.
  - intros a b c [H1 H1'] [H2 H2']. split; [etransitivity; eauto|congruence].
Qed.

(** Classes of logged calls. *)

(** Structural steps of a [preserves] proof. *)
Ltac pres_side :=
  first [ apply _ | reflexivity | exact I
        | intros ?; hnf; simpl; repeat split; reflexivity ].

Lemma for_each_preserves {B A} (R : relation (state B)) `{!PreOrder R} (items : list A)
    (body : A → M B unit) :
  (∀ x, preserves R (body x)) → preserves R (for_each items body).
Proof.
  intros Hb. induction items as [|x rest IH]; simpl.
  - apply preserves_ret; assumption.
  - apply preserves_bind; [assumption|apply Hb|intros _; exact IH].
Qed.

Lemma deepcopy_effect (E : Engine) l :
  preserves (effect no_event eq false true) (deepcopy E l).
Proof.
  intros s. unfold deepcopy.
  destruct (deepcopy_doc l (hp s)) as [[l' h]|]; simpl.
  - apply effect_same; [apply _|discriminate|reflexivity].
  - reflexivity.
Qed.

(** One structural step of a [preserves] proof; definitions that are not
    recursive are looked through. *)
Ltac pres_step :=
  first
    [ apply for_each_preserves; [ apply _ | intros ? ]
    | apply preserves_bind; [ apply _ | | intros ? ]
    | solve [ apply preserves_ret; pres_side ]
    | solve [ apply preserves_raise; pres_side ]
    | solve [ apply preserves_get_self; pres_side ]
    | solve [ apply preserves_get_fs; pres_side ]
    | solve [ apply preserves_heap_read; pres_side ]
    | solve [ apply preserves_heap_op; pres_side ]
    | solve [ apply preserves_put_fs; pres_side ]
    | solve [ apply preserves_call; pres_side ]
    | solve [ apply preserves_log; pres_side ]
    | solve [ apply preserves_upd_self; pres_side ]
    | solve [ eapply effect_mono; [ | | | | apply deepcopy_effect ];
              [ intros ? []
              | intros ? ? ->; reflexivity
              | intros Hk; exact Hk
              | reflexivity ] ]
    | match goal with
      | |- preserves _ (match ?x with _ => _ end) => destruct x
      end
    | progress unfold entry_truthy, entry_get, entry_set, environ_get,
        openshift_overrides ].

Ltac pres := repeat pres_step.

Section Method_effects.

Context (K : Consts) (U : Env) (E : Engine).

Lemma get_runtime_answers_effect config cli_provider :
  preserves (effect no_event eq false true)
    (_get_runtime_answers K E config cli_provider).
Proof.
  unfold _get_runtime_answers.
  pres.
Qed.

Lemma write_answers_effect path l fmt :
  preserves (effect is_serialize eq true false) (_write_answers U E path l fmt).
Proof. unfold _write_answers. pres. Qed.

Lemma openshift_overrides_effect :
  preserves (effect no_event eq false true) (openshift_overrides K U E).
Proof. unfold openshift_overrides. pres. Qed.

#[global] Instance resolution_change_preorder {B} :
  PreOrder (@resolution_change B).
Proof.
  split.
  - intros m. unfold resolution_change. tauto.
  - intros a b c H1 H2. unfold resolution_change in *.
    destruct H1 as (?&?&?&?&?&?), H2 as (?&?&?&?&?&?).
    repeat split; congruence.
Qed.

Lemma process_answers_effect :
  preserves (effect is_load resolution_change false true)
    (_process_answers K E).
Proof. unfold _process_answers. pres. Qed.

Lemma unpack_effect update dryrun nodeps config :
  preserves (effect not_load eq false false)
    (unpack E update dryrun nodeps config).
Proof. unfold unpack. pres. Qed.

Lemma load_own_config_effect b ask skip :
  preserves (effect not_load only_nulecule false false)
    (load_own_config E b ask skip).
Proof. unfold load_own_config. pres. Qed.

Lemma genanswers_effect dryrun fmt :
  preserves (effect any_event same_location false false)
    (genanswers K U E dryrun fmt).
Proof. unfold genanswers. pres. Qed.

Lemma install_effect nodeps update dryrun fmt :
  preserves (effect any_event same_location false false)
    (install K U E nodeps update dryrun fmt).
Proof. unfold install. pres. Qed.

Lemma run_effect cli_provider out ask fmt dryrun :
  preserves (effect any_event same_location false false)
    (run K U E cli_provider out ask fmt dryrun).
Proof. unfold run. pres. Qed.

Lemma stop_effect cli_provider dryrun :
  preserves (effect not_unpack same_location false false)
    (stop K E cli_provider dryrun).
Proof. unfold stop. pres. Qed.

End Method_effects.


(** ** The store: allocation, trees and snapshots *)

Lemma alloc_sec_spec s h l h' :
  alloc_sec s h = (l, h') →
  secs h !! l = None ∧ h' = Heap (docs h) (<[l := s]> (secs h)).
Proof.
  unfold alloc_sec. intros [= <- <-]. split; [|reflexivity].
  apply not_elem_of_dom, is_fresh.
Qed.

Lemma alloc_doc_spec d h l h' :
  alloc_doc d h = (l, h') →
  docs h !! l = None ∧ h' = Heap (<[l := d]> (docs h)) (secs h).
Proof.
  unfold alloc_doc. intros [= <- <-]. split; [|reflexivity].
  apply not_elem_of_dom, is_fresh.
Qed.

Lemma build_items_spec items h d h' :
  build_items items h = (d, h') →
  docs h' = docs h ∧
  (∀ l s, secs h !! l = Some s → secs h' !! l = Some s) ∧
  denotes h' d (list_to_map items) ∧
  unshared d ∧
  (∀ k l, d !! k = Some (ESec l) → secs h !! l = None).
Proof.
  revert d h'. induction items as [|[k fe] rest IH]; intros d h' Hb;
    cbn [build_items] in Hb.
  - injection Hb as <- <-.
    refine (conj _ (conj _ (conj _ (conj _ _)))); auto.
    + intros k. rewrite !lookup_empty. reflexivity.
    + intros k1 k2 l H. rewrite lookup_empty in H. discriminate.
    + intros k l H. rewrite lookup_empty in H. discriminate.
  - destruct (build_items rest h) as [d1 h1] eqn:Hr.
    destruct (IH _ _ eq_refl) as (Hd & Hext & Hden & Hun & Hfr).
    destruct fe as [v|s]; cbn [build_entry] in Hb.
    + injection Hb as <- <-.
      refine (conj _ (conj _ (conj _ (conj _ _)))); auto.
      * intros k'. simpl. destruct (decide (k = k')) as [->|Hne].
        -- rewrite !lookup_insert_eq. reflexivity.
        -- rewrite !lookup_insert_ne by exact Hne. apply Hden.
      * intros k1 k2 l H1 H2.
        destruct (decide (k = k1)) as [->|Hn1];
          [rewrite lookup_insert_eq in H1; discriminate|].
        destruct (decide (k = k2)) as [->|Hn2];
          [rewrite lookup_insert_eq in H2; discriminate|].
        rewrite lookup_insert_ne in H1, H2 by assumption. eauto.
      * intros k' l H.
        destruct (decide (k = k')) as [->|Hne];
          [rewrite lookup_insert_eq in H; discriminate|].
        rewrite lookup_insert_ne in H by exact Hne. eauto.
    + destruct (alloc_sec s h1) as [l h2] eqn:Ha. injection Hb as <- <-.
      apply alloc_sec_spec in Ha as [Hfresh ->]. simpl.
      assert (Hold : ∀ k' l', d1 !! k' = Some (ESec l') → l' ≠ l).
      { intros k' l' Hk' ->. specialize (Hden k'). rewrite Hk' in Hden.
        simpl in Hden. rewrite Hfresh in Hden. simpl in Hden.
        destruct (list_to_map rest !! k'); discriminate. }
      refine (conj _ (conj _ (conj _ (conj _ _)))).
      * exact Hd.
      * intros l0 s0 H0. rewrite lookup_insert_ne; [auto|].
        intros ->. rewrite (Hext _ _ H0) in Hfresh. discriminate.
      * intros k'. simpl. destruct (decide (k = k')) as [->|Hne].
        -- rewrite !lookup_insert_eq. simpl. rewrite lookup_insert_eq.
           reflexivity.
        -- rewrite !lookup_insert_ne by exact Hne.
           specialize (Hden k'). destruct (d1 !! k') as [e|] eqn:He; [|exact Hden].
           simpl in *. destruct e as [v|l']; [exact Hden|]. simpl in *.
           rewrite lookup_insert_ne; [exact Hden|].
           intros ->. eapply Hold; eauto.
      * intros k1 k2 l0 H1 H2.
        destruct (decide (k = k1)) as [E1|Hn1];
          destruct (decide (k = k2)) as [E2|Hn2]; [congruence| | |].
        -- subst k1. rewrite lookup_insert_eq in H1.
           rewrite lookup_insert_ne in H2 by exact Hn2.
           injection H1 as <-. exfalso. eapply Hold; eauto.
        -- subst k2. rewrite lookup_insert_eq in H2.
           rewrite lookup_insert_ne in H1 by exact Hn1.
           injection H2 as <-. exfalso. eapply Hold; eauto.
        -- rewrite lookup_insert_ne in H1, H2 by assumption. eauto.
      * intros k' l0 H.
        destruct (decide (k = k')) as [->|Hne].
        -- rewrite lookup_insert_eq in H. injection H as <-.
           destruct (secs h !! l) as [s0|] eqn:H0; [|reflexivity].
           rewrite (Hext _ _ H0) in Hfresh. discriminate.
        -- rewrite lookup_insert_ne in H by exact Hne. eauto.
Qed.

(** What [build_doc] returns: a new document dictionary, made of new
    section dictionaries, that reads as the tree it was built from. *)
Lemma build_doc_spec fd h l h' :
  build_doc fd h = (l, h') →
  docs h !! l = None ∧ extends h h' ∧
  ∃ d, docs h' !! l = Some d ∧ denotes h' d fd ∧ unshared d ∧
       (∀ k ls, d !! k = Some (ESec ls) → secs h !! ls = None).
Proof.
  unfold build_doc. intros Hb.
  destruct (build_items (map_to_list fd) h) as [d h1] eqn:Hi.
  apply build_items_spec in Hi as (Hd & Hext & Hden & Hun & Hfr).
  apply alloc_doc_spec in Hb as [Hfresh ->].
  rewrite list_to_map_to_list in Hden.
  split; [rewrite <- Hd; exact Hfresh|].
  split.
  { split; simpl; [|exact Hext].
    intros l0 d0 H0. rewrite lookup_insert_ne; [rewrite Hd; exact H0|].
    intros ->. rewrite Hd in Hfresh. congruence. }
  exists d. simpl. rewrite lookup_insert_eq.
  refine (conj _ (conj _ (conj _ _))); auto.
Qed.

Lemma snapshot_denotes h l d fd :
  docs h !! l = Some d → denotes h d fd → snapshot h l = Some fd.
Proof.
  intros Hl Hden. unfold snapshot. rewrite Hl.
  rewrite bool_decide_eq_true_2.
  - f_equal. apply map_eq. intros k. rewrite lookup_omap.
    specialize (Hden k). destruct (d !! k) as [e|]; simpl in *.
    + destruct (fd !! k); simpl in *; congruence.
    + destruct (fd !! k); simpl in *; congruence.
  - intros k e He. specialize (Hden k). rewrite He in Hden. simpl in Hden.
    destruct (fd !! k); simpl in Hden; [|discriminate].
    injection Hden as ->. eauto.
Qed.

Lemma snapshot_inv h l fd :
  snapshot h l = Some fd → ∃ d, docs h !! l = Some d ∧ denotes h d fd.
Proof.
  unfold snapshot. destruct (docs h !! l) as [d|]; [|discriminate].
  case_bool_decide as Hall; [|discriminate]. intros [= <-].
  exists d. split; [reflexivity|]. intros k. rewrite lookup_omap.
  destruct (d !! k) as [e|] eqn:He; simpl; [|reflexivity].
  destruct (Hall _ _ He) as [fe Hfe]. rewrite Hfe. reflexivity.
Qed.

Lemma build_doc_snapshot fd h l h' :
  build_doc fd h = (l, h') → snapshot h' l = Some fd.
Proof.
  intros Hb. apply build_doc_spec in Hb as (_ & _ & d & Hl & Hden & _).
  eapply snapshot_denotes; eauto.
Qed.

Lemma lookup2_denotes h l d fd sec k :
  docs h !! l = Some d → denotes h d fd →
  lookup2 h l sec k = flookup2 fd sec k.
Proof.
  intros Hl Hden. unfold lookup2, flookup2. rewrite Hl.
  specialize (Hden sec). destruct (d !! sec) as [[v|ls]|]; simpl in Hden.
  - destruct (fd !! sec); simpl in *; [|discriminate].
    injection Hden as <-. reflexivity.
  - destruct (secs h !! ls) as [s|]; simpl in Hden;
      destruct (fd !! sec); simpl in *; try discriminate.
    injection Hden as <-. reflexivity.
  - destruct (fd !! sec); simpl in *; [discriminate|reflexivity].
Qed.

Lemma lookup2_snapshot h l fd sec k :
  snapshot h l = Some fd → lookup2 h l sec k = flookup2 fd sec k.
Proof.
  intros H. apply snapshot_inv in H as (d & Hl & Hden).
  eapply lookup2_denotes; eauto.
Qed.

(** Replacing the section stored under [sec] in the store replaces it in
    the tree, and nothing else, when the section has one name. *)
Lemma denotes_update h d fd sec ls s' :
  denotes h d fd → unshared d → d !! sec = Some (ESec ls) →
  denotes (Heap (docs h) (<[ls := s']> (secs h))) d (<[sec := FSec s']> fd).
Proof.
  intros Hden Hun Hsec k. destruct (decide (sec = k)) as [->|Hne].
  - rewrite Hsec, lookup_insert_eq. simpl. rewrite lookup_insert_eq. reflexivity.
  - rewrite lookup_insert_ne by exact Hne. specialize (Hden k).
    destruct (d !! k) as [[v|l']|] eqn:Hk; simpl in *; [exact Hden| |exact Hden].
    rewrite lookup_insert_ne; [exact Hden|].
    intros ->. apply Hne. eapply Hun; eauto.
Qed.

(** ** Merging the command-line answers *)

Lemma merge_items_union items (s : sect) :
  NoDup items.*1 → merge_items items s = list_to_map items ∪ s.
Proof.
  unfold merge_items. revert s.
  induction items as [|[k v] rest IH]; intros s Hnd; simpl.
  - rewrite (left_id_L ∅ (∪)). reflexivity.
  - inversion Hnd as [|? ? Hnotin Hnd']; subst.
    rewrite IH by exact Hnd'.
    rewrite <- insert_union_l. symmetry. apply insert_union_r.
    apply not_elem_of_list_to_map_1. exact Hnotin.
Qed.

Lemma merge_map_to_list (c s : sect) :
  merge_items (map_to_list c) s = c ∪ s.
Proof.
  rewrite merge_items_union by apply NoDup_fst_map_to_list.
  rewrite list_to_map_to_list. reflexivity.
Qed.


(** ** Answer resolution, step by step *)

Lemma union_lookup_over (c s : sect) k :
  (c ∪ s) !! k = cli_over (Some c) k (s !! k).
Proof.
  unfold cli_over. rewrite lookup_union.
  destruct (c !! k), (s !! k); reflexivity.
Qed.

Lemma lookup2_set_section h l d sec ls s k :
  docs h !! l = Some d → d !! sec = Some (ESec ls) →
  lookup2 (set_section h ls s) l sec k = s !! k.
Proof.
  intros Hd Hs. unfold lookup2, set_section. simpl.
  rewrite Hd, Hs, lookup_insert_eq. reflexivity.
Qed.

Section Resolution.

Context (K : Consts) (E : Engine).

Lemma setitem2_run (s : state (bundle E)) l d sec ls s0 k v :
  docs (hp s) !! l = Some d → d !! sec = Some (ESec ls) →
  secs (hp s) !! ls = Some s0 →
  setitem2 l sec k v s =
    Ret tt (State (self s) (set_section (hp s) ls (<[k := v]> s0))
              (fsys s) (trace s)).
Proof.
  intros Hd Hsec Hs.
  unfold setitem2, getitem, entry_set, heap_read, heap_op, bind, ret. simpl.
  rewrite Hd. simpl. rewrite Hsec. simpl. rewrite Hs. reflexivity.
Qed.

Lemma for_each_set_cli_answer items : ∀ (s : state (bundle E)) d ls s0,
  docs (hp s) !! answers (self s) = Some d →
  d !! GLOBAL_CONF K = Some (ESec ls) →
  secs (hp s) !! ls = Some s0 →
  for_each items (set_cli_answer K E) s =
    Ret tt (State (self s) (set_section (hp s) ls (merge_items items s0))
              (fsys s) (trace s)).
Proof.
  induction items as [|[k v] rest IH]; intros s d ls s0 Hd Hg Hs.
  - simpl. unfold ret, set_section, merge_items. simpl.
    rewrite insert_id by exact Hs. destruct s as [m [dd ss] f t]. reflexivity.
  - cbn [for_each]. rewrite bind_unfold.
    assert (Hstep : set_cli_answer K E (k, v) s =
              Ret tt (State (self s) (set_section (hp s) ls (<[k := v]> s0))
                        (fsys s) (trace s))).
    { unfold set_cli_answer. rewrite bind_unfold. simpl.
      eapply setitem2_run; eauto. }
    rewrite Hstep.
    rewrite (IH _ d ls (<[k := v]> s0)); simpl; auto.
    + unfold set_section, merge_items. simpl. rewrite insert_insert_eq.
      reflexivity.
    + apply lookup_insert_eq.
Qed.

(** The third step of answer resolution on a document with a global
    section: the section becomes the command-line answers over what it
    held. *)
Lemma merge_cli_answers_run (s : state (bundle E)) d ls s0 c :
  cli_answers (self s) = Some c →
  docs (hp s) !! answers (self s) = Some d →
  d !! GLOBAL_CONF K = Some (ESec ls) →
  secs (hp s) !! ls = Some s0 →
  merge_cli_answers K E s =
    Ret tt (State (self s) (set_section (hp s) ls (c ∪ s0)) (fsys s) (trace s)).
Proof.
  intros Hc Hd Hg Hs. unfold merge_cli_answers. rewrite bind_unfold. simpl.
  rewrite Hc. case_bool_decide as Hempty; simpl.
  - subst c. rewrite (left_id_L ∅ (∪)). unfold ret, set_section.
    rewrite insert_id by exact Hs. destruct s as [m [dd ss] f t]. reflexivity.
  - erewrite for_each_set_cli_answer by eauto.
    rewrite merge_map_to_list. reflexivity.
Qed.

Lemma merge_cli_answers_none (s : state (bundle E)) :
  cli_answers (self s) = None → merge_cli_answers K E s = Ret tt s.
Proof.
  intros Hc. unfold merge_cli_answers. rewrite bind_unfold. simpl.
  rewrite Hc. reflexivity.
Qed.

Lemma set_cli_answer_ret kv (s s' : state (bundle E)) :
  set_cli_answer K E kv s = Ret tt s' →
  ∃ d ls s0, docs (hp s) !! answers (self s) = Some d ∧
             d !! GLOBAL_CONF K = Some (ESec ls) ∧
             secs (hp s) !! ls = Some s0.
Proof.
  unfold set_cli_answer, setitem2, getitem, entry_set, heap_read, heap_op,
    bind, get_self, ret, raise. simpl.
  destruct (docs (hp s) !! answers (self s)) as [d|]; [|discriminate].
  destruct (d !! GLOBAL_CONF K) as [[v|ls]|] eqn:Hg;
    [discriminate| |discriminate].
  simpl. destruct (secs (hp s) !! ls) as [s0|] eqn:Hs; [|discriminate].
  intros _. exists d, ls, s0. auto.
Qed.

Lemma merge_cli_answers_section (s s' : state (bundle E)) c :
  cli_answers (self s) = Some c → c ≠ ∅ →
  merge_cli_answers K E s = Ret tt s' →
  ∃ d ls s0, docs (hp s) !! answers (self s) = Some d ∧
             d !! GLOBAL_CONF K = Some (ESec ls) ∧
             secs (hp s) !! ls = Some s0.
Proof.
  intros Hc Hne. unfold merge_cli_answers. rewrite bind_unfold. simpl.
  rewrite Hc. rewrite bool_decide_eq_false_2 by exact Hne. simpl.
  destruct (map_to_list c) as [|kv rest] eqn:Hl.
  { apply map_to_list_empty_iff in Hl. contradiction. }
  cbn [for_each]. rewrite bind_unfold.
  destruct (set_cli_answer K E kv s) as [[] s1|] eqn:Hstep; [|discriminate].
  intros _. eapply set_cli_answer_ret; eauto.
Qed.

(** When the third step returns, the global section reads as the
    command-line answers over what it held; the rest of the instance, the
    filesystem and the log are as before. *)
Lemma merge_cli_answers_ret (s s' : state (bundle E)) :
  merge_cli_answers K E s = Ret tt s' →
  self s' = self s ∧ fsys s' = fsys s ∧ trace s' = trace s ∧
  docs (hp s') = docs (hp s) ∧
  (∀ k, lookup2 (hp s') (answers (self s)) (GLOBAL_CONF K) k =
        cli_over (cli_answers (self s)) k
          (lookup2 (hp s) (answers (self s)) (GLOBAL_CONF K) k)) ∧
  (∀ d fd, docs (hp s) !! answers (self s) = Some d →
     denotes (hp s) d fd → unshared d →
     denotes (hp s') d (merge_cli (GLOBAL_CONF K) (cli_answers (self s)) fd)).
Proof.
  intros Hret.
  destruct (cli_answers (self s)) as [c|] eqn:Hc.
  2:{ rewrite merge_cli_answers_none in Hret by exact Hc.
      injection Hret as <-. unfold merge_cli. simpl. auto 10. }
  destruct (decide (c = ∅)) as [->|Hne].
  { unfold merge_cli_answers in Hret. rewrite bind_unfold in Hret.
    simpl in Hret. rewrite Hc in Hret.
    rewrite bool_decide_eq_true_2 in Hret by reflexivity. simpl in Hret.
    injection Hret as <-.
    refine (conj _ (conj _ (conj _ (conj _ (conj _ _))))); auto.
    intros d fd Hd Hden Hun. unfold merge_cli.
    destruct (fd !! GLOBAL_CONF K) as [[v|s0]|] eqn:Hg; auto.
    rewrite (left_id_L ∅ (∪)). rewrite insert_id by exact Hg. exact Hden. }
  destruct (merge_cli_answers_section _ _ _ Hc Hne Hret)
    as (d & ls & s0 & Hd & Hg & Hs).
  erewrite merge_cli_answers_run in Hret by eauto.
  injection Hret as <-. simpl.
  refine (conj _ (conj _ (conj _ (conj _ (conj _ _))))); auto.
  - intros k. erewrite lookup2_set_section by eauto.
    rewrite union_lookup_over. f_equal.
    unfold lookup2. rewrite Hd, Hg, Hs. reflexivity.
  - intros d' fd Hd' Hden Hun. rewrite Hd in Hd'. injection Hd' as <-.
    unfold merge_cli.
    assert (Hfd : fd !! GLOBAL_CONF K = Some (FSec s0)).
    { specialize (Hden (GLOBAL_CONF K)). rewrite Hg in Hden. simpl in Hden.
      rewrite Hs in Hden. simpl in Hden.
      destruct (fd !! GLOBAL_CONF K); simpl in Hden; congruence. }
    rewrite Hfd. apply denotes_update; auto.
Qed.

End Resolution.

Section Resolution_steps.

Context (K : Consts) (E : Engine).

Lemma find_answers_file_ret (s s' : state (bundle E)) :
  find_answers_file K E s = Ret tt s' →
  s' = State (with_answers_file (resolved_answers_file K s) (self s))
         (hp s) (fsys s) (trace s).
Proof.
  unfold find_answers_file, resolved_answers_file, attr_app_path, bind,
    get_self, get_fs, set_answers_file, upd_self, ret, raise. simpl.
  destruct s as [m h f t]. simpl.
  destruct (str_truthy (answers_file m)); simpl.
  - intros [= <-]. destruct m; reflexivity.
  - destruct (app_path m) as [ap|]; simpl; [|discriminate].
    destruct (path_isfile f (Path.join ap (ANSWERS_FILE K))); simpl;
      intros [= <-]; [reflexivity|destruct m; reflexivity].
Qed.

Lemma loadAnswers_run (s : state (bundle E)) p fmt fd :
  Path.nonempty p = true → fsys s !! p = Some (NFile (Answers fmt fd)) →
  loadAnswers E p s =
    Ret (build_doc fd (hp s)).1
      (State (self s) (build_doc fd (hp s)).2 (fsys s)
         (EvLoadAnswers p :: trace s)).
Proof.
  intros Hp Hf. unfold loadAnswers, log, get_fs, heap_op, bind. simpl.
  rewrite Hf, Hp. simpl. destruct (build_doc fd (hp s)); reflexivity.
Qed.

Lemma loadAnswers_ret (s s' : state (bundle E)) p l :
  loadAnswers E p s = Ret l s' →
  Path.nonempty p = true ∧
  ∃ fmt fd, fsys s !! p = Some (NFile (Answers fmt fd)).
Proof.
  unfold loadAnswers, log, get_fs, heap_op, bind, raise. simpl.
  destruct (fsys s !! p) as [[|[fmt fd|]]|]; try discriminate.
  destruct (Path.nonempty p); [|discriminate]. eauto.
Qed.

Lemma load_answers_file_ret (s s' : state (bundle E)) :
  load_answers_file E s = Ret tt s' →
  match as_truthy (answers_file (self s)) with
  | Some p =>
      ∃ fmt fd, fsys s !! p = Some (NFile (Answers fmt fd)) ∧
        s' = State (with_answers (build_doc fd (hp s)).1 (self s))
               (build_doc fd (hp s)).2 (fsys s) (EvLoadAnswers p :: trace s)
  | None => s' = s
  end.
Proof.
  unfold load_answers_file. rewrite bind_unfold. simpl.
  destruct (answers_file (self s)) as [p|] eqn:Haf; simpl.
  - destruct (Path.nonempty p) eqn:Hp.
    + rewrite bind_unfold.
      destruct (loadAnswers E p s) as [l s1|] eqn:Hl; [|discriminate].
      destruct (loadAnswers_ret _ _ _ _ Hl) as (_ & fmt & fd & Hf).
      rewrite (loadAnswers_run _ _ _ _ Hp Hf) in Hl. injection Hl as <- <-.
      unfold set_answers, upd_self. simpl. intros [= <-].
      exists fmt, fd. split; [exact Hf|].
      unfold with_answers. rewrite Haf. reflexivity.
    + intros [= <-]. reflexivity.
  - intros [= <-]. reflexivity.
Qed.

(** What answer resolution has done when it returns.  With an answers
    file, [self.answers] is a new document that reads as the file's
    document with the command-line answers merged into its global section;
    without one, [self.answers] is the document as before, with the
    command-line answers merged into its global section. *)
Lemma process_answers_ret (s s' : state (bundle E)) :
  _process_answers K E s = Ret tt s' →
  answers_file (self s') = resolved_answers_file K s ∧
  fsys s' = fsys s ∧
  match as_truthy (resolved_answers_file K s) with
  | Some p =>
      ∃ fmt fd,
        fsys s !! p = Some (NFile (Answers fmt fd)) ∧
        docs (hp s) !! answers (self s') = None ∧
        snapshot (hp s') (answers (self s')) =
          Some (merge_cli (GLOBAL_CONF K) (cli_answers (self s)) fd) ∧
        (∀ k, lookup2 (hp s') (answers (self s')) (GLOBAL_CONF K) k =
              cli_over (cli_answers (self s)) k
                (flookup2 fd (GLOBAL_CONF K) k)) ∧
        trace s' = EvLoadAnswers p :: trace s
  | None =>
      answers (self s') = answers (self s) ∧
      (∀ k, lookup2 (hp s') (answers (self s)) (GLOBAL_CONF K) k =
            cli_over (cli_answers (self s)) k
              (lookup2 (hp s) (answers (self s)) (GLOBAL_CONF K) k)) ∧
      trace s' = trace s
  end.
Proof.
  unfold _process_answers. intros Hret.
  apply bind_ret_inv in Hret as ([] & s1 & Hfind & Hret).
  apply bind_ret_inv in Hret as ([] & s2 & Hload & Hmerge).
  apply find_answers_file_ret in Hfind. subst s1.
  apply load_answers_file_ret in Hload. simpl in Hload.
  apply merge_cli_answers_ret in Hmerge
    as (Hself & Hfs & Htr & Hdocs & Hlk & Hden).
  destruct (as_truthy (resolved_answers_file K s)) as [p|] eqn:Hp.
  - destruct Hload as (fmt & fd & Hf & ->). simpl in *.
    destruct (build_doc fd (hp s)) as [l h1] eqn:Hb. simpl in *.
    destruct (build_doc_spec _ _ _ _ Hb) as (Hfresh & Hext & d & Hl & Hd & Hun & _).
    rewrite Hself. simpl.
    split; [reflexivity|]. split; [exact Hfs|].
    exists fmt, fd. refine (conj Hf (conj Hfresh (conj _ (conj _ Htr)))).
    + eapply snapshot_denotes.
      * rewrite Hdocs. exact Hl.
      * apply Hden; assumption.
    + intros k. rewrite Hlk. f_equal. eapply lookup2_denotes; eauto.
  - subst s2. simpl in *. rewrite Hself. simpl.
    split; [reflexivity|]. split; [exact Hfs|].
    split; [reflexivity|]. split; [exact Hlk|exact Htr].
Qed.

End Resolution_steps.


(** ** Construction *)

Lemma path_exists_nonempty (f : fs) p :
  path_exists f p = true → Path.nonempty p = true.
Proof. unfold path_exists. intros H. apply andb_true_iff in H as [H _]. exact H. Qed.

Section Construction.

Context (K : Consts) (U : Env) (E : Engine).

Lemma init_location_ret src d0 (s s' : state (bundle E)) :
  app_path (self s) = None → image (self s) = None →
  init_location K U E src d0 s = Ret tt s' →
  let dst := if is_none_sentinel d0
             then Some (mkdtemp_name U (fsys s) "atomicapp") else d0 in
  let f1 := if is_none_sentinel d0
            then <[mkdtemp_name U (fsys s) "atomicapp" := NDir]> (fsys s)
            else fsys s in
  located U src dst f1 (self s') (fsys s') ∧
  hp s' = hp s ∧ answers (self s') = answers (self s) ∧
  cli_answers (self s') = cli_answers (self s) ∧
  answers_file (self s') = answers_file (self s).
Proof.
  intros Hap Him. destruct s as [[a c af0 afl ap im mf nu] h f t].
  simpl in Hap, Him. subst ap im.
  unfold init_location, located, mkdtemp, copy_dir_call, attr_app_path,
    set_image, set_app_path, set_main_file, upd_self, get_self, get_fs,
    put_fs, log, bind, ret, raise.
  simpl.
  destruct (is_none_sentinel d0); simpl.
  - set (f1 := <[mkdtemp_name U f "atomicapp" := NDir]> f).
    set (d := mkdtemp_name U f "atomicapp").
    destruct (path_exists f1 src) eqn:Hex; simpl.
    + rewrite (path_exists_nonempty _ _ Hex). simpl.
      destruct (Path.nonempty d) eqn:Hd; simpl.
      * destruct (copy_dir U f1 src d true) as [f2|] eqn:Hc; simpl;
          [|discriminate].
        intros [= <-]. simpl. auto 10.
      * intros [= <-]. simpl. auto 10.
    + destruct (Path.nonempty src) eqn:Hs; simpl; [|discriminate].
      destruct (Path.nonempty d) eqn:Hd; simpl; intros [= <-]; simpl; auto 10.
  - destruct (path_exists f src) eqn:Hex; simpl.
    + rewrite (path_exists_nonempty _ _ Hex). simpl.
      destruct (as_truthy d0) as [d|] eqn:Hd; simpl.
      * destruct (copy_dir U f src d true) as [f2|] eqn:Hc; simpl;
          [|discriminate].
        intros [= <-]. simpl. auto 10.
      * intros [= <-]. simpl. auto 10.
    + destruct (Path.nonempty src) eqn:Hs; simpl; [|discriminate].
      destruct (as_truthy d0) as [d|] eqn:Hd; simpl; intros [= <-]; simpl;
        auto 10.
Qed.

Lemma init_answers_effect af :
  preserves (effect any_event same_location false true)
    (init_answers K U E af).
Proof. unfold init_answers. pres. Qed.

End Construction.


(** ** Runtime answers *)

Lemma copy_items_docs items : ∀ memo h d memo' h',
  copy_items items memo h = Some (d, memo', h') → docs h' = docs h.
Proof.
  induction items as [|[k e] rest IH]; intros memo h d memo' h' Hc;
    cbn [copy_items] in Hc.
  - injection Hc as <- <- <-. reflexivity.
  - destruct (copy_items rest memo h) as [[[d1 memo1] h1]|] eqn:Hr;
      [|discriminate].
    specialize (IH _ _ _ _ _ Hr).
    destruct e as [v|ls].
    + injection Hc as <- <- <-. exact IH.
    + destruct (memo1 !! ls) as [ls'|].
      * injection Hc as <- <- <-. exact IH.
      * destruct (secs h1 !! ls) as [s|]; [|discriminate].
        destruct (alloc_sec s h1) as [ls' h2] eqn:Ha.
        injection Hc as <- <- <-.
        apply alloc_sec_spec in Ha as [_ ->]. exact IH.
Qed.

Lemma deepcopy_doc_spec l h l' h' :
  deepcopy_doc l h = Some (l', h') →
  docs h !! l' = None ∧
  ∃ d', docs h' = <[l' := d']> (docs h).
Proof.
  unfold deepcopy_doc. destruct (docs h !! l) as [d|]; [|discriminate].
  destruct (copy_items (map_to_list d) ∅ h) as [[[d' memo] h1]|] eqn:Hc;
    [|discriminate].
  intros Ha. apply copy_items_docs in Hc.
  destruct (alloc_doc d' h1) as [l0 h0] eqn:Hd. injection Ha as -> ->.
  apply alloc_doc_spec in Hd as [Hfresh ->]. simpl.
  rewrite Hc in *. eauto.
Qed.

Lemma setitem2_ret {B} (s s' : state B) l sec k v :
  setitem2 l sec k v s = Ret tt s' →
  ∃ d ls s0, docs (hp s) !! l = Some d ∧ d !! sec = Some (ESec ls) ∧
             secs (hp s) !! ls = Some s0 ∧
             s' = State (self s) (set_section (hp s) ls (<[k := v]> s0))
                    (fsys s) (trace s).
Proof.
  unfold setitem2, getitem, entry_set, heap_read, heap_op, bind, ret, raise.
  simpl.
  destruct (docs (hp s) !! l) as [d|]; [|discriminate].
  destruct (d !! sec) as [[x|ls]|] eqn:Hg; [discriminate| |discriminate].
  simpl. destruct (secs (hp s) !! ls) as [s0|] eqn:Hs; [|discriminate].
  intros [= <-]. exists d, ls, s0. auto.
Qed.

Section Runtime_answers.

Context (K : Consts) (E : Engine).

(** What [_get_runtime_answers] returns, read through the store it
    leaves: a new document whose global section holds a namespace and,
    when a provider is given, that provider. *)
Lemma get_runtime_answers_ret config cli_provider (s s' : state (bundle E)) l :
  _get_runtime_answers K E config cli_provider s = Ret l s' →
  self s' = self s ∧ fsys s' = fsys s ∧ trace s' = trace s ∧
  docs (hp s) !! l = None ∧
  (∃ ns, lookup2 (hp s') l (GLOBAL_CONF K) (NAMESPACE_KEY K) = Some ns) ∧
  (∀ p, cli_provider = Some p → Path.nonempty p = true →
        lookup2 (hp s') l (GLOBAL_CONF K) (PROVIDER_KEY K) = Some (SStr p)).
Proof.
  intros Hret.
  pose proof (get_runtime_answers_effect K E config cli_provider s) as Heff.
  rewrite Hret in Heff. simpl in Heff.
  destruct Heff as (Hself & _ & Hfs & new & Htr & Hnew).
  assert (new = []) as ->.
  { destruct new as [|ev new]; [reflexivity|]. inversion Hnew as [|? ? []]. }
  split; [symmetry; exact Hself|]. split; [auto|]. split; [exact Htr|].
  clear Hself Hfs Htr Hnew.
  unfold _get_runtime_answers in Hret.
  apply bind_ret_inv in Hret as (l' & s1 & Hcopy & Hret).
  unfold deepcopy in Hcopy.
  destruct (deepcopy_doc config (hp s)) as [[l0 h1]|] eqn:Hdc; [|discriminate].
  injection Hcopy as -> <-.
  destruct (deepcopy_doc_spec _ _ _ _ Hdc) as (Hfresh & d' & Hdocs).
  apply bind_ret_inv in Hret as (g & s2 & Hget & Hret).
  apply bind_ret_inv in Hret as (g' & s3 & Hg' & Hret).
  apply bind_ret_inv in Hret as ([] & s4 & Hset & Hret).
  apply bind_ret_inv in Hret as (sec & s5 & Hsec & Hret).
  apply bind_ret_inv in Hret as (ns & s6 & Hns & Hret).
  apply bind_ret_inv in Hret as ([] & s7 & Hsetns & Hret).
  apply bind_ret_inv in Hret as ([] & s8 & Hprov & Hret).
  injection Hret as <- <-.
  clear Hget Hg' Hset Hsec Hns.
  split; [exact Hfresh|].
  apply setitem2_ret in Hsetns as (d & ls & s0 & Hd & Hg & Hs & ->).
  set (nsv := match ns with
              | Some v => if truthy v then v else SStr (DEFAULT_NAMESPACE K)
              | None => SStr (DEFAULT_NAMESPACE K)
              end) in *.
  assert (Hlk : ∀ k, lookup2 (set_section (hp s6) ls (<[NAMESPACE_KEY K := nsv]> s0))
                       l' (GLOBAL_CONF K) k = <[NAMESPACE_KEY K := nsv]> s0 !! k).
  { intros k. eapply lookup2_set_section; eauto. }
  destruct cli_provider as [p|].
  - destruct (Path.nonempty p) eqn:Hp.
    + apply setitem2_ret in Hprov as (d2 & ls2 & s02 & Hd2 & Hg2 & Hs2 & ->).
      simpl in *. rewrite Hd in Hd2. injection Hd2 as <-.
      rewrite Hg in Hg2. injection Hg2 as <-.
      rewrite lookup_insert_eq in Hs2. injection Hs2 as <-.
      assert (Hlk2 : ∀ k,
                lookup2 (set_section (set_section (hp s6) ls
                                        (<[NAMESPACE_KEY K := nsv]> s0)) ls
                           (<[PROVIDER_KEY K := SStr p]>
                              (<[NAMESPACE_KEY K := nsv]> s0)))
                  l' (GLOBAL_CONF K) k =
                <[PROVIDER_KEY K := SStr p]> (<[NAMESPACE_KEY K := nsv]> s0) !! k).
      { intros k. eapply lookup2_set_section; simpl; eauto. }
      split.
      * rewrite Hlk2.
        destruct (decide (PROVIDER_KEY K = NAMESPACE_KEY K)) as [->|Hne].
        -- rewrite lookup_insert_eq. eauto.
        -- rewrite lookup_insert_ne by exact Hne. rewrite lookup_insert_eq. eauto.
      * intros p' [= <-] _. rewrite Hlk2. apply lookup_insert_eq.
    + injection Hprov as <-. simpl. split.
      * rewrite Hlk, lookup_insert_eq. eauto.
      * intros p' [= <-] Hp'. congruence.
  - injection Hprov as <-. simpl. split.
    + rewrite Hlk, lookup_insert_eq. eauto.
    + intros p' Hp'. discriminate.
Qed.

End Runtime_answers.


(** ** Running *)

(** One step of a method that returned: the step's own outcome, and the
    relation [R] carried from the start to the state after the step. *)
Ltac step_with R H Hr :=
  match type of H with
  | bind ?m ?k ?s = Ret _ _ =>
      let Hp := fresh "Hp" in
      assert (Hp : preserves R m) by pres;
      let a := fresh "a" in
      let s1 := fresh "s" in
      let Hm := fresh "Hm" in
      apply bind_ret_inv in H as (a & s1 & Hm & H);
      specialize (Hp s); rewrite Hm in Hp; cbn [final] in Hp;
      let Hr' := fresh "Hr" in
      assert (Hr' : R _ s1) by (etransitivity; [exact Hr | exact Hp]);
      clear Hp; clear Hr; rename Hr' into Hr
  end.

Section Running.

Context (K : Consts) (U : Env) (E : Engine).

Lemma write_answers_ret path l fmt (s s' : state (bundle E)) :
  _write_answers U E path l fmt s = Ret tt s' →
  ∃ d, snapshot (hp s) l = Some d ∧
       s' = State (self s) (hp s) (<[path := NFile (Answers fmt d)]> (fsys s))
              (EvSerialize path fmt d :: trace s).
Proof.
  unfold _write_answers, heap_read, log, get_fs, put_fs, bind, raise. simpl.
  destruct (snapshot (hp s) l) as [d|]; [|discriminate]. simpl.
  destruct (can_write U (fsys s) path fmt); [|discriminate].
  intros [= <-]. eauto.
Qed.

(** [run] that returns has written the runtime answers file in the
    application directory, whatever [dryrun] is. *)
Lemma run_ret cli_provider out ask fmt dryrun (s s' : state (bundle E)) ap :
  app_path (self s) = Some ap →
  run K U E cli_provider out ask fmt dryrun s = Ret tt s' →
  ∃ d,
    fsys s' !! Path.join ap (ANSWERS_RUNTIME_FILE K) =
      Some (NFile (Answers
              (Some (or_str fmt (ANSWERS_FILE_SAMPLE_FORMAT K))) d)) ∧
    In (EvSerialize (Path.join ap (ANSWERS_RUNTIME_FILE K))
          (Some (or_str fmt (ANSWERS_FILE_SAMPLE_FORMAT K))) d) (trace s') ∧
    app_path (self s') = Some ap ∧
    cli_answers (self s') = cli_answers (self s) ∧
    (∃ ns, flookup2 d (GLOBAL_CONF K) (NAMESPACE_KEY K) = Some ns) ∧
    (∀ p, cli_provider = Some p → Path.nonempty p = true →
          flookup2 d (GLOBAL_CONF K) (PROVIDER_KEY K) = Some (SStr p)).
Proof.
  intros Hap Hrun. unfold run in Hrun.
  apply bind_ret_inv in Hrun as ([] & s1 & Hfmt & Hrun).
  unfold set_answers_format, upd_self in Hfmt. injection Hfmt as <-.
  set (s1 := State _ (hp s) (fsys s) (trace s)) in Hrun.
  set (R := effect (B := bundle E) any_event same_location_format false false).
  assert (Hr : R s1 s1) by reflexivity.
  do 18 step_with R Hrun Hr.
  clear Hm Hm0 Hm1 Hm2 Hm3 Hm4 Hm5 Hm6 Hm7 Hm8 Hm9 Hm10 Hm11 Hm12 Hm13.
  apply get_runtime_answers_ret in Hm14 as (_ & _ & _ & _ & Hns & Hprov).
  unfold attr_app_path, bind, get_self, ret, raise in Hm15. simpl in Hm15.
  destruct (app_path (self s16)) as [ap'|] eqn:Hap'; [|discriminate].
  injection Hm15 as <- <-. unfold get_self in Hm16. injection Hm16 as <- <-.
  destruct Hr as (((Hcli & Hpath & _) & Hformat) & _ & _ & _).
  simpl in Hcli, Hpath, Hformat.
  rewrite Hpath, Hap in Hap'. injection Hap' as <-. rewrite Hformat in Hrun.
  apply bind_ret_inv in Hrun as ([] & s19 & Hw & Hrun).
  apply write_answers_ret in Hw as (d & Hd & ->).
  assert (Hread : ∀ k, flookup2 d (GLOBAL_CONF K) k =
                       lookup2 (hp s16) a14 (GLOBAL_CONF K) k).
  { intros k. symmetry. apply lookup2_snapshot. exact Hd. }
  assert (Hnsd : ∃ ns, flookup2 d (GLOBAL_CONF K) (NAMESPACE_KEY K) = Some ns).
  { rewrite Hread. exact Hns. }
  assert (Hprovd : ∀ p, cli_provider = Some p → Path.nonempty p = true →
            flookup2 d (GLOBAL_CONF K) (PROVIDER_KEY K) = Some (SStr p)).
  { intros p H1 H2. rewrite Hread. auto. }
  exists d. destruct out as [o|]; simpl in Hrun.
  - destruct (Path.nonempty o).
    + rewrite bind_unfold in Hrun. simpl in Hrun.
      apply write_answers_ret in Hrun as (d' & Hd' & ->). simpl in *.
      rewrite Hformat in *. rewrite Hd in Hd'. injection Hd' as <-.
      refine (conj _ (conj _ (conj _ (conj _ (conj Hnsd Hprovd))))); auto.
      * destruct (decide (o = Path.join ap (ANSWERS_RUNTIME_FILE K))) as [->|Hne].
        -- apply lookup_insert_eq.
        -- rewrite lookup_insert_ne by exact Hne. apply lookup_insert_eq.
      * rewrite Hpath. exact Hap.
    + injection Hrun as <-. simpl.
      refine (conj _ (conj _ (conj _ (conj _ (conj Hnsd Hprovd))))); auto.
      * apply lookup_insert_eq.
      * rewrite Hpath. exact Hap.
  - injection Hrun as <-. simpl.
    refine (conj _ (conj _ (conj _ (conj _ (conj Hnsd Hprovd))))); auto.
    + apply lookup_insert_eq.
    + rewrite Hpath. exact Hap.
Qed.

End Running.


(** ** With an answers file already known *)

#[global] Instance keeps_resolution_preorder {B} :
  PreOrder (@keeps_resolution B).
Proof.
  split.
  - intros m. unfold keeps_resolution. split; [|split]; reflexivity.
  - intros a b c (H1 & H2 & H3) (H4 & H5 & H6).
    split; [congruence|]. split; [congruence|]. etransitivity; eauto.
Qed.

#[global] Instance keeps_answers_file_preorder {B} :
  PreOrder (@keeps_answers_file B).
Proof.
  split.
  - intros m. split; reflexivity.
  - intros a b c (H1 & H2) (H3 & H4).
    split; [congruence|]. etransitivity; eauto.
Qed.

Lemma effect_weaken {B} (P P' : event → Prop) (Q Q' : relation (manager B))
    (kh kf kh' kf' : bool) (s s' : state B) :
  (∀ ev, P ev → P' ev) →
  (∀ x y, Q x y → Q' x y) →
  (kh' = true → kh = true) →
  (kf' = true → kf = true) →
  effect P Q kh kf s s' → effect P' Q' kh' kf' s s'.
Proof.
  intros HP HQ Hh Hf (Hq & Hhp & Hfs & new & Ht & Hn).
  unfold effect. repeat split; auto.
  exists new. split; [exact Ht|]. eapply Forall_impl; eauto.
Qed.

Lemma final_step {B A C} (R : relation (state B)) `{!PreOrder R}
    (s0 s : state B) (m : M B A) (k : A → M B C) :
  R s0 s → preserves R m →
  (∀ a s1, m s = Ret a s1 → R s0 s1 → R s0 (final (k a s1))) →
  R s0 (final (bind m k s)).
Proof.
  intros Hr Hm Hk. rewrite final_bind. specialize (Hm s).
  destruct (m s) as [a s1|e s1] eqn:Hms; simpl in Hm.
  - apply Hk; [reflexivity|]. etransitivity; eauto.
  - etransitivity; eauto.
Qed.

(** One step of a method, whatever its outcome. *)
Ltac final_step_with R Hr :=
  let a := fresh "a" in
  let s1 := fresh "s" in
  let Hm := fresh "Hm" in
  let Hr' := fresh "Hr" in
  eapply (final_step R); [ exact Hr | solve [pres] | intros a s1 Hm Hr' ];
  clear Hr; rename Hr' into Hr; cbv beta.

Section Known_answers_file.

Context (K : Consts) (U : Env) (E : Engine).

Lemma find_answers_file_known (s : state (bundle E)) :
  str_truthy (answers_file (self s)) = true →
  find_answers_file K E s = Ret tt s.
Proof.
  intros Ht. unfold find_answers_file. rewrite bind_unfold. simpl.
  rewrite Ht. reflexivity.
Qed.

Lemma load_and_merge_effect :
  preserves (effect is_load keeps_answers_file false true)
    (load_answers_file E ;;; merge_cli_answers K E).
Proof. pres. Qed.

(** With an answers file known, answer resolution does not look for
    another one. *)
Lemma process_answers_known (s : state (bundle E)) :
  str_truthy (answers_file (self s)) = true →
  effect is_load keeps_answers_file false true s
    (final (_process_answers K E s)).
Proof.
  intros Ht. unfold _process_answers. rewrite final_bind.
  rewrite (find_answers_file_known _ Ht). apply load_and_merge_effect.
Qed.

Lemma unpack_keeps update dryrun nodeps config :
  preserves (effect not_load keeps_resolution false false)
    (unpack E update dryrun nodeps config).
Proof. unfold unpack. pres. Qed.

Lemma install_keeps nodeps update dryrun fmt :
  preserves (effect not_load keeps_resolution false false)
    (install K U E nodeps update dryrun fmt).
Proof. unfold install. pres. Qed.

Lemma genanswers_keeps dryrun fmt :
  preserves (effect not_load keeps_resolution false false)
    (genanswers K U E dryrun fmt).
Proof. unfold genanswers. pres. Qed.

(** With an answers file known, [run] resolves no answers: it calls
    [Utils.loadAnswers] for nothing and keeps [self.answers]. *)
Lemma run_keeps cli_provider out ask fmt dryrun (s : state (bundle E)) :
  str_truthy (answers_file (self s)) = true →
  effect not_load keeps_resolution false false s
    (final (run K U E cli_provider out ask fmt dryrun s)).
Proof.
  intros Ht. unfold run.
  set (R := effect (B := bundle E) not_load keeps_resolution false false).
  assert (Hr : R s s) by reflexivity.
  do 5 final_step_with R Hr.
  unfold get_self in Hm3. injection Hm3 as <- <-.
  assert (Ht' : str_truthy (answers_file (self s3)) = true).
  { destruct Hr as ((_ & Haf & _) & _). rewrite Haf. exact Ht. }
  rewrite Ht'. simpl.
  etransitivity; [exact Hr|].
  match goal with
  | |- R ?x (final (?m ?x)) =>
      let Hp := fresh in assert (Hp : preserves R m) by pres; apply Hp
  end.
Qed.

(** [stop] leaves [self.answers_file] at the runtime answers file of the
    application directory, whether it returns or raises, and calls the
    image-unpack entry point for nothing. *)
Lemma stop_final cli_provider dryrun (s : state (bundle E)) ap :
  app_path (self s) = Some ap →
  Path.nonempty (Path.join ap (ANSWERS_RUNTIME_FILE K)) = true →
  effect not_unpack keeps_answers_file false false
    (State (with_answers_file
              (Some (Path.join ap (ANSWERS_RUNTIME_FILE K))) (self s))
       (hp s) (fsys s) (trace s))
    (final (stop K E cli_provider dryrun s)).
Proof.
  intros Hap Hne. unfold stop.
  rewrite final_bind.
  assert (Hattr : attr_app_path s = Ret ap s).
  { unfold attr_app_path. rewrite bind_unfold. simpl. rewrite Hap. reflexivity. }
  rewrite Hattr. rewrite final_bind. simpl.
  set (s1 := State _ (hp s) (fsys s) (trace s)).
  set (R := effect (B := bundle E) not_unpack keeps_answers_file false false).
  assert (Hpa : R s1 (final (_process_answers K E s1))).
  { eapply effect_weaken; [| | | |apply process_answers_known; exact Hne].
    - intros [] Hev; simpl in *; solve [exact I|contradiction].
    - auto.
    - auto.
    - discriminate. }
  rewrite final_bind.
  destruct (_process_answers K E s1) as [[] s2|e s2]; simpl in Hpa;
    [|exact Hpa].
  etransitivity; [exact Hpa|].
  match goal with
  | |- R ?x (final (?m ?x)) =>
      let Hp := fresh in assert (Hp : preserves R m) by pres; apply Hp
  end.
Qed.

End Known_answers_file.


(** ** Platform overrides *)

Section Platform.

Context (K : Consts) (U : Env) (E : Engine).

Lemma environ_get_ret k v (s s' : state (bundle E)) :
  environ_get U E k s = Ret v s' → environ U !! k = Some v ∧ s' = s.
Proof.
  unfold environ_get. destruct (environ U !! k) as [x|]; [|discriminate].
  intros [= <- <-]. auto.
Qed.

(** What the platform overrides have done when they return. *)
Lemma openshift_overrides_ret (s s' : state (bundle E)) :
  openshift_overrides K U E s = Ret tt s' →
  self s' = self s ∧ fsys s' = fsys s ∧ trace s' = trace s ∧
  if running_on_openshift U then
    ∃ tok ns api,
      environ U !! "TOKEN_ENV_VAR" = Some tok ∧
      environ U !! "POD_NAMESPACE" = Some ns ∧
      get_openshift_api_endpoint_from_env U = Some api ∧
      ∀ k, lookup2 (hp s') (answers (self s)) (GLOBAL_CONF K) k =
           platform_over tok ns api k
             (lookup2 (hp s) (answers (self s)) (GLOBAL_CONF K) k)
  else hp s' = hp s.
Proof.
  unfold openshift_overrides. destruct (running_on_openshift U).
  2:{ intros [= <-]. auto. }
  intros Hret. rewrite bind_unfold in Hret. simpl in Hret.
  apply bind_ret_inv in Hret as ([] & s1 & H1 & Hret).
  apply bind_ret_inv in Hret as (tok & s2 & Htok & Hret).
  apply bind_ret_inv in Hret as ([] & s3 & H2 & Hret).
  apply bind_ret_inv in Hret as (ns & s4 & Hns & Hret).
  apply bind_ret_inv in Hret as ([] & s5 & H3 & Hret).
  apply bind_ret_inv in Hret as (api & s6 & Hapi & Hret).
  apply environ_get_ret in Htok as [Htok ->].
  apply environ_get_ret in Hns as [Hns ->].
  destruct (get_openshift_api_endpoint_from_env U) as [api'|] eqn:Hep;
    [|discriminate].
  injection Hapi as <- <-.
  apply setitem2_ret in H1 as (d & ls & s0 & Hd & Hg & Hs & ->).
  apply setitem2_ret in H2 as (d2 & ls2 & s02 & Hd2 & Hg2 & Hs2 & ->).
  simpl in Hd2, Hs2. rewrite Hd in Hd2. injection Hd2 as <-.
  rewrite Hg in Hg2. injection Hg2 as <-.
  rewrite lookup_insert_eq in Hs2. injection Hs2 as <-.
  apply setitem2_ret in H3 as (d3 & ls3 & s03 & Hd3 & Hg3 & Hs3 & ->).
  simpl in Hd3, Hs3. rewrite Hd in Hd3. injection Hd3 as <-.
  rewrite Hg in Hg3. injection Hg3 as <-.
  rewrite lookup_insert_eq in Hs3. injection Hs3 as <-.
  apply setitem2_ret in Hret as (d4 & ls4 & s04 & Hd4 & Hg4 & Hs4 & ->).
  simpl in Hd4, Hs4. rewrite Hd in Hd4. injection Hd4 as <-.
  rewrite Hg in Hg4. injection Hg4 as <-.
  rewrite lookup_insert_eq in Hs4. injection Hs4 as <-.
  simpl. refine (conj eq_refl (conj eq_refl (conj eq_refl _))).
  exists tok, ns, api'. refine (conj Htok (conj Hns (conj eq_refl _))).
  intros k. erewrite lookup2_set_section by (simpl; eauto).
  unfold platform_over, lookup2. rewrite Hd, Hg, Hs.
  repeat case_decide; subst;
    repeat first [ rewrite lookup_insert_eq
                 | rewrite lookup_insert_ne by congruence ];
    reflexivity.
Qed.

End Platform.


(** ** The constructor, forwards *)

Lemma as_truthy_Some o p :
  as_truthy o = Some p → o = Some p ∧ Path.nonempty p = true.
Proof.
  unfold as_truthy. destruct o as [q|]; [|discriminate].
  destruct (Path.nonempty q) eqn:Hq; [|discriminate].
  intros [= <-]. auto.
Qed.

Lemma as_truthy_None o : as_truthy o = None → str_truthy o = false.
Proof.
  unfold as_truthy, str_truthy. destruct o as [q|]; [|reflexivity].
  destruct (Path.nonempty q); [discriminate|reflexivity].
Qed.

Lemma str_truthy_as_truthy o : str_truthy o = false → as_truthy o = None.
Proof.
  unfold as_truthy, str_truthy. destruct o as [q|]; [|reflexivity].
  intros ->. reflexivity.
Qed.

Lemma path_isfile_nonempty (f : fs) p :
  path_isfile f p = true → Path.nonempty p = true.
Proof. unfold path_isfile. intros H. apply andb_true_iff in H as [H _]. exact H. Qed.

Lemma reroot_opt_Some root p : reroot_opt root (Some p) = Some (reroot root p).
Proof.
  unfold reroot_opt, reroot. destruct (Path.isabs p) eqn:Habs.
  - destruct p; [discriminate|]. reflexivity.
  - rewrite andb_false_r. reflexivity.
Qed.

Lemma attr_app_path_ret {B} (s s' : state B) ap :
  attr_app_path s = Ret ap s' → app_path (self s) = Some ap ∧ s' = s.
Proof.
  unfold attr_app_path, bind, get_self, ret, raise. simpl.
  destruct (app_path (self s)) as [p|]; [|discriminate].
  intros [= <- <-]. auto.
Qed.

Section Constructor_forwards.

Context (K : Consts) (U : Env) (E : Engine).

(** The location part of the constructor, run forwards: it returns
    exactly when [location_of] has a value, and then the state it leaves
    is this one. *)
Lemma init_location_run src d0 (s : state (bundle E)) :
  app_path (self s) = None → image (self s) = None →
  let dst := if is_none_sentinel d0
             then Some (mkdtemp_name U (fsys s) "atomicapp") else d0 in
  let f1 := if is_none_sentinel d0
            then <[mkdtemp_name U (fsys s) "atomicapp" := NDir]> (fsys s)
            else fsys s in
  match location_of U src dst f1 with
  | Some (img, ap, f') =>
      init_location K U E src d0 s =
        Ret tt
          (State (Manager (answers (self s)) (cli_answers (self s))
                    (answers_format (self s)) (answers_file (self s))
                    (Some ap) img (Some (Path.join ap (MAIN_FILE K)))
                    (nulecule (self s)))
             (hp s) f' (location_events src d0 dst f1 ++ trace s))
  | None => ∃ e s', init_location K U E src d0 s = Raise e s'
  end.
Proof.
  intros Hap Him. destruct s as [[a c af0 afl ap im mf nu] h f t].
  simpl in Hap, Him. subst ap im.
  unfold init_location, location_of, location_events, mkdtemp, copy_dir_call,
    attr_app_path, set_image, set_app_path, set_main_file, upd_self,
    get_self, get_fs, put_fs, log, bind, ret, raise.
  simpl.
  destruct (is_none_sentinel d0); simpl.
  - set (f1 := <[mkdtemp_name U f "atomicapp" := NDir]> f).
    set (d := mkdtemp_name U f "atomicapp").
    destruct (path_exists f1 src) eqn:Hex; simpl.
    + rewrite (path_exists_nonempty _ _ Hex). simpl.
      destruct (Path.nonempty d) eqn:Hd; simpl.
      * destruct (copy_dir U f1 src d true) as [f2|] eqn:Hc; simpl; eauto.
      * reflexivity.
    + destruct (Path.nonempty src) eqn:Hs; simpl; [|eauto].
      destruct (Path.nonempty d) eqn:Hd; simpl; reflexivity.
  - destruct (path_exists f src) eqn:Hex; simpl.
    + rewrite (path_exists_nonempty _ _ Hex). simpl.
      destruct (as_truthy d0) as [d|] eqn:Hd; simpl.
      * destruct (copy_dir U f src d true) as [f2|] eqn:Hc; simpl; eauto.
      * reflexivity.
    + destruct (Path.nonempty src) eqn:Hs; simpl; [|eauto].
      destruct (as_truthy d0) as [d|] eqn:Hd; simpl; reflexivity.
Qed.

(** Without an answers file, given or conventional, the first two steps
    of answer resolution change nothing. *)
Lemma find_and_load_nothing (s : state (bundle E)) ap :
  as_truthy (answers_file (self s)) = None →
  app_path (self s) = Some ap →
  path_isfile (fsys s) (Path.join ap (ANSWERS_FILE K)) = false →
  (find_answers_file K E ;;; load_answers_file E) s = Ret tt s.
Proof.
  intros Haf Hap Hfile. pose proof (as_truthy_None _ Haf) as Ht.
  destruct s as [m h f t]. simpl in *.
  unfold find_answers_file, load_answers_file, attr_app_path, bind, get_self,
    get_fs, set_answers_file, upd_self, ret, raise. simpl.
  rewrite Ht. simpl. rewrite Hap. simpl. rewrite Hfile. simpl.
  destruct (answers_file m) as [q|]; [|reflexivity].
  simpl in Ht. rewrite Ht. reflexivity.
Qed.

Lemma process_answers_assoc (s : state (bundle E)) :
  _process_answers K E s =
    ((find_answers_file K E ;;; load_answers_file E) ;;;
     merge_cli_answers K E) s.
Proof.
  unfold _process_answers, bind.
  destruct (find_answers_file K E s) as [[] s1|e s1]; [|reflexivity].
  destruct (load_answers_file E s1) as [[] s2|e s2]; reflexivity.
Qed.

(** Merging the command-line answers returns on a document they can be
    merged into. *)
Lemma merge_cli_answers_returns (s : state (bundle E)) d fd :
  docs (hp s) !! answers (self s) = Some d → denotes (hp s) d fd →
  mergeable K (cli_answers (self s)) fd →
  ∃ h', merge_cli_answers K E s = Ret tt (State (self s) h' (fsys s) (trace s)).
Proof.
  intros Hd Hden Hm. unfold mergeable in Hm.
  destruct (cli_answers (self s)) as [c|] eqn:Hc.
  - destruct Hm as [->|[sec Hsec]].
    + unfold merge_cli_answers. rewrite bind_unfold. simpl. rewrite Hc.
      rewrite bool_decide_eq_true_2 by reflexivity. simpl.
      exists (hp s). destruct s; reflexivity.
    + specialize (Hden (GLOBAL_CONF K)). rewrite Hsec in Hden. simpl in Hden.
      destruct (d !! GLOBAL_CONF K) as [[v|ls]|] eqn:Hg; simpl in Hden;
        try discriminate.
      destruct (secs (hp s) !! ls) as [s0|] eqn:Hs; simpl in Hden;
        [|discriminate].
      erewrite merge_cli_answers_run; eauto.
  - rewrite merge_cli_answers_none by exact Hc.
    exists (hp s). destruct s; reflexivity.
Qed.

(** The answers part of the constructor when there is nothing to load
    and no platform to detect: it returns, and only the store may have
    changed. *)
Lemma init_answers_nothing af (s : state (bundle E)) ap d fd :
  running_on_openshift U = false →
  as_truthy af = None →
  as_truthy (answers_file (self s)) = None →
  app_path (self s) = Some ap →
  path_isfile (fsys s) (Path.join ap (ANSWERS_FILE K)) = false →
  docs (hp s) !! answers (self s) = Some d → denotes (hp s) d fd →
  mergeable K (cli_answers (self s)) fd →
  ∃ h', init_answers K U E af s =
          Ret tt (State (self s) h' (fsys s) (trace s)).
Proof.
  intros Hplain Haf Hnone Hap Hfile Hd Hden Hm.
  destruct (merge_cli_answers_returns s d fd Hd Hden Hm) as [h' Hmerge].
  exists h'. unfold init_answers. rewrite Haf.
  rewrite bind_unfold. simpl. rewrite bind_unfold.
  rewrite process_answers_assoc, bind_unfold.
  rewrite (find_and_load_nothing s ap Hnone Hap Hfile). rewrite Hmerge.
  unfold openshift_overrides. rewrite Hplain. reflexivity.
Qed.

End Constructor_forwards.

Section Constructor_backwards.

Context (K : Consts) (U : Env) (E : Engine).

(** The first statement of the answers part of the constructor. *)
Lemma init_answers_file_ret af (s s1 : state (bundle E)) :
  match as_truthy af with
  | Some p =>
      let* f := get_fs in
      if negb (path_isfile f p)
      then raise (NuleculeException ("Answers file doesn't exist: " ++ p))
      else set_answers_file (Some p)
  | None => ret tt
  end s = Ret tt s1 →
  match as_truthy af with
  | Some p =>
      path_isfile (fsys s) p = true ∧
      s1 = State (with_answers_file (Some p) (self s)) (hp s) (fsys s) (trace s)
  | None => s1 = s
  end.
Proof.
  destruct (as_truthy af) as [p|].
  - rewrite bind_unfold. simpl.
    destruct (path_isfile (fsys s) p); simpl; [|discriminate].
    intros [= <-]. auto.
  - intros [= <-]. reflexivity.
Qed.

(** A constructor that returns, taken apart: the location it settled
    on, and the answers file it was given. *)
Lemma init_returns_inv app_spec destination cli af h f tr
    (s' : state (bundle E)) :
  __init__ K U E app_spec destination cli af h f tr = Ret tt s' →
  ∃ img ap f',
    location_of U (reroot (getRoot U) app_spec)
      (effective_destination U f destination).1
      (effective_destination U f destination).2 = Some (img, ap, f') ∧
    image (self s') = img ∧ app_path (self s') = Some ap ∧ fsys s' = f' ∧
    (∀ ev, In ev (location_events (reroot (getRoot U) app_spec)
                    (reroot_opt (getRoot U) destination)
                    (effective_destination U f destination).1
                    (effective_destination U f destination).2) →
           In ev (trace s')) ∧
    match as_truthy (reroot_opt (getRoot U) af) with
    | Some p =>
        answers_file (self s') = Some p ∧ path_isfile f' p = true ∧
        In (EvLoadAnswers p) (trace s')
    | None => True
    end.
Proof.
  unfold __init__, init_body. intros Hinit.
  destruct (build_doc (DEFAULT_ANSWERS K) h) as [l h1] eqn:Hb.
  apply bind_ret_inv in Hinit as ([] & s1 & Hloc & Hans).
  pose proof (init_location_run K U E (reroot (getRoot U) app_spec)
                (reroot_opt (getRoot U) destination)
                (State (Manager l cli None None None None None None) h1 f tr)
                eq_refl eq_refl) as Hrun.
  cbv zeta in Hrun. cbn [fsys self hp trace] in Hrun.
  assert (Hdst : (effective_destination U f destination).1 =
                 (if is_none_sentinel (reroot_opt (getRoot U) destination)
                  then Some (mkdtemp_name U f "atomicapp")
                  else reroot_opt (getRoot U) destination)).
  { unfold effective_destination.
    destruct (is_none_sentinel (reroot_opt (getRoot U) destination));
      reflexivity. }
  assert (Hf1 : (effective_destination U f destination).2 =
                (if is_none_sentinel (reroot_opt (getRoot U) destination)
                 then <[mkdtemp_name U f "atomicapp" := NDir]> f
                 else f)).
  { unfold effective_destination.
    destruct (is_none_sentinel (reroot_opt (getRoot U) destination));
      reflexivity. }
  rewrite <- Hdst, <- Hf1 in Hrun.
  destruct (location_of U (reroot (getRoot U) app_spec)
              (effective_destination U f destination).1
              (effective_destination U f destination).2)
    as [[[img ap] f']|].
  2:{ destruct Hrun as (e & sx & Hrun). rewrite Hrun in Hloc. discriminate. }
  rewrite Hrun in Hloc. injection Hloc as <-.
  exists img, ap, f'. split; [reflexivity|].
  match type of Hans with
  | init_answers _ _ _ _ ?s1 = _ =>
      pose proof (init_answers_effect K U E (reroot_opt (getRoot U) af) s1)
        as Heff
  end.
  rewrite Hans in Heff. cbn [final] in Heff.
  destruct Heff as ((_ & Hap & Him) & _ & Hfs & new & Htr & _).
  specialize (Hfs eq_refl). cbn [self app_path image fsys trace] in *.
  refine (conj Him (conj Hap (conj Hfs (conj _ _)))).
  - intros ev Hev. rewrite Htr. apply in_or_app. right.
    apply in_or_app. left. exact Hev.
  - unfold init_answers in Hans.
    apply bind_ret_inv in Hans as ([] & s2 & Hset & Hans).
    apply bind_ret_inv in Hans as ([] & s3 & Hpa & Hos).
    apply init_answers_file_ret in Hset.
    destruct (as_truthy (reroot_opt (getRoot U) af)) as [p|]; [|exact I].
    destruct Hset as [Hfile ->]. cbn [fsys] in Hfile.
    pose proof (path_isfile_nonempty _ _ Hfile) as Hne.
    destruct (process_answers_ret K E _ _ Hpa) as (Haf3 & _ & Hcase).
    unfold resolved_answers_file in Haf3, Hcase. simpl in Haf3, Hcase.
    rewrite Hne in Haf3, Hcase. simpl in Hcase. rewrite Hne in Hcase.
    destruct Hcase as (fmt & fd & _ & _ & _ & _ & Htr3).
    destruct (openshift_overrides_ret K U E _ _ Hos) as (Hself & _ & Htr' & _).
    rewrite Hself, Htr', Htr3.
    refine (conj Haf3 (conj Hfile _)). left. reflexivity.
Qed.

End Constructor_backwards.


(** * The claims *)

(** ** Inputs used to run the claims *)

(** ** C5: paths under the configured root *)

(** C5.  With [root] the configured root ([Utils.getRoot()]):
    - an absolute path, one leading separator followed by a relative
      rest, is rewritten to [root] joined with the rest, which is [root]
      and the rest with one separator between them (none added when
      [root] ends with one or is empty); further leading separators are
      stripped with the first ([lstrip('/')]); a relative path is left
      as it is; this is what [reroot] does with the source specifier and
      [reroot_opt] with the destination and the answers file;
    - the constructor works with the rewritten inputs, and what it
      leaves shows them: the image is the rewritten source when that
      does not exist, the application path is the rewritten source when
      it exists and no destination is given; a destination that is given
      is the application path as rewritten, and the copy is made from
      the rewritten source to it; an answers file that is given is
      checked, recorded and loaded as rewritten;
    - two constructions under one root, whatever else differs between
      them (the other inputs, the environment, the engine, the store,
      the filesystem), agree on the path recorded for the same answers
      file and on the application path for the same destination, and on
      the image for the same source that exists in neither. *)
Theorem C5_paths_rerooted (K : Consts) (U : Env) (E : Engine) :
  let root := getRoot U in
  (∀ rest, Path.isabs rest = false →
     Path.lstrip (String Path.sep rest) = rest ∧
     reroot root (String Path.sep rest) = Path.join root rest ∧
     Path.join root rest =
       (if negb (Path.nonempty root) || Path.endswith_sep root
        then root ++ rest
        else root ++ String Path.sep rest)%string) ∧
  (∀ p, Path.isabs p = true →
     reroot root (String Path.sep p) = reroot root p ∧
     reroot root p = Path.join root (Path.lstrip p) ∧
     Path.isabs (Path.lstrip p) = false) ∧
  (∀ p, Path.isabs p = false → reroot root p = p) ∧
  (∀ o, reroot_opt root o = reroot root <$> o) ∧
  (∀ app_spec destination cli af h f tr (s' : state (bundle E)),
     __init__ K U E app_spec destination cli af h f tr = Ret tt s' →
     let src := reroot root app_spec in
     image (self s') =
       (if path_exists (effective_destination U f destination).2 src
        then None else Some src) ∧
     (as_truthy destination = None → path_exists f src = true →
      app_path (self s') = Some src) ∧
     (∀ d, destination = Some d →
        Path.nonempty (reroot root d) = true →
        is_none_sentinel (Some (reroot root d)) = false →
        app_path (self s') = Some (reroot root d) ∧
        (path_exists f src = true →
         In (EvCopyDir src (reroot root d) true) (trace s'))) ∧
     (∀ a, af = Some a → Path.nonempty (reroot root a) = true →
        answers_file (self s') = Some (reroot root a) ∧
        path_isfile (fsys s') (reroot root a) = true ∧
        In (EvLoadAnswers (reroot root a)) (trace s'))) ∧
  (∀ (K2 : Consts) (U2 : Env) (E2 : Engine)
     app_spec destination cli af h f tr (s1 : state (bundle E))
     app_spec2 destination2 cli2 af2 h2 f2 tr2 (s2 : state (bundle E2)),
     getRoot U2 = root →
     __init__ K U E app_spec destination cli af h f tr = Ret tt s1 →
     __init__ K2 U2 E2 app_spec2 destination2 cli2 af2 h2 f2 tr2 = Ret tt s2 →
     (∀ a, af = Some a → af2 = Some a →
        Path.nonempty (reroot root a) = true →
        answers_file (self s2) = answers_file (self s1)) ∧
     (∀ d, destination = Some d → destination2 = Some d →
        Path.nonempty (reroot root d) = true →
        is_none_sentinel (Some (reroot root d)) = false →
        app_path (self s2) = app_path (self s1)) ∧
     (app_spec2 = app_spec →
      path_exists (effective_destination U f destination).2
        (reroot root app_spec) = false →
      path_exists (effective_destination U2 f2 destination2).2
        (reroot root app_spec) = false →
      image (self s2) = image (self s1))).
Proof.
  intros root.
  assert (Hctor : ∀ (K' : Consts) (U' : Env) (E' : Engine)
            app_spec destination cli af h f tr (s' : state (bundle E')),
            __init__ K' U' E' app_spec destination cli af h f tr = Ret tt s' →
            let src := reroot (getRoot U') app_spec in
            image (self s') =
              (if path_exists (effective_destination U' f destination).2 src
               then None else Some src) ∧
            (as_truthy destination = None → path_exists f src = true →
             app_path (self s') = Some src) ∧
            (∀ d, destination = Some d →
               Path.nonempty (reroot (getRoot U') d) = true →
               is_none_sentinel (Some (reroot (getRoot U') d)) = false →
               app_path (self s') = Some (reroot (getRoot U') d) ∧
               (path_exists f src = true →
                In (EvCopyDir src (reroot (getRoot U') d) true) (trace s'))) ∧
            (∀ a, af = Some a → Path.nonempty (reroot (getRoot U') a) = true →
               answers_file (self s') = Some (reroot (getRoot U') a) ∧
               path_isfile (fsys s') (reroot (getRoot U') a) = true ∧
               In (EvLoadAnswers (reroot (getRoot U') a)) (trace s'))).
  { intros K' U' E' app_spec destination cli af h f tr s' Hinit src.
    destruct (init_returns_inv K' U' E' _ _ _ _ _ _ _ _ Hinit)
      as (img & ap & f' & Hloc & Him & Hap & Hfs & Hev & Haf).
    fold src in Hloc, Hev.
    refine (conj _ (conj _ (conj _ _))).
    - rewrite Him. unfold location_of in Hloc.
      destruct (path_exists (effective_destination U' f destination).2 src).
      + destruct (as_truthy (effective_destination U' f destination).1).
        * destruct (copy_dir U' _ src s true); [|discriminate].
          injection Hloc as <- _ _. reflexivity.
        * injection Hloc as <- _ _. reflexivity.
      + destruct (Path.nonempty src); [|discriminate].
        injection Hloc as <- _ _. reflexivity.
    - intros Hnone Hex. rewrite Hap. f_equal.
      assert (Hd0 : as_truthy (reroot_opt (getRoot U') destination) = None).
      { destruct destination as [d|]; [|reflexivity].
        unfold as_truthy in Hnone. destruct d; [reflexivity|discriminate]. }
      unfold effective_destination, is_none_sentinel in Hloc.
      rewrite Hd0 in Hloc. cbn [fst snd] in Hloc.
      unfold location_of in Hloc. rewrite Hex, Hd0 in Hloc.
      injection Hloc as _ <- _. reflexivity.
    - intros d -> Hne Hsent.
      unfold effective_destination in Hloc, Hev.
      rewrite reroot_opt_Some in Hloc, Hev. rewrite Hsent in Hloc, Hev.
      cbn [fst snd] in Hloc, Hev.
      assert (Hd : as_truthy (Some (reroot (getRoot U') d)) =
                   Some (reroot (getRoot U') d)).
      { unfold as_truthy. rewrite Hne. reflexivity. }
      unfold location_of in Hloc. rewrite Hd in Hloc.
      split.
      + rewrite Hap. f_equal. destruct (path_exists f src).
        * destruct (copy_dir U' f src _ true); [|discriminate].
          injection Hloc as _ <- _. reflexivity.
        * destruct (Path.nonempty src); [|discriminate].
          injection Hloc as _ <- _. reflexivity.
      + intros Hex. apply Hev. unfold location_events.
        rewrite Hex, Hd. left. reflexivity.
    - intros a -> Hne. rewrite reroot_opt_Some in Haf.
      unfold as_truthy in Haf. rewrite Hne in Haf. rewrite Hfs. exact Haf. }
  refine (conj _ (conj _ (conj _ (conj _ (conj (Hctor K U E) _))))).
  - intros rest Hrel.
    assert (Hl : Path.lstrip (String Path.sep rest) = rest).
    { cbn [Path.lstrip]. rewrite Ascii.eqb_refl.
      destruct rest as [|c r]; [reflexivity|].
      cbn [Path.lstrip Path.isabs] in *. rewrite Hrel. reflexivity. }
    refine (conj Hl (conj _ _)).
    + unfold reroot. cbn [Path.isabs]. rewrite Ascii.eqb_refl, Hl. reflexivity.
    + apply join_relative. exact Hrel.
  - intros p Habs. refine (conj _ (conj _ (lstrip_not_abs p))).
    + unfold reroot. cbn [Path.isabs]. rewrite Ascii.eqb_refl, Habs.
      cbn [Path.lstrip]. rewrite Ascii.eqb_refl. reflexivity.
    + unfold reroot. rewrite Habs. reflexivity.
  - intros p Hrel. unfold reroot. rewrite Hrel. reflexivity.
  - intros [p|]; [apply reroot_opt_Some|reflexivity].
  - intros K2 U2 E2 app_spec destination cli af h f tr s1
      app_spec2 destination2 cli2 af2 h2 f2 tr2 s2 Hroot H1 H2.
    destruct (Hctor K U E _ _ _ _ _ _ _ _ H1) as (Him1 & _ & Hd1 & Ha1).
    destruct (Hctor K2 U2 E2 _ _ _ _ _ _ _ _ H2) as (Him2 & _ & Hd2 & Ha2).
    rewrite Hroot in Him2, Hd2, Ha2. fold root in Him1, Hd1, Ha1.
    refine (conj _ (conj _ _)).
    + intros a Haf Haf2 Hne.
      destruct (Ha1 a Haf Hne) as (-> & _). destruct (Ha2 a Haf2 Hne) as (-> & _).
      reflexivity.
    + intros d Hdst Hdst2 Hne Hsent.
      destruct (Hd1 d Hdst Hne Hsent) as (-> & _).
      destruct (Hd2 d Hdst2 Hne Hsent) as (-> & _). reflexivity.
    + intros -> Hex1 Hex2. rewrite Him1, Him2, Hex1, Hex2. reflexivity.
Qed.

Lemma C5_paths_rerooted_witness :
  reroot "/host" "/etc/app" = "/host/etc/app" ∧
  reroot "/host" "//etc/app" = "/host/etc/app" ∧
  reroot "/host" "etc/app" = "etc/app" ∧
  ∃ s',
    __init__ atomicapp_constants container_env (plain_engine [])
      "/app" (Some "/srv/app") None (Some "/work/my.conf")
      empty_heap container_fs [] = Ret tt s' ∧
    image (self s') = None ∧
    app_path (self s') = Some "/host/srv/app" ∧
    In (EvCopyDir "/host/app" "/host/srv/app" true) (trace s') ∧
    answers_file (self s') = Some "/host/work/my.conf" ∧
    In (EvLoadAnswers "/host/work/my.conf") (trace s').
Proof.
  destruct (C5_paths_rerooted atomicapp_constants container_env
              (plain_engine []))
    as (Hone & Hmore & Hrel & _ & Hctor & _).
  cbv zeta in Hone, Hmore, Hrel, Hctor.
  change (getRoot container_env) with "/host" in Hone, Hmore, Hrel, Hctor.
  destruct (Hone "etc/app" eq_refl) as (_ & H1 & H1').
  destruct (Hmore "/etc/app" eq_refl) as (H2 & _).
  assert (Hhost : reroot "/host" "/etc/app" = "/host/etc/app").
  { etransitivity; [exact H1|]. etransitivity; [exact H1'|reflexivity]. }
  split; [exact Hhost|].
  split; [etransitivity; [exact H2|exact Hhost]|].
  split; [apply Hrel; reflexivity|].
  destruct (__init__ atomicapp_constants container_env (plain_engine [])
              "/app" (Some "/srv/app") None (Some "/work/my.conf")
              empty_heap container_fs []) as [[] s'|e s'] eqn:Hinit;
    [|vm_compute in Hinit; discriminate].
  exists s'. split; [reflexivity|].
  destruct (Hctor _ _ _ _ _ _ _ _ Hinit) as (Him & _ & Hdst & Haf).
  destruct (Hdst "/srv/app" eq_refl eq_refl eq_refl) as (Hap & Hcopy).
  destruct (Haf "/work/my.conf" eq_refl eq_refl) as (Hfile & _ & Hload).
  refine (conj _ (conj Hap (conj (Hcopy eq_refl) (conj Hfile Hload)))).
  rewrite Him. reflexivity.
Defined.

(** ** C8: genanswers over an existing answers file *)

(** C8.  When the conventional answers file exists in the current working
    directory, [genanswers] raises [NuleculeException] before it unpacks:
    the filesystem (so the existing file), the store and the log of calls
    are as before, and only [self.answers_format] has been set. *)
Theorem C8_genanswers_existing_file (K : Consts) (U : Env) (E : Engine)
    (dryrun : bool) (fmt : option string) (s : state (bundle E)) :
  path_exists (fsys s) (Path.join (getcwd U) (ANSWERS_FILE K)) = true →
  ∃ msg,
    genanswers K U E dryrun fmt s =
      Raise (NuleculeException msg)
        (State (with_answers_format
                  (Some (or_str fmt (ANSWERS_FILE_SAMPLE_FORMAT K))) (self s))
           (hp s) (fsys s) (trace s)).
Proof.
  intros Hex. unfold genanswers. rewrite bind_unfold. simpl.
  rewrite bind_unfold. simpl. rewrite Hex. eexists. reflexivity.
Qed.

Lemma C8_genanswers_existing_file_witness :
  ∃ msg,
    genanswers atomicapp_constants (plain_env []) (plain_engine []) false None
      (State (bare_instance (plain_engine []) 1%positive) empty_heap
         host_fs_with_answers []) =
      Raise (NuleculeException msg)
        (State (with_answers_format (Some "ini")
                  (bare_instance (plain_engine []) 1%positive))
           empty_heap host_fs_with_answers []).
Proof.
  apply (C8_genanswers_existing_file atomicapp_constants (plain_env [])
           (plain_engine []) false None
           (State (bare_instance (plain_engine []) 1%positive) empty_heap
              host_fs_with_answers [])).
  vm_compute. reflexivity.
Defined.

(** ** C4: where the constructor leaves the application *)

(** C4.  With [src] the source specifier and [dst] the destination after
    lines 51-67 (re-rooted, ['none'] replaced by the temporary
    directory):
    - when the constructor returns: if [src] exists, no image is
      recorded and the application path is [src], or, when a destination
      is given, the destination, the filesystem being the one
      [Utils.copy_dir(src, dst, update=True)] leaves; if [src] does not
      exist, it is the image and the application path is the destination
      when given and the cache directory of the image otherwise.  In
      every case the application path is set;
    - the constructor does return there: with no platform to detect, no
      answers file given and none in the application directory, and
      command-line answers that the defaults can take, it returns
      whenever lines 70-86 give a location ([location_of]: the copy has
      not failed and the source is not the empty string), with that
      image, that application path, the main file inside it, that
      filesystem, and the calls of [tempfile.mkdtemp] and
      [Utils.copy_dir] as its log;
    - when lines 70-86 give no location the constructor raises. *)
Theorem C4_constructor_location (K : Consts) (U : Env) (E : Engine)
    (app_spec : string) (destination : option string) (cli : option sect)
    (af : option string) (h : heap) (f : fs) (tr : list event) :
  let src := reroot (getRoot U) app_spec in
  let dst := (effective_destination U f destination).1 in
  let f1 := (effective_destination U f destination).2 in
  (∀ s' : state (bundle E),
     __init__ K U E app_spec destination cli af h f tr = Ret tt s' →
     located U src dst f1 (self s') (fsys s') ∧
     is_Some (app_path (self s'))) ∧
  (∀ img ap f',
     location_of U src dst f1 = Some (img, ap, f') →
     running_on_openshift U = false →
     as_truthy (reroot_opt (getRoot U) af) = None →
     path_isfile f' (Path.join ap (ANSWERS_FILE K)) = false →
     mergeable K cli (DEFAULT_ANSWERS K) →
     ∃ s' : state (bundle E),
       __init__ K U E app_spec destination cli af h f tr = Ret tt s' ∧
       image (self s') = img ∧ app_path (self s') = Some ap ∧
       main_file (self s') = Some (Path.join ap (MAIN_FILE K)) ∧
       fsys s' = f' ∧
       trace s' =
         location_events src (reroot_opt (getRoot U) destination) dst f1
           ++ tr ∧
       located U src dst f1 (self s') (fsys s')) ∧
  (location_of U src dst f1 = None →
   ∃ e (s' : state (bundle E)),
     __init__ K U E app_spec destination cli af h f tr = Raise e s').
Proof.
  intros src dst f1.
  assert (Hfirst : ∀ s' : state (bundle E),
            __init__ K U E app_spec destination cli af h f tr = Ret tt s' →
            located U src dst f1 (self s') (fsys s') ∧
            is_Some (app_path (self s'))).
  { unfold __init__, init_body. intros s' Hinit.
    destruct (build_doc (DEFAULT_ANSWERS K) h) as [l h1].
    apply bind_ret_inv in Hinit as ([] & s1 & Hloc & Hans).
    apply init_location_ret in Hloc as (Hlocated & _); [|reflexivity..].
    simpl in Hlocated.
    pose proof (init_answers_effect K U E (reroot_opt (getRoot U) af) s1)
      as Heff.
    rewrite Hans in Heff. simpl in Heff.
    destruct Heff as ((_ & Hap & Him) & _ & Hfs & _).
    specialize (Hfs eq_refl).
    assert (Hl : located U src dst f1 (self s') (fsys s')).
    { unfold src, dst, f1, effective_destination, located in *.
      rewrite Hap, Him, Hfs.
      destruct (is_none_sentinel (reroot_opt (getRoot U) destination));
        exact Hlocated. }
    split; [exact Hl|].
    unfold located in Hl.
    destruct (path_exists _ _).
    - destruct Hl as [_ Hl].
      destruct (as_truthy _); destruct Hl as [-> _]; eauto.
    - destruct Hl as (_ & _ & ->). eauto. }
  assert (Hdst : dst =
                 (if is_none_sentinel (reroot_opt (getRoot U) destination)
                  then Some (mkdtemp_name U f "atomicapp")
                  else reroot_opt (getRoot U) destination)).
  { unfold dst, effective_destination.
    destruct (is_none_sentinel (reroot_opt (getRoot U) destination));
      reflexivity. }
  assert (Hf1 : f1 =
                (if is_none_sentinel (reroot_opt (getRoot U) destination)
                 then <[mkdtemp_name U f "atomicapp" := NDir]> f
                 else f)).
  { unfold f1, effective_destination.
    destruct (is_none_sentinel (reroot_opt (getRoot U) destination));
      reflexivity. }
  refine (conj Hfirst (conj _ _)).
  - intros img ap f' Hloc Hplain Haf Hfile Hm.
    unfold __init__, init_body in *.
    destruct (build_doc (DEFAULT_ANSWERS K) h) as [l h1] eqn:Hb.
    destruct (build_doc_spec _ _ _ _ Hb) as (_ & _ & d0 & Hl0 & Hden0 & _).
    pose proof (init_location_run K U E src
                  (reroot_opt (getRoot U) destination)
                  (State (Manager l cli None None None None None None) h1 f tr)
                  eq_refl eq_refl) as Hrun.
    cbv zeta in Hrun. cbn [fsys self hp trace] in Hrun.
    rewrite <- Hdst, <- Hf1, Hloc in Hrun.
    cbn [answers cli_answers answers_format answers_file nulecule] in Hrun.
    set (s1 := State (Manager l cli None None (Some ap) img
                        (Some (Path.join ap (MAIN_FILE K))) None) h1 f'
                 (location_events src (reroot_opt (getRoot U) destination)
                    dst f1 ++ tr)) in *.
    destruct (init_answers_nothing K U E (reroot_opt (getRoot U) af) s1 ap
                d0 (DEFAULT_ANSWERS K) Hplain Haf eq_refl eq_refl Hfile
                Hl0 Hden0 Hm) as [h' Hans].
    assert (Hret : (init_location K U E src (reroot_opt (getRoot U) destination) ;;;
                    init_answers K U E (reroot_opt (getRoot U) af))
                     (State (Manager l cli None None None None None None)
                        h1 f tr) =
                   Ret tt (State (self s1) h' (fsys s1) (trace s1))).
    { rewrite bind_unfold, Hrun. exact Hans. }
    exists (State (self s1) h' (fsys s1) (trace s1)).
    split; [exact Hret|].
    refine (conj eq_refl (conj eq_refl (conj eq_refl (conj eq_refl
              (conj eq_refl _))))).
    apply (Hfirst _ Hret).
  - intros Hloc. unfold __init__, init_body.
    destruct (build_doc (DEFAULT_ANSWERS K) h) as [l h1] eqn:Hb.
    pose proof (init_location_run K U E src
                  (reroot_opt (getRoot U) destination)
                  (State (Manager l cli None None None None None None) h1 f tr)
                  eq_refl eq_refl) as Hrun.
    cbv zeta in Hrun. cbn [fsys self hp trace] in Hrun.
    rewrite <- Hdst, <- Hf1, Hloc in Hrun.
    destruct Hrun as (e & s' & Hrun). exists e, s'.
    assert (Hraise : (init_location K U E src
                        (reroot_opt (getRoot U) destination) ;;;
                      init_answers K U E (reroot_opt (getRoot U) af))
                       (State (Manager l cli None None None None None None)
                          h1 f tr) = Raise e s').
    { rewrite bind_unfold, Hrun. reflexivity. }
    exact Hraise.
Qed.

Lemma C4_constructor_location_witness :
  (∃ s',
     __init__ atomicapp_constants copying_env (plain_engine [])
       "/app" None None None empty_heap host_fs [] = Ret tt s' ∧
     image (self s') = None ∧ app_path (self s') = Some "/app" ∧
     fsys s' = host_fs) ∧
  (∃ s',
     __init__ atomicapp_constants copying_env (plain_engine [])
       "/app" (Some "/srv/app") None None empty_heap host_fs [] = Ret tt s' ∧
     image (self s') = None ∧ app_path (self s') = Some "/srv/app" ∧
     trace s' = [EvCopyDir "/app" "/srv/app" true] ∧
     fsys s' !! "/srv/app/Nulecule" = Some (NFile Opaque) ∧
     fsys s' !! "/app/Nulecule" = Some (NFile Opaque)) ∧
  (∃ s',
     __init__ atomicapp_constants copying_env (plain_engine [])
       "/app" (Some "None") None None empty_heap host_fs [] = Ret tt s' ∧
     image (self s') = None ∧ app_path (self s') = Some "/tmp/atomicapp0" ∧
     trace s' = [EvCopyDir "/app" "/tmp/atomicapp0" true;
                 EvMkdtemp "atomicapp"] ∧
     fsys s' !! "/tmp/atomicapp0/Nulecule" = Some (NFile Opaque)) ∧
  (∃ s',
     __init__ atomicapp_constants copying_env (plain_engine [])
       "myapp" (Some "/dst") None None empty_heap host_fs [] = Ret tt s' ∧
     image (self s') = Some "myapp" ∧ app_path (self s') = Some "/dst" ∧
     fsys s' = host_fs) ∧
  (∃ s',
     __init__ atomicapp_constants copying_env (plain_engine [])
       "myapp" None None None empty_heap host_fs [] = Ret tt s' ∧
     image (self s') = Some "myapp" ∧
     app_path (self s') = Some "/var/lib/atomicapp/myapp" ∧
     main_file (self s') = Some "/var/lib/atomicapp/myapp/Nulecule").
Proof.
  refine (conj _ (conj _ (conj _ (conj _ _)))).
  - destruct (C4_constructor_location atomicapp_constants copying_env
                (plain_engine []) "/app" None None None empty_heap host_fs [])
      as (_ & Hret & _).
    destruct (Hret None "/app" host_fs)
      as (s' & Hs & Him & Hap & _ & Hfs & _);
      [vm_compute; reflexivity|reflexivity|reflexivity
      |vm_compute; reflexivity|exact I|].
    exists s'. auto.
  - destruct (C4_constructor_location atomicapp_constants copying_env
                (plain_engine []) "/app" (Some "/srv/app") None None
                empty_heap host_fs [])
      as (_ & Hret & _).
    destruct (Hret None "/srv/app" (copy_tree host_fs "/app" "/srv/app"))
      as (s' & Hs & Him & Hap & _ & Hfs & Htr & _);
      [vm_compute; reflexivity|reflexivity|reflexivity
      |vm_compute; reflexivity|exact I|].
    exists s'. rewrite Hfs.
    refine (conj Hs (conj Him (conj Hap (conj _ (conj _ _))))).
    + rewrite Htr. vm_compute. reflexivity.
    + vm_compute. reflexivity.
    + vm_compute. reflexivity.
  - destruct (C4_constructor_location atomicapp_constants copying_env
                (plain_engine []) "/app" (Some "None") None None
                empty_heap host_fs [])
      as (_ & Hret & _).
    destruct (Hret None "/tmp/atomicapp0"
                (copy_tree (<["/tmp/atomicapp0" := NDir]> host_fs) "/app"
                   "/tmp/atomicapp0"))
      as (s' & Hs & Him & Hap & _ & Hfs & Htr & _);
      [vm_compute; reflexivity|reflexivity|reflexivity
      |vm_compute; reflexivity|exact I|].
    exists s'. rewrite Hfs.
    refine (conj Hs (conj Him (conj Hap (conj _ _)))).
    + rewrite Htr. vm_compute. reflexivity.
    + vm_compute. reflexivity.
  - destruct (C4_constructor_location atomicapp_constants copying_env
                (plain_engine []) "myapp" (Some "/dst") None None
                empty_heap host_fs [])
      as (_ & Hret & _).
    destruct (Hret (Some "myapp") "/dst" host_fs)
      as (s' & Hs & Him & Hap & _ & Hfs & _);
      [vm_compute; reflexivity|reflexivity|reflexivity
      |vm_compute; reflexivity|exact I|].
    exists s'. auto.
  - destruct (C4_constructor_location atomicapp_constants copying_env
                (plain_engine []) "myapp" None None None
                empty_heap host_fs [])
      as (_ & Hret & _).
    destruct (Hret (Some "myapp") "/var/lib/atomicapp/myapp" host_fs)
      as (s' & Hs & Him & Hap & Hmf & _);
      [vm_compute; reflexivity|reflexivity|reflexivity
      |vm_compute; reflexivity|exact I|].
    exists s'. auto.
Defined.


(** ** C9: the global section and its namespace *)

Lemma cli_over_is_Some cli k below :
  is_Some below → is_Some (cli_over cli k below).
Proof.
  intros [v ->]. unfold cli_over. destruct cli as [c|]; [|eauto].
  destruct (c !! k); eauto.
Qed.

Lemma platform_over_is_Some tok ns api k below :
  is_Some below → is_Some (platform_over tok ns api k below).
Proof.
  intros [v ->]. unfold platform_over. repeat case_decide; eauto.
Qed.

Section Namespace.

Context (K : Consts) (U : Env) (E : Engine).

Lemma process_answers_namespace (s s' : state (bundle E)) :
  _process_answers K E s = Ret tt s' →
  has_namespace K (hp s) (answers (self s)) →
  answers_file_has_namespace K s' →
  has_namespace K (hp s') (answers (self s')).
Proof.
  intros Hret Hbefore Hfile.
  destruct (process_answers_ret K E _ _ Hret) as (Haf & Hfs & Hcase).
  unfold answers_file_has_namespace in Hfile. rewrite Haf, Hfs in Hfile.
  unfold has_namespace in *.
  destruct (as_truthy (resolved_answers_file K s)) as [p|] eqn:Hp.
  - destruct Hcase as (fmt & fd & Hf & _ & _ & Hlk & _).
    rewrite Hlk. apply cli_over_is_Some. eapply Hfile; eauto.
  - destruct Hcase as (Hans & Hlk & _). rewrite Hans, Hlk.
    apply cli_over_is_Some. exact Hbefore.
Qed.

Lemma openshift_overrides_namespace (s s' : state (bundle E)) :
  openshift_overrides K U E s = Ret tt s' →
  has_namespace K (hp s) (answers (self s)) →
  has_namespace K (hp s') (answers (self s')).
Proof.
  intros Hret Hbefore.
  destruct (openshift_overrides_ret K U E _ _ Hret) as (Hself & _ & _ & Hcase).
  unfold has_namespace in *. rewrite Hself.
  destruct (running_on_openshift U).
  - destruct Hcase as (tok & ns & api & _ & _ & _ & Hlk). rewrite Hlk.
    apply platform_over_is_Some. exact Hbefore.
  - rewrite Hcase. exact Hbefore.
Qed.

End Namespace.

(** C9, as the code has it.  The defaults the constructor starts from
    have a global section with a namespace (given that [DEFAULT_ANSWERS]
    has one); merging the command-line answers and the platform overrides
    keep it; loading an answers file replaces the document, after which
    the global section and its namespace are there when the loaded file
    has them.  So: after the constructor, and after every later answer
    resolution that returns, the global section exists and holds a
    namespace value provided the answers file in use, if any, holds a
    document that has them. *)
Theorem C9_namespace_kept (K : Consts) (U : Env) (E : Engine) :
  fhas_namespace K (DEFAULT_ANSWERS K) →
  (∀ app_spec destination cli af h f tr (s' : state (bundle E)),
     __init__ K U E app_spec destination cli af h f tr = Ret tt s' →
     answers_file_has_namespace K s' →
     has_namespace K (hp s') (answers (self s'))) ∧
  (∀ s s' : state (bundle E),
     _process_answers K E s = Ret tt s' →
     has_namespace K (hp s) (answers (self s)) →
     answers_file_has_namespace K s' →
     has_namespace K (hp s') (answers (self s'))).
Proof.
  intros Hdefault. split; [|apply process_answers_namespace].
  intros app_spec destination cli af h f tr s' Hinit Hfile.
  unfold __init__, init_body in Hinit.
  destruct (build_doc (DEFAULT_ANSWERS K) h) as [l h1] eqn:Hb.
  assert (H0 : has_namespace K h1 l).
  { unfold has_namespace.
    erewrite lookup2_snapshot by (eapply build_doc_snapshot; exact Hb).
    exact Hdefault. }
  apply bind_ret_inv in Hinit as ([] & s1 & Hloc & Hans).
  apply init_location_ret in Hloc as (_ & Hhp & Hanswers & _ & Hfile0);
    [|reflexivity..].
  simpl in Hhp, Hanswers, Hfile0.
  unfold init_answers in Hans.
  apply bind_ret_inv in Hans as ([] & s2 & Hset & Hans).
  apply bind_ret_inv in Hans as ([] & s3 & Hpa & Hos).
  assert (H2 : has_namespace K (hp s2) (answers (self s2))).
  { destruct (as_truthy (reroot_opt (getRoot U) af)) as [p|].
    - rewrite bind_unfold in Hset. simpl in Hset.
      destruct (negb (path_isfile (fsys s1) p)); [discriminate|].
      injection Hset as <-. simpl. rewrite Hhp, Hanswers. exact H0.
    - injection Hset as <-. rewrite Hhp, Hanswers. exact H0. }
  destruct (openshift_overrides_ret K U E _ _ Hos) as (Hself & Hfs & _ & _).
  eapply openshift_overrides_namespace; [exact Hos|].
  eapply process_answers_namespace; [exact Hpa|exact H2|].
  unfold answers_file_has_namespace in *. rewrite <- Hself, <- Hfs. exact Hfile.
Qed.

Lemma C9_namespace_kept_witness :
  ∃ s',
    __init__ atomicapp_constants (plain_env []) (plain_engine [])
      "/app" None (Some {[ "provider" := SStr "docker" ]}) None
      empty_heap host_fs_embedded [] = Ret tt s' ∧
    has_namespace atomicapp_constants (hp s') (answers (self s')).
Proof.
  destruct (__init__ atomicapp_constants (plain_env []) (plain_engine [])
              "/app" None (Some {[ "provider" := SStr "docker" ]}) None
              empty_heap host_fs_embedded [])
    as [[] s'|e s'] eqn:Hinit; [|vm_compute in Hinit; discriminate].
  exists s'. split; [reflexivity|].
  assert (Hdefault : fhas_namespace atomicapp_constants
                       (DEFAULT_ANSWERS atomicapp_constants)).
  { vm_compute. eauto. }
  destruct (C9_namespace_kept atomicapp_constants (plain_env [])
              (plain_engine []) Hdefault) as [Hinit_ok _].
  eapply Hinit_ok; [exact Hinit|].
  vm_compute in Hinit. injection Hinit as <-.
  intros p fmt fd Hp Hf. vm_compute in Hp. injection Hp as <-.
  vm_compute in Hf. injection Hf as <- <-. vm_compute. eauto.
Defined.

(** C9 fails as stated: the application directory holds an answers file
    without a global section; the constructor returns, and the document
    it leaves in [self.answers] is the file's, with no global section. *)
Lemma C9_counterexample :
  ∃ s',
    __init__ atomicapp_constants (plain_env []) (plain_engine [])
      "/app" None None None empty_heap host_fs_no_global [] = Ret tt s' ∧
    answers_file (self s') = Some "/app/answers.conf" ∧
    snapshot (hp s') (answers (self s')) =
      Some {[ "mariadb" := FSec {[ "password" := SStr "x" ]} ]} ∧
    lookup2 (hp s') (answers (self s')) "general" "namespace" = None.
Proof.
  eexists. split; [vm_compute; reflexivity|].
  vm_compute. auto.
Qed.


(** ** C7: stop reloads the runtime answers *)

Lemma cli_over_lacks cli k below : cli_lacks cli k → cli_over cli k below = below.
Proof.
  unfold cli_lacks, cli_over. destruct cli as [c|]; [|reflexivity].
  intros ->. reflexivity.
Qed.

Section Stop.

Context (K : Consts) (U : Env) (E : Engine).

(** Answer resolution returns when the answers file holds a document the
    command-line answers can be merged into. *)
Lemma process_answers_load_run (s : state (bundle E)) p fmt fd :
  answers_file (self s) = Some p → Path.nonempty p = true →
  fsys s !! p = Some (NFile (Answers fmt fd)) →
  mergeable K (cli_answers (self s)) fd →
  ∃ s', _process_answers K E s = Ret tt s'.
Proof.
  intros Haf Hp Hf Hm. unfold _process_answers.
  rewrite bind_unfold, find_answers_file_known by (rewrite Haf; exact Hp).
  rewrite bind_unfold.
  assert (Hload : load_answers_file E s =
            Ret tt (State (with_answers (build_doc fd (hp s)).1 (self s))
                      (build_doc fd (hp s)).2 (fsys s)
                      (EvLoadAnswers p :: trace s))).
  { unfold load_answers_file. rewrite bind_unfold. simpl. rewrite Haf, Hp.
    rewrite bind_unfold. rewrite (loadAnswers_run E s p fmt fd Hp Hf).
    reflexivity. }
  rewrite Hload.
  destruct (build_doc fd (hp s)) as [l h1] eqn:Hb. simpl.
  destruct (build_doc_spec _ _ _ _ Hb) as (_ & _ & d & Hl & Hden & _).
  destruct (cli_answers (self s)) as [c|] eqn:Hc.
  - destruct Hm as [->|[sec Hsec]].
    + unfold merge_cli_answers. rewrite bind_unfold. simpl. rewrite Hc.
      rewrite bool_decide_eq_true_2 by reflexivity. simpl. eauto.
    + specialize (Hden (GLOBAL_CONF K)). rewrite Hsec in Hden. simpl in Hden.
      destruct (d !! GLOBAL_CONF K) as [[v|ls]|] eqn:Hg; simpl in Hden;
        try discriminate.
      destruct (secs h1 !! ls) as [s0|] eqn:Hs; simpl in Hden; [|discriminate].
      erewrite merge_cli_answers_run; simpl; eauto.
  - rewrite merge_cli_answers_none by (simpl; exact Hc). eauto.
Qed.

Lemma stop_unfold cli_provider dryrun (s : state (bundle E)) ap :
  app_path (self s) = Some ap →
  stop K E cli_provider dryrun s =
    (_process_answers K E ;;; stop_engine_calls E cli_provider dryrun)
      (State (with_answers_file
                (Some (Path.join ap (ANSWERS_RUNTIME_FILE K))) (self s))
         (hp s) (fsys s) (trace s)).
Proof.
  intros Hap. unfold stop. rewrite bind_unfold.
  unfold attr_app_path. rewrite bind_unfold. simpl. rewrite Hap. reflexivity.
Qed.

Lemma manager_ext {B} (m m' : manager B) :
  answers m' = answers m → cli_answers m' = cli_answers m →
  answers_format m' = answers_format m → answers_file m' = answers_file m →
  app_path m' = app_path m → image m' = image m →
  main_file m' = main_file m → nulecule m' = nulecule m → m' = m.
Proof. destruct m, m'. simpl. intros. subst. reflexivity. Qed.

(** With a document in the runtime answers file, [stop] is: load that
    document into a new [self.answers], merge the command-line answers,
    then make the engine calls with it. *)
Lemma stop_loads cli_provider dryrun (s : state (bundle E)) ap fmt fd :
  app_path (self s) = Some ap →
  Path.nonempty (Path.join ap (ANSWERS_RUNTIME_FILE K)) = true →
  fsys s !! Path.join ap (ANSWERS_RUNTIME_FILE K) =
    Some (NFile (Answers fmt fd)) →
  mergeable K (cli_answers (self s)) fd →
  ∃ l h1,
    docs (hp s) !! l = None ∧
    snapshot h1 l = Some (merge_cli (GLOBAL_CONF K) (cli_answers (self s)) fd) ∧
    (∀ k, lookup2 h1 l (GLOBAL_CONF K) k =
          cli_over (cli_answers (self s)) k (flookup2 fd (GLOBAL_CONF K) k)) ∧
    stop K E cli_provider dryrun s =
      stop_engine_calls E cli_provider dryrun
        (State (with_answers l
                  (with_answers_file
                     (Some (Path.join ap (ANSWERS_RUNTIME_FILE K))) (self s)))
           h1 (fsys s)
           (EvLoadAnswers (Path.join ap (ANSWERS_RUNTIME_FILE K)) :: trace s)).
Proof.
  intros Hap Hne Hf Hm. rewrite (stop_unfold _ _ _ _ Hap).
  set (rt := Path.join ap (ANSWERS_RUNTIME_FILE K)) in *.
  set (s1 := State (with_answers_file (Some rt) (self s)) (hp s) (fsys s)
               (trace s)).
  destruct (process_answers_load_run s1 rt fmt fd eq_refl Hne Hf Hm)
    as [s2 Hpa].
  rewrite bind_unfold, Hpa.
  destruct (process_answers_ret K E _ _ Hpa) as (Haf & Hfs & Hcase).
  assert (Hres : resolved_answers_file K s1 = Some rt).
  { unfold resolved_answers_file. simpl. rewrite Hne. reflexivity. }
  rewrite Hres in Haf, Hcase. simpl in Hcase. rewrite Hne in Hcase.
  destruct Hcase as (fmt' & fd' & Hf' & Hfresh & Hsnap & Hlk & Htr).
  simpl in Hf', Hfresh, Hsnap, Hlk, Htr, Hfs.
  rewrite Hf in Hf'. injection Hf' as <- <-.
  pose proof (process_answers_effect K E s1) as Heff. rewrite Hpa in Heff.
  simpl in Heff. destruct Heff as ((H1 & H2 & H3 & H4 & H5 & H6) & _).
  simpl in H1, H2, H3, H4, H5, H6.
  exists (answers (self s2)), (hp s2).
  refine (conj Hfresh (conj Hsnap (conj Hlk _))).
  f_equal. destruct s2 as [m2 h2 f2 t2]. simpl in *. subst f2 t2. f_equal.
  apply manager_ext; simpl; auto.
Qed.

End Stop.

(** C7.  For an instance with a (non-empty) application path:
    - whatever [self.answers_file] was, and whether [stop] returns or
      raises, [self.answers_file] ends as the runtime answers file inside
      the application path, and [stop] never calls the image-unpack entry
      point;
    - when that file holds a document, [stop] is: load the document into
      a new [self.answers], merge the command-line answers into its
      global section, and call the engine, starting with
      [Nulecule.load_from_path] on the application path with that
      document;
    - when the state is the one a returning [run] left, the file holds
      what [run] persisted, so the global-section values [stop] works
      with, and in particular the provider and the namespace, are the
      persisted ones for every key the command line does not name. *)
Theorem C7_stop_reloads_runtime_answers (K : Consts) (U : Env) (E : Engine)
    (cli_provider : option string) (dryrun : bool) (s : state (bundle E))
    (ap : string) :
  app_path (self s) = Some ap →
  Path.nonempty (ANSWERS_RUNTIME_FILE K) = true →
  let rt := Path.join ap (ANSWERS_RUNTIME_FILE K) in
  let loaded l h1 :=
    State (with_answers l (with_answers_file (Some rt) (self s))) h1 (fsys s)
      (EvLoadAnswers rt :: trace s) in
  (answers_file (self (final (stop K E cli_provider dryrun s))) = Some rt ∧
   ∃ new, trace (final (stop K E cli_provider dryrun s)) = new ++ trace s ∧
          Forall not_unpack new) ∧
  (∀ fmt fd,
     fsys s !! rt = Some (NFile (Answers fmt fd)) →
     mergeable K (cli_answers (self s)) fd →
     ∃ l h1,
       docs (hp s) !! l = None ∧
       snapshot h1 l =
         Some (merge_cli (GLOBAL_CONF K) (cli_answers (self s)) fd) ∧
       stop K E cli_provider dryrun s =
         stop_engine_calls E cli_provider dryrun (loaded l h1)) ∧
  (∀ s0 cp0 out ask fmt0 dryrun0,
     run K U E cp0 out ask fmt0 dryrun0 s0 = Ret tt s →
     ∃ fmt fd l h1,
       In (EvSerialize rt fmt fd) (trace s) ∧
       fsys s !! rt = Some (NFile (Answers fmt fd)) ∧
       (∃ ns, flookup2 fd (GLOBAL_CONF K) (NAMESPACE_KEY K) = Some ns) ∧
       (∀ p, cp0 = Some p → Path.nonempty p = true →
             flookup2 fd (GLOBAL_CONF K) (PROVIDER_KEY K) = Some (SStr p)) ∧
       stop K E cli_provider dryrun s =
         stop_engine_calls E cli_provider dryrun (loaded l h1) ∧
       (∀ k, cli_lacks (cli_answers (self s)) k →
             lookup2 h1 l (GLOBAL_CONF K) k = flookup2 fd (GLOBAL_CONF K) k)).
Proof.
  intros Hap Hrt rt loaded.
  assert (Hne : Path.nonempty (Path.join ap (ANSWERS_RUNTIME_FILE K)) = true).
  { rewrite join_nonempty, Hrt. apply orb_true_r. }
  split; [|split].
  - destruct (stop_final K E cli_provider dryrun s ap Hap Hne)
      as ((Haf & _) & _ & _ & Htr).
    simpl in Haf, Htr. split; [exact Haf|exact Htr].
  - intros fmt fd Hf Hm.
    destruct (stop_loads K E cli_provider dryrun s ap fmt fd Hap Hne Hf Hm)
      as (l & h1 & Hfresh & Hsnap & _ & Hstop).
    exists l, h1. auto.
  - intros s0 cp0 out ask fmt0 dryrun0 Hrun.
    pose proof (run_effect K U E cp0 out ask fmt0 dryrun0 s0) as Heff.
    rewrite Hrun in Heff. simpl in Heff.
    destruct Heff as ((_ & Hpath & _) & _).
    rewrite Hap in Hpath. symmetry in Hpath.
    destruct (run_ret K U E cp0 out ask fmt0 dryrun0 s0 s ap Hpath Hrun)
      as (fd & Hf & Hev & _ & _ & Hns & Hprov).
    assert (Hm : mergeable K (cli_answers (self s)) fd).
    { unfold mergeable. destruct (cli_answers (self s)); [|exact I].
      right. destruct Hns as [ns Hns]. unfold flookup2 in Hns.
      destruct (fd !! GLOBAL_CONF K) as [[v|sec]|]; try discriminate. eauto. }
    destruct (stop_loads K E cli_provider dryrun s ap _ fd Hap Hne Hf Hm)
      as (l & h1 & _ & _ & Hlk & Hstop).
    exists (Some (or_str fmt0 (ANSWERS_FILE_SAMPLE_FORMAT K))), fd, l, h1.
    refine (conj Hev (conj Hf (conj Hns (conj Hprov (conj Hstop _))))).
    intros k Hk. rewrite Hlk. apply cli_over_lacks. exact Hk.
Qed.

Lemma C7_stop_reloads_runtime_answers_witness :
  answers_file
    (self (final (stop atomicapp_constants (plain_engine []) None false
                    after_run))) = Some "/app/answers.conf.gen" ∧
  ∃ fmt fd l h1,
    In (EvSerialize "/app/answers.conf.gen" fmt fd) (trace after_run) ∧
    stop atomicapp_constants (plain_engine []) None false after_run =
      stop_engine_calls (plain_engine []) None false
        (State (with_answers l
                  (with_answers_file (Some "/app/answers.conf.gen")
                     (self after_run)))
           h1 (fsys after_run)
           (EvLoadAnswers "/app/answers.conf.gen" :: trace after_run)) ∧
    lookup2 h1 l "general" "provider" = flookup2 fd "general" "provider" ∧
    lookup2 h1 l "general" "namespace" = flookup2 fd "general" "namespace".
Proof.
  assert (Hap : app_path (self after_run) = Some "/app")
    by (vm_compute; reflexivity).
  assert (Hne : Path.nonempty (ANSWERS_RUNTIME_FILE atomicapp_constants)
                = true) by reflexivity.
  assert (Hrun : run atomicapp_constants (plain_env ["docker"])
                   (plain_engine []) None None false None false built =
                 Ret tt after_run) by (vm_compute; reflexivity).
  destruct (C7_stop_reloads_runtime_answers atomicapp_constants
              (plain_env ["docker"]) (plain_engine []) None false after_run
              "/app" Hap Hne) as ((Haf & _) & _ & Hafter).
  split; [exact Haf|].
  destruct (Hafter _ _ _ _ _ _ Hrun)
    as (fmt & fd & l & h1 & Hev & _ & _ & _ & Hstop & Hlk).
  exists fmt, fd, l, h1.
  refine (conj Hev (conj Hstop (conj _ _))); apply Hlk; vm_compute; exact I.
Defined.

(** ** C10: the answers file after stop *)

Lemma effect_resolves_nothing {B} (s s' : state B) :
  effect not_load keeps_resolution false false s s' → resolves_nothing s s'.
Proof.
  intros ((Hans & Haf & _ & Hap & _) & _ & _ & Htr).
  unfold resolves_nothing. auto.
Qed.

(** C10, as the code has it.  After [stop], returning or raising past its
    first statement, [self.answers_file] is the runtime answers file of
    the application path, and it stays so: [run], [install],
    [genanswers], a second [stop], [uninstall] and [clean] keep it.
    What the later operations do with it differs.  An answer resolution
    (as the next [stop] makes) that returns has loaded that file, and no
    other, into a new [self.answers].  A later [run], [install] or
    [genanswers] resolves nothing: each keeps the document [self.answers]
    names and never calls [Utils.loadAnswers]; in [run] the guard
    [if not self.answers_file] skips the resolution. *)
Theorem C10_answers_file_after_stop (K : Consts) (U : Env) (E : Engine)
    (cli_provider : option string) (dryrun : bool) (s : state (bundle E))
    (ap : string) :
  app_path (self s) = Some ap →
  Path.nonempty (ANSWERS_RUNTIME_FILE K) = true →
  let rt := Path.join ap (ANSWERS_RUNTIME_FILE K) in
  (answers_file (self (final (stop K E cli_provider dryrun s))) = Some rt ∧
   app_path (self (final (stop K E cli_provider dryrun s))) = Some ap) ∧
  (∀ s2 : state (bundle E),
     answers_file (self s2) = Some rt → app_path (self s2) = Some ap →
     (∀ cp out ask fmt dr,
        resolves_nothing s2 (final (run K U E cp out ask fmt dr s2))) ∧
     (∀ nodeps update dr fmt,
        resolves_nothing s2 (final (install K U E nodeps update dr fmt s2))) ∧
     (∀ dr fmt,
        resolves_nothing s2 (final (genanswers K U E dr fmt s2))) ∧
     (∀ cp dr,
        answers_file (self (final (stop K E cp dr s2))) = Some rt ∧
        app_path (self (final (stop K E cp dr s2))) = Some ap) ∧
     final (uninstall E s2) = s2 ∧
     (∀ force, final (clean E force s2) = s2) ∧
     (∀ s3,
        _process_answers K E s2 = Ret tt s3 →
        answers_file (self s3) = Some rt ∧
        ∃ fmt fd,
          fsys s2 !! rt = Some (NFile (Answers fmt fd)) ∧
          trace s3 = EvLoadAnswers rt :: trace s2 ∧
          docs (hp s2) !! answers (self s3) = None ∧
          snapshot (hp s3) (answers (self s3)) =
            Some (merge_cli (GLOBAL_CONF K) (cli_answers (self s2)) fd))).
Proof.
  intros Hap Hrt rt.
  assert (Hne : Path.nonempty (Path.join ap (ANSWERS_RUNTIME_FILE K)) = true).
  { rewrite join_nonempty, Hrt. apply orb_true_r. }
  assert (Hstop : ∀ cp dr (s2 : state (bundle E)),
            app_path (self s2) = Some ap →
            answers_file (self (final (stop K E cp dr s2))) = Some rt ∧
            app_path (self (final (stop K E cp dr s2))) = Some ap).
  { intros cp dr s2 Hap2.
    destruct (stop_final K E cp dr s2 ap Hap2 Hne)
      as ((Haf & _ & Hpath & _) & _).
    simpl in Haf, Hpath. split; [exact Haf|]. rewrite Hpath. exact Hap2. }
  split; [apply Hstop; exact Hap|].
  intros s2 Haf2 Hap2.
  assert (Ht : str_truthy (answers_file (self s2)) = true).
  { rewrite Haf2. exact Hne. }
  refine (conj _ (conj _ (conj _ (conj _ (conj eq_refl (conj _ _)))))).
  - intros cp out ask fmt dr. apply effect_resolves_nothing.
    apply run_keeps. exact Ht.
  - intros nodeps update dr fmt. apply effect_resolves_nothing.
    apply install_keeps.
  - intros dr fmt. apply effect_resolves_nothing. apply genanswers_keeps.
  - intros cp dr. apply Hstop. exact Hap2.
  - intros force. reflexivity.
  - intros s3 Hpa.
    destruct (process_answers_ret K E _ _ Hpa) as (Haf & _ & Hcase).
    assert (Hres : resolved_answers_file K s2 = Some rt).
    { unfold resolved_answers_file. rewrite Ht. exact Haf2. }
    rewrite Hres in Haf, Hcase. simpl in Hcase. fold rt in Hcase.
    unfold rt in Hcase at 1. rewrite Hne in Hcase.
    destruct Hcase as (fmt & fd & Hf & Hfresh & Hsnap & _ & Htr).
    split; [exact Haf|]. exists fmt, fd. auto.
Qed.

Lemma C10_answers_file_after_stop_witness :
  let stopped :=
    final (stop atomicapp_constants (plain_engine []) None false after_run) in
  answers_file (self stopped) = Some "/app/answers.conf.gen" ∧
  resolves_nothing stopped
    (final (run atomicapp_constants (plain_env ["docker"]) (plain_engine [])
              None None false None false stopped)).
Proof.
  intros stopped.
  assert (Hap : app_path (self after_run) = Some "/app")
    by (vm_compute; reflexivity).
  assert (Hne : Path.nonempty (ANSWERS_RUNTIME_FILE atomicapp_constants)
                = true) by reflexivity.
  destruct (C10_answers_file_after_stop atomicapp_constants
              (plain_env ["docker"]) (plain_engine []) None false after_run
              "/app" Hap Hne) as ((Haf & Hap') & Hlater).
  split; [exact Haf|].
  destruct (Hlater stopped Haf Hap') as (Hrun & _).
  apply Hrun.
Defined.

(** C10 fails as stated: an instance built with the user's answers file;
    [stop] raises past its first statement, the runtime answers file not
    being there, and leaves [self.answers_file] at the runtime answers
    file; the following [run] returns having called [Utils.loadAnswers]
    for nothing, and hands the engine the document loaded from the
    user's file when the instance was built. *)
Lemma C10_counterexample :
  ∃ s1 s2,
    snapshot (hp built) (answers (self built)) = Some user_answers ∧
    stop atomicapp_constants (plain_engine []) None false built =
      Raise UtilsError s1 ∧
    answers_file (self s1) = Some "/app/answers.conf.gen" ∧
    run atomicapp_constants (plain_env ["docker"]) (plain_engine [])
      None None false None false s1 = Ret tt s2 ∧
    answers (self s2) = answers (self built) ∧
    trace s2 =
      [ EvSerialize "/app/answers.conf.gen" (Some "ini") user_answers;
        EvRun None false;
        EvRender None false;
        EvLoadConfig (answers (self built)) false false;
        EvLoadFromPath (Some "/app") false (Some (answers (self built))) ]
      ++ trace s1.
Proof.
  eexists. eexists.
  split; [vm_compute; reflexivity|].
  split; [vm_compute; reflexivity|].
  split; [vm_compute; reflexivity|].
  split; [vm_compute; reflexivity|].
  split; vm_compute; reflexivity.
Qed.


(** ** C1: precedence of the answers *)

(** X16.  What holds of C1: at the end of the constructor the document in
    [self.answers] reads, in its global section, as the platform values
    over the command-line answers over the loaded file's values (over the
    defaults' values when no file is loaded). *)
Lemma init_precedence (K : Consts) (U : Env) (E : Engine)
    app_spec destination cli af h f tr (s' : state (bundle E)) :
  __init__ K U E app_spec destination cli af h f tr = Ret tt s' →
  ∃ below : string → option scalar,
    match as_truthy (answers_file (self s')) with
    | Some p =>
        ∃ fmt fd, fsys s' !! p = Some (NFile (Answers fmt fd)) ∧
                  ∀ k, below k = flookup2 fd (GLOBAL_CONF K) k
    | None => ∀ k, below k = flookup2 (DEFAULT_ANSWERS K) (GLOBAL_CONF K) k
    end ∧
    if running_on_openshift U then
      ∃ tok ns api,
        environ U !! "TOKEN_ENV_VAR" = Some tok ∧
        environ U !! "POD_NAMESPACE" = Some ns ∧
        get_openshift_api_endpoint_from_env U = Some api ∧
        ∀ k, lookup2 (hp s') (answers (self s')) (GLOBAL_CONF K) k =
             platform_over tok ns api k (cli_over cli k (below k))
    else
      ∀ k, lookup2 (hp s') (answers (self s')) (GLOBAL_CONF K) k =
           cli_over cli k (below k).
Proof.
  unfold __init__, init_body. intros Hinit.
  destruct (build_doc (DEFAULT_ANSWERS K) h) as [l h1] eqn:Hb.
  assert (H0 : ∀ k, lookup2 h1 l (GLOBAL_CONF K) k =
                    flookup2 (DEFAULT_ANSWERS K) (GLOBAL_CONF K) k).
  { intros k. apply lookup2_snapshot. eapply build_doc_snapshot. exact Hb. }
  apply bind_ret_inv in Hinit as ([] & s1 & Hloc & Hans).
  apply init_location_ret in Hloc as (_ & Hhp & Hanswers & Hcli & _);
    [|reflexivity..].
  simpl in Hhp, Hanswers, Hcli.
  unfold init_answers in Hans.
  apply bind_ret_inv in Hans as ([] & s2 & Hset & Hans).
  apply bind_ret_inv in Hans as ([] & s3 & Hpa & Hos).
  assert (H2 : hp s2 = h1 ∧ answers (self s2) = l ∧
               cli_answers (self s2) = cli ∧ fsys s2 = fsys s1).
  { destruct (as_truthy (reroot_opt (getRoot U) af)) as [p|].
    - rewrite bind_unfold in Hset. simpl in Hset.
      destruct (negb (path_isfile (fsys s1) p)); [discriminate|].
      injection Hset as <-. simpl. auto.
    - injection Hset as <-. auto. }
  destruct H2 as (Hhp2 & Hans2 & Hcli2 & Hfs2).
  destruct (process_answers_ret K E _ _ Hpa) as (Haf & Hfs3 & Hcase).
  destruct (openshift_overrides_ret K U E _ _ Hos) as (Hself & Hfs & _ & Hplat).
  rewrite Hself, Hfs, Haf, Hfs3.
  rewrite Hcli2, Hans2, Hhp2 in Hcase.
  destruct (as_truthy (resolved_answers_file K s2)) as [p|].
  - destruct Hcase as (fmt & fd & Hf & _ & _ & Hlk & _).
    exists (λ k, flookup2 fd (GLOBAL_CONF K) k). split; [eauto|].
    destruct (running_on_openshift U).
    + destruct Hplat as (tok & ns & api & Ht & Hn & Ha & Hp).
      exists tok, ns, api. refine (conj Ht (conj Hn (conj Ha _))).
      intros k. rewrite Hp, Hlk. reflexivity.
    + rewrite Hplat. exact Hlk.
  - destruct Hcase as (Hsame & Hlk & _).
    exists (λ k, flookup2 (DEFAULT_ANSWERS K) (GLOBAL_CONF K) k).
    split; [auto|]. rewrite Hsame in *.
    destruct (running_on_openshift U).
    + destruct Hplat as (tok & ns & api & Ht & Hn & Ha & Hp).
      exists tok, ns, api. refine (conj Ht (conj Hn (conj Ha _))).
      intros k. rewrite Hp, Hlk, H0. reflexivity.
    + rewrite Hplat. intros k. rewrite Hlk, H0. reflexivity.
Qed.

Lemma init_precedence_witness :
  ∃ s',
    __init__ atomicapp_constants (pod_env []) (plain_engine [])
      "/app" None (Some {[ "registry" := SStr "clireg" ]}) None empty_heap
      (<["/app/answers.conf" :=
           NFile (Answers None
                    {[ "general" :=
                         FSec {[ "namespace" := SStr "emb";
                                 "registry" := SStr "filereg";
                                 "loglevel" := SStr "debug" ]} ]})]> host_fs)
      [] = Ret tt s' ∧
    lookup2 (hp s') (answers (self s')) "general" "namespace" =
      Some (SStr "podns") ∧
    lookup2 (hp s') (answers (self s')) "general" "registry" =
      Some (SStr "clireg") ∧
    lookup2 (hp s') (answers (self s')) "general" "loglevel" =
      Some (SStr "debug").
Proof.
  destruct (__init__ atomicapp_constants (pod_env []) (plain_engine [])
      "/app" None (Some {[ "registry" := SStr "clireg" ]}) None empty_heap
      (<["/app/answers.conf" :=
           NFile (Answers None
                    {[ "general" :=
                         FSec {[ "namespace" := SStr "emb";
                                 "registry" := SStr "filereg";
                                 "loglevel" := SStr "debug" ]} ]})]> host_fs)
      []) as [[] s'|e s'] eqn:Hinit; [|vm_compute in Hinit; discriminate].
  exists s'. split; [reflexivity|].
  destruct (init_precedence _ _ _ _ _ _ _ _ _ _ _ Hinit)
    as (below & Hfile & Hplat).
  change (running_on_openshift (pod_env [])) with true in Hplat.
  destruct Hplat as (tok & ns & api & _ & Hn & _ & Hlk).
  vm_compute in Hn. injection Hn as <-.
  assert (Hbelow : below "loglevel" = Some (SStr "debug")).
  { vm_compute in Hinit. injection Hinit as <-.
    vm_compute in Hfile. destruct Hfile as (fmt & fd & Hf & Hb).
    injection Hf as <- <-. rewrite Hb. vm_compute. reflexivity. }
  refine (conj _ (conj _ _)).
  - etransitivity; [exact (Hlk "namespace")|]. reflexivity.
  - etransitivity; [exact (Hlk "registry")|]. reflexivity.
  - etransitivity; [exact (Hlk "loglevel")|].
    etransitivity; [|exact Hbelow]. reflexivity.
Defined.

(** C1 at the failing inputs, inside an OpenShift pod.
    First, an application in [/app] and a namespace given on the command
    line: the constructor leaves the pod's namespace in the global
    section, and the answer resolution that [run] makes after unpacking
    puts the command-line namespace back over it.
    Second, an image whose files include an answers file: the constructor
    leaves the platform's provider, namespace and access token, and the
    resolution after unpacking replaces the document by the file's, where
    the provider and the namespace are the file's and there is no access
    token. *)
Theorem C1_platform_values_overwritten :
  (∃ s0 s1,
     __init__ atomicapp_constants (pod_env []) (plain_engine [])
       "/app" None (Some {[ "namespace" := SStr "clins" ]}) None
       empty_heap host_fs [] = Ret tt s0 ∧
     lookup2 (hp s0) (answers (self s0)) "general" "namespace" =
       Some (SStr "podns") ∧
     run atomicapp_constants (pod_env []) (plain_engine [])
       None None false None false s0 = Ret tt s1 ∧
     lookup2 (hp s1) (answers (self s1)) "general" "namespace" =
       Some (SStr "clins")) ∧
  (∃ s0 s1,
     __init__ atomicapp_constants (pod_env []) (plain_engine image_files)
       "myapp" (Some "/dst") None None empty_heap ∅ [] = Ret tt s0 ∧
     lookup2 (hp s0) (answers (self s0)) "general" "provider" =
       Some (SStr "openshift") ∧
     lookup2 (hp s0) (answers (self s0)) "general" "namespace" =
       Some (SStr "podns") ∧
     lookup2 (hp s0) (answers (self s0)) "general" "accesstoken" =
       Some (SStr "tok") ∧
     run atomicapp_constants (pod_env []) (plain_engine image_files)
       None None false None false s0 = Ret tt s1 ∧
     lookup2 (hp s1) (answers (self s1)) "general" "provider" =
       Some (SStr "docker") ∧
     lookup2 (hp s1) (answers (self s1)) "general" "namespace" =
       Some (SStr "emb") ∧
     lookup2 (hp s1) (answers (self s1)) "general" "accesstoken" = None).
Proof.
  split.
  - eexists. eexists.
    split; [vm_compute; reflexivity|].
    split; [vm_compute; reflexivity|].
    split; vm_compute; reflexivity.
  - eexists. eexists.
    split; [vm_compute; reflexivity|].
    split; [vm_compute; reflexivity|].
    split; [vm_compute; reflexivity|].
    split; [vm_compute; reflexivity|].
    split; [vm_compute; reflexivity|].
    split; [vm_compute; reflexivity|].
    split; vm_compute; reflexivity.
Qed.

(** ** C2: dryrun and the answers files *)

(** C2 at the failing inputs: with [dryrun] set, [run] writes the runtime
    answers file and the file named by [answers_output], and [install]
    writes the sample answers file; none of them was there before. *)
Theorem C2_dryrun_writes_answers :
  (∃ s' d,
     run atomicapp_constants (plain_env ["docker"]) (plain_engine [])
       None (Some "/work/out.conf") false None true built = Ret tt s' ∧
     fsys built !! "/app/answers.conf.gen" = None ∧
     fsys built !! "/work/out.conf" = None ∧
     fsys s' !! "/app/answers.conf.gen" =
       Some (NFile (Answers (Some "ini") d)) ∧
     fsys s' !! "/work/out.conf" = Some (NFile (Answers (Some "ini") d))) ∧
  (∃ s' d,
     install atomicapp_constants (plain_env ["docker"]) (plain_engine [])
       false false true (Some "ini") built = Ret tt s' ∧
     fsys built !! "/app/answers.conf.sample" = None ∧
     fsys s' !! "/app/answers.conf.sample" =
       Some (NFile (Answers (Some "ini") d))).
Proof.
  split.
  - eexists. eexists.
    split; [vm_compute; reflexivity|].
    split; [vm_compute; reflexivity|].
    split; [vm_compute; reflexivity|].
    split; vm_compute; reflexivity.
  - eexists. eexists.
    split; [vm_compute; reflexivity|].
    split; vm_compute; reflexivity.
Qed.

(** ** C3: the runtime answers and their input *)

(** C3 at the failing input: [_get_runtime_answers(config, 'kubernetes')]
    on a configuration whose global section is not empty.  Line 347 puts
    the input's own global section, not the copy's, into the result, so
    the two assignments that follow change the input: afterwards the
    input names another provider and has gained a namespace. *)
Theorem C3_runtime_answers_change_input :
  ∃ l' s',
    snapshot (hp config_state) config_loc = Some docker_config ∧
    _get_runtime_answers atomicapp_constants (plain_engine []) config_loc
      (Some "kubernetes") config_state = Ret l' s' ∧
    snapshot (hp s') config_loc =
      Some {[ "general" := FSec {[ "provider" := SStr "kubernetes";
                                  "namespace" := SStr "default" ]} ]} ∧
    snapshot (hp s') l' = snapshot (hp s') config_loc ∧
    docs (hp s') !! l' = docs (hp s') !! config_loc.
Proof.
  eexists. eexists.
  split; [vm_compute; reflexivity|].
  split; [vm_compute; reflexivity|].
  split; [vm_compute; reflexivity|].
  split; vm_compute; reflexivity.
Qed.

(** ** C6: the provider in the runtime answers *)

(** C6 at the failing input: an image whose files include an answers
    file, one supported provider, no provider given.  [run] unpacks with
    the document the constructor left, then resolves the answers again
    and so replaces [self.answers] by the document of the embedded file;
    the one provider is stored in that new document, while the runtime
    answers are derived from the configuration of the bundle, which is
    the document from before.  The runtime answers file ends without a
    provider. *)
Theorem C6_provider_missing_from_runtime_answers :
  ∃ s0 s1 d,
    __init__ atomicapp_constants (plain_env ["docker"])
      (plain_engine image_files) "myapp" (Some "/dst") None None
      empty_heap ∅ [] = Ret tt s0 ∧
    run atomicapp_constants (plain_env ["docker"]) (plain_engine image_files)
      None None false None false s0 = Ret tt s1 ∧
    getSupportedProviders (plain_env ["docker"]) (fsys s1) "/dst" = ["docker"] ∧
    lookup2 (hp s1) (answers (self s1)) "general" "provider" =
      Some (SStr "docker") ∧
    fsys s1 !! "/dst/answers.conf.gen" = Some (NFile (Answers (Some "ini") d)) ∧
    d = {[ "general" := FSec {[ "namespace" := SStr "default" ]} ]} ∧
    flookup2 d "general" "provider" = None.
Proof.
  eexists. eexists. eexists.
  split; [vm_compute; reflexivity|].
  split; [vm_compute; reflexivity|].
  split; [reflexivity|].
  split; [vm_compute; reflexivity|].
  split; [vm_compute; reflexivity|].
  split; vm_compute; reflexivity.
Qed.

(** * Further properties of the controller *)

(** ** The flags and the provider of the engine calls *)

(** A logged call whose class is a conjunction of equations. *)
Ltac pres_log :=
  apply preserves_log; [ apply _ | simpl; auto ].

Ltac pres_calls := repeat first [ solve [ pres_log ] | pres_step ].

Lemma effect_trace {B} P (Q : relation (manager B)) kh kf (s s' : state B) :
  effect P Q kh kf s s' → ∃ new, trace s' = new ++ trace s ∧ Forall P new.
Proof. intros (_ & _ & _ & H). exact H. Qed.

(** X1.  [run] and [stop] hand their [dryrun] and their provider on
    unchanged, whether they return or raise: every call they make of
    [Nulecule.unpack], [Nulecule.load_from_path], [render], [run] or
    [stop] carries the [dryrun] they were given, [render], [run] and
    [stop] carry the provider they were given, [unpack] is called with
    [nodeps] and [update] false, and [load_config] is called with the
    [ask] of [run] (false in [stop]) and without [skip_asking].  [stop]
    does not call [run], and [run] does not call [stop]. *)
Theorem run_stop_hand_on_flags (K : Consts) (U : Env) (E : Engine)
    (cli_provider : option string) (dryrun : bool) (s : state (bundle E)) :
  (∀ out ask fmt,
     ∃ new,
       trace (final (run K U E cli_provider out ask fmt dryrun s)) =
         new ++ trace s ∧
       Forall (λ ev, call_flags false dryrun false ask false ev ∧
                     call_provider cli_provider ev ∧
                     match ev with EvStop _ _ => False | _ => True end) new) ∧
  (∃ new,
     trace (final (stop K E cli_provider dryrun s)) = new ++ trace s ∧
     Forall (λ ev, call_flags false dryrun false false false ev ∧
                   call_provider cli_provider ev ∧
                   match ev with
                   | EvRun _ _ => False
                   | EvUnpack _ _ _ _ _ _ => False
                   | EvSerialize _ _ _ => False
                   | _ => True
                   end) new).
Proof.
  split.
  - intros out ask fmt.
    apply (effect_trace _ same_location false false).
    assert (Hp : preserves
              (effect (λ ev, call_flags false dryrun false ask false ev ∧
                             call_provider cli_provider ev ∧
                             match ev with EvStop _ _ => False | _ => True end)
                 same_location false false)
              (run K U E cli_provider out ask fmt dryrun)).
    { unfold run, unpack, load_own_config, _process_answers,
        find_answers_file, load_answers_file, loadAnswers, merge_cli_answers,
        _write_answers.
      pres_calls. }
    apply Hp.
  - apply (effect_trace _ same_location false false).
    assert (Hp : preserves
              (effect (λ ev, call_flags false dryrun false false false ev ∧
                             call_provider cli_provider ev ∧
                             match ev with
                             | EvRun _ _ => False
                             | EvUnpack _ _ _ _ _ _ => False
                             | EvSerialize _ _ _ => False
                             | _ => True
                             end)
                 same_location false false)
              (stop K E cli_provider dryrun)).
    { unfold stop, _process_answers, find_answers_file, load_answers_file,
        loadAnswers, merge_cli_answers.
      pres_calls. }
    apply Hp.
Qed.

(** X2.  [install] and [genanswers] deploy nothing, whether they return
    or raise: they call neither [render] nor [run] nor [stop].  Their
    calls of [Nulecule.unpack] and [Nulecule.load_from_path] carry the
    [dryrun] they were given, [load_config] is called with
    [skip_asking] set and [ask] false.  [install] hands its [update] to
    [Nulecule.unpack] but not its [nodeps]: the call carries [nodeps]
    false whatever [install] was given; [genanswers] calls it with
    [update] false. *)
Theorem install_genanswers_flags (K : Consts) (U : Env) (E : Engine)
    (dryrun : bool) (fmt : option string) (s : state (bundle E)) :
  (∀ nodeps update,
     ∃ new,
       trace (final (install K U E nodeps update dryrun fmt s)) =
         new ++ trace s ∧
       Forall (λ ev, call_flags false dryrun update false true ev ∧
                     no_deploy ev) new) ∧
  (∃ new,
     trace (final (genanswers K U E dryrun fmt s)) = new ++ trace s ∧
     Forall (λ ev, call_flags false dryrun false false true ev ∧
                   no_deploy ev) new).
Proof.
  split.
  - intros nodeps update.
    apply (effect_trace _ same_location false false).
    assert (Hp : preserves
              (effect (λ ev, call_flags false dryrun update false true ev ∧
                             no_deploy ev)
                 same_location false false)
              (install K U E nodeps update dryrun fmt)).
    { unfold install, unpack, load_own_config, _write_answers. pres_calls. }
    apply Hp.
  - apply (effect_trace _ same_location false false).
    assert (Hp : preserves
              (effect (λ ev, call_flags false dryrun false false true ev ∧
                             no_deploy ev)
                 same_location false false)
              (genanswers K U E dryrun fmt)).
    { unfold genanswers, unpack, load_own_config, _write_answers. pres_calls. }
    apply Hp.
Qed.

(** ** What the constructor fixes *)

#[global] Instance keeps_identity_preorder {B} : PreOrder (@keeps_identity B).
Proof.
  split.
  - intros m. unfold keeps_identity. tauto.
  - intros a b c H1 H2. unfold keeps_identity in *.
    destruct H1 as (?&?&?&?), H2 as (?&?&?&?).
    repeat split; congruence.
Qed.

Lemma effect_self {B} P (Q : relation (manager B)) kh kf (s s' : state B) :
  effect P Q kh kf s s' → Q (self s) (self s').
Proof. intros (H & _). exact H. Qed.

Section Identity.

Context (K : Consts) (U : Env) (E : Engine).

(** The last statement of the location part of the constructor sets the
    main file from the application path. *)
Lemma init_location_main_file src d0 (s s' : state (bundle E)) :
  init_location K U E src d0 s = Ret tt s' →
  ∃ ap, app_path (self s') = Some ap ∧
        main_file (self s') = Some (Path.join ap (MAIN_FILE K)).
Proof.
  unfold init_location. intros Hret.
  apply bind_ret_inv in Hret as (d1 & s1 & _ & Hret).
  apply bind_ret_inv in Hret as (f1 & s2 & _ & Hret).
  apply bind_ret_inv in Hret as ([] & s3 & _ & Hret).
  apply bind_ret_inv in Hret as (m3 & s4 & _ & Hret).
  apply bind_ret_inv in Hret as ([] & s5 & _ & Hret).
  apply bind_ret_inv in Hret as (m5 & s6 & _ & Hret).
  apply bind_ret_inv in Hret as ([] & s7 & _ & Hret).
  apply bind_ret_inv in Hret as (ap & s8 & Hap & Hret).
  apply attr_app_path_ret in Hap as [Hap ->].
  unfold set_main_file, upd_self in Hret. injection Hret as <-. simpl.
  exists ap. auto.
Qed.

Lemma init_answers_identity af :
  preserves (effect any_event keeps_identity false true)
    (init_answers K U E af).
Proof. unfold init_answers. pres. Qed.

End Identity.

(** X3.  The constructor fixes the command-line answers, the application
    path, the image and the main file: when it returns, the command-line
    answers are the ones it was given and the main file is the
    application path joined with [MAIN_FILE]; and no operation assigns
    any of the four afterwards, whether it returns or raises: [run],
    [install], [genanswers], [stop] and [_process_answers] leave them as
    they find them. *)
Theorem constructor_fixes_identity (K : Consts) (U : Env) (E : Engine) :
  (∀ app_spec destination cli af h f tr (s' : state (bundle E)),
     __init__ K U E app_spec destination cli af h f tr = Ret tt s' →
     cli_answers (self s') = cli ∧
     ∃ ap, app_path (self s') = Some ap ∧
           main_file (self s') = Some (Path.join ap (MAIN_FILE K))) ∧
  (∀ s : state (bundle E),
     (∀ cp out ask fmt dr,
        keeps_identity (self s) (self (final (run K U E cp out ask fmt dr s)))) ∧
     (∀ nodeps update dr fmt,
        keeps_identity (self s)
          (self (final (install K U E nodeps update dr fmt s)))) ∧
     (∀ dr fmt,
        keeps_identity (self s) (self (final (genanswers K U E dr fmt s)))) ∧
     (∀ cp dr,
        keeps_identity (self s) (self (final (stop K E cp dr s)))) ∧
     keeps_identity (self s) (self (final (_process_answers K E s)))).
Proof.
  split.
  - intros app_spec destination cli af h f tr s' Hinit.
    unfold __init__, init_body in Hinit.
    destruct (build_doc (DEFAULT_ANSWERS K) h) as [l h1].
    apply bind_ret_inv in Hinit as ([] & s1 & Hloc & Hans).
    destruct (init_location_main_file K U E _ _ _ _ Hloc) as (ap & Hap & Hmf).
    apply init_location_ret in Hloc as (_ & _ & _ & Hcli & _); [|reflexivity..].
    simpl in Hcli.
    pose proof (init_answers_identity K U E (reroot_opt (getRoot U) af) s1)
      as Heff.
    rewrite Hans in Heff. simpl in Heff.
    apply effect_self in Heff as (Hc & Ha & _ & Hm).
    split; [congruence|]. exists ap. split; congruence.
  - intros s.
    refine (conj _ (conj _ (conj _ (conj _ _)))).
    + intros cp out ask fmt dr.
      apply (effect_self any_event keeps_identity false false).
      assert (Hp : preserves (effect any_event keeps_identity false false)
                (run K U E cp out ask fmt dr)) by (unfold run; pres).
      apply Hp.
    + intros nodeps update dr fmt.
      apply (effect_self any_event keeps_identity false false).
      assert (Hp : preserves (effect any_event keeps_identity false false)
                (install K U E nodeps update dr fmt)) by (unfold install; pres).
      apply Hp.
    + intros dr fmt.
      apply (effect_self any_event keeps_identity false false).
      assert (Hp : preserves (effect any_event keeps_identity false false)
                (genanswers K U E dr fmt)) by (unfold genanswers; pres).
      apply Hp.
    + intros cp dr.
      apply (effect_self any_event keeps_identity false false).
      assert (Hp : preserves (effect any_event keeps_identity false false)
                (stop K E cp dr)) by (unfold stop; pres).
      apply Hp.
    + apply (effect_self any_event keeps_identity false false).
      assert (Hp : preserves (effect any_event keeps_identity false false)
                (_process_answers K E)) by (unfold _process_answers; pres).
      apply Hp.
Qed.

Lemma constructor_fixes_identity_witness :
  ∃ s',
    __init__ atomicapp_constants (plain_env []) (plain_engine [])
      "/app" (Some "/srv/app") (Some {[ "provider" := SStr "docker" ]}) None
      empty_heap host_fs [] = Ret tt s' ∧
    cli_answers (self s') = Some {[ "provider" := SStr "docker" ]} ∧
    main_file (self s') = Some "/srv/app/Nulecule" ∧
    keeps_identity (self s')
      (self (final (run atomicapp_constants (plain_env []) (plain_engine [])
                      None None false None false s'))).
Proof.
  destruct (__init__ atomicapp_constants (plain_env []) (plain_engine [])
              "/app" (Some "/srv/app") (Some {[ "provider" := SStr "docker" ]})
              None empty_heap host_fs [])
    as [[] s'|e s'] eqn:Hinit; [|vm_compute in Hinit; discriminate].
  exists s'. split; [reflexivity|].
  destruct (constructor_fixes_identity atomicapp_constants (plain_env [])
              (plain_engine [])) as [Hc Hops].
  destruct (Hc _ _ _ _ _ _ _ _ Hinit) as (Hcli & ap & Hap & Hmf).
  split; [exact Hcli|].
  split.
  - rewrite Hmf. vm_compute in Hinit. injection Hinit as <-.
    vm_compute in Hap. injection Hap as <-. reflexivity.
  - destruct (Hops s') as (Hrun & _). apply Hrun.
Defined.

(** ** Where NuleculeException comes from *)

Section Raises.

Context {B : Type} (P : exn → Prop).

Lemma raises_only_bind {A C} (m : M B A) (k : A → M B C) :
  raises_only P m → (∀ a, raises_only P (k a)) → raises_only P (bind m k).
Proof.
  intros Hm Hk s e s'. unfold bind.
  destruct (m s) as [a s1|e1 s1] eqn:Hms.
  - apply Hk.
  - intros [= <- <-]. eapply Hm; eauto.
Qed.

Lemma raises_only_ret {A} (a : A) : raises_only P (ret (B := B) a).
Proof. intros s e s'. discriminate. Qed.

Lemma raises_only_raise {A} e : P e → raises_only P (raise (B := B) (A := A) e).
Proof. intros He s e' s' [= <- _]. exact He. Qed.

Lemma raises_only_get_self : raises_only P (get_self (B := B)).
Proof. intros s e s'. discriminate. Qed.

Lemma raises_only_get_fs : raises_only P (get_fs (B := B)).
Proof. intros s e s'. discriminate. Qed.

Lemma raises_only_put_fs f : raises_only P (put_fs (B := B) f).
Proof. intros s e s'. discriminate. Qed.

Lemma raises_only_log ev : raises_only P (log (B := B) ev).
Proof. intros s e s'. discriminate. Qed.

Lemma raises_only_upd_self f : raises_only P (upd_self (B := B) f).
Proof. intros s e s'. discriminate. Qed.

Lemma raises_only_heap_op {A} (f : heap → A * heap) :
  raises_only P (heap_op (B := B) f).
Proof. intros s e s'. unfold heap_op. destruct (f (hp s)). discriminate. Qed.

Lemma raises_only_heap_read {A} (f : heap → option A) :
  P DanglingReference → raises_only P (heap_read (B := B) f).
Proof.
  intros Hd s e s'. unfold heap_read. destruct (f (hp s)); [discriminate|].
  intros [= <- _]. exact Hd.
Qed.

Lemma raises_only_call {A} (g : heap → fs → eres A) :
  P EngineError → raises_only P (call (B := B) g).
Proof.
  intros Hd s e s'. unfold call. destruct (g (hp s) (fsys s)); [discriminate|].
  intros [= <- _]. exact Hd.
Qed.

Lemma raises_only_for_each {A} (items : list A) (body : A → M B unit) :
  (∀ x, raises_only P (body x)) → raises_only P (for_each items body).
Proof.
  intros Hb. induction items as [|x rest IH]; simpl.
  - apply raises_only_ret.
  - apply raises_only_bind; [apply Hb|intros _; exact IH].
Qed.

End Raises.

Lemma raises_only_deepcopy (E : Engine) (P : exn → Prop) l :
  P DanglingReference → raises_only P (deepcopy E l).
Proof.
  intros Hd s e s'. unfold deepcopy.
  destruct (deepcopy_doc l (hp s)) as [[l' h]|]; [discriminate|].
  intros [= <- _]. exact Hd.
Qed.

(** One structural step of a [raises_only] proof. *)
Ltac raises_step :=
  first
    [ apply raises_only_for_each; intros ?
    | apply raises_only_bind; [ | intros ? ]
    | solve [ apply raises_only_ret ]
    | solve [ apply raises_only_raise; exact I ]
    | solve [ apply raises_only_get_self ]
    | solve [ apply raises_only_get_fs ]
    | solve [ apply raises_only_put_fs ]
    | solve [ apply raises_only_log ]
    | solve [ apply raises_only_upd_self ]
    | solve [ apply raises_only_heap_op ]
    | solve [ apply raises_only_heap_read; exact I ]
    | solve [ apply raises_only_call; exact I ]
    | solve [ apply raises_only_deepcopy; exact I ]
    | match goal with
      | |- raises_only _ (match ?x with _ => _ end) => destruct x
      end
    | progress unfold entry_truthy, entry_get, entry_set, environ_get,
        openshift_overrides ].

Ltac raises := repeat raises_step.

Lemma raises_only_outcome {B A} (m : M B A) (s : state B) :
  raises_only not_nulecule_exception m → no_nulecule_exception (m s).
Proof.
  intros Hm. unfold no_nulecule_exception.
  destruct (m s) as [a s'|e s'] eqn:Hms; [exact I|].
  specialize (Hm _ _ _ Hms). destruct e; solve [exact I|contradiction].
Qed.

#[global] Instance any_change_preorder {B} : PreOrder (@any_change B).
Proof. split; [intros m; exact I|intros a b c _ _; exact I]. Qed.

Section Exceptions.

Context (K : Consts) (U : Env) (E : Engine).

Lemma process_answers_raises :
  raises_only not_nulecule_exception (_process_answers K E).
Proof. unfold _process_answers. raises. Qed.

Lemma init_location_raises src d0 :
  raises_only not_nulecule_exception (init_location K U E src d0).
Proof. unfold init_location. raises. Qed.

Lemma resolve_and_override_raises :
  raises_only not_nulecule_exception
    (_process_answers K E ;;; openshift_overrides K U E).
Proof. raises. Qed.

Lemma init_location_effect src d0 :
  preserves (effect not_load any_change true false)
    (init_location K U E src d0).
Proof. unfold init_location, mkdtemp, copy_dir_call. pres. Qed.

End Exceptions.

(** X4.  The controller raises [NuleculeException] at two places only.
    [run], [install], [stop] and [_process_answers] never raise it: what
    they raise comes from the collaborators or from an operation on a
    value of the wrong type.  [genanswers] raises it only for the answers
    file that exists already in the working directory, with its one
    message. *)
Theorem nulecule_exception_sources (K : Consts) (U : Env) (E : Engine)
    (s : state (bundle E)) :
  (∀ cp out ask fmt dr,
     no_nulecule_exception (run K U E cp out ask fmt dr s)) ∧
  (∀ nodeps update dr fmt,
     no_nulecule_exception (install K U E nodeps update dr fmt s)) ∧
  (∀ cp dr, no_nulecule_exception (stop K E cp dr s)) ∧
  no_nulecule_exception (_process_answers K E s) ∧
  (∀ dr fmt,
     match genanswers K U E dr fmt s with
     | Raise (NuleculeException msg) s' =>
         path_exists (fsys s) (Path.join (getcwd U) (ANSWERS_FILE K)) = true ∧
         msg = "Can't generate answers.conf over existing file"
     | _ => True
     end).
Proof.
  refine (conj _ (conj _ (conj _ (conj _ _)))).
  - intros cp out ask fmt dr. apply raises_only_outcome. unfold run. raises.
  - intros nodeps update dr fmt. apply raises_only_outcome.
    unfold install. raises.
  - intros cp dr. apply raises_only_outcome. unfold stop. raises.
  - apply raises_only_outcome. apply process_answers_raises.
  - intros dr fmt.
    destruct (path_exists (fsys s) (Path.join (getcwd U) (ANSWERS_FILE K)))
      eqn:Hex.
    + unfold genanswers. rewrite bind_unfold. simpl. rewrite bind_unfold.
      simpl. rewrite Hex. simpl. auto.
    + assert (Hrest : no_nulecule_exception (genanswers K U E dr fmt s)).
      { unfold genanswers. rewrite bind_unfold. simpl. rewrite bind_unfold.
        simpl. rewrite Hex.
        apply raises_only_outcome. raises. }
      unfold no_nulecule_exception in Hrest.
      destruct (genanswers K U E dr fmt s) as [a s'|[] s']; solve [exact I|contradiction].
Qed.

(** X5.  When the constructor raises [NuleculeException], it is for the
    answers file it was given: the file's path (under the root, if it was
    absolute) is not a file, and the message names that path.  The
    location has been settled by then, and the answers have not been
    touched: no answers file is recorded, no file has been loaded, and
    [self.answers] still reads as [DEFAULT_ANSWERS]. *)
Theorem constructor_missing_answers_file (K : Consts) (U : Env) (E : Engine)
    (app_spec : string) (destination : option string) (cli : option sect)
    (af : option string) (h : heap) (f : fs) (tr : list event)
    (msg : string) (s' : state (bundle E)) :
  __init__ K U E app_spec destination cli af h f tr =
    Raise (NuleculeException msg) s' →
  ∃ p,
    as_truthy (reroot_opt (getRoot U) af) = Some p ∧
    msg = ("Answers file doesn't exist: " ++ p)%string ∧
    path_isfile (fsys s') p = false ∧
    is_Some (app_path (self s')) ∧
    answers_file (self s') = None ∧
    snapshot (hp s') (answers (self s')) = Some (DEFAULT_ANSWERS K) ∧
    ∃ new, trace s' = new ++ tr ∧ Forall not_load new.
Proof.
  unfold __init__, init_body. intros Hinit.
  destruct (build_doc (DEFAULT_ANSWERS K) h) as [l h1] eqn:Hb.
  rewrite bind_unfold in Hinit.
  destruct (init_location K U E (reroot (getRoot U) app_spec)
              (reroot_opt (getRoot U) destination)
              (State (Manager l cli None None None None None None) h1 f tr))
    as [[] s1|e s1] eqn:Hloc.
  2:{ injection Hinit as -> <-.
      apply init_location_raises in Hloc. contradiction. }
  pose proof (init_location_effect K U E (reroot (getRoot U) app_spec)
                (reroot_opt (getRoot U) destination)
                (State (Manager l cli None None None None None None) h1 f tr))
    as Heff.
  rewrite Hloc in Heff. simpl in Heff.
  apply effect_trace in Heff as Htr. simpl in Htr.
  destruct (init_location_main_file K U E _ _ _ _ Hloc) as (ap & Hap & _).
  apply init_location_ret in Hloc as (_ & Hhp & Hans & _ & Haf);
    [|reflexivity..].
  simpl in Hhp, Hans, Haf.
  unfold init_answers in Hinit. rewrite bind_unfold in Hinit.
  destruct (as_truthy (reroot_opt (getRoot U) af)) as [p|].
  - rewrite bind_unfold in Hinit. simpl in Hinit.
    destruct (path_isfile (fsys s1) p) eqn:Hfile; simpl in Hinit.
    + exfalso. exact (resolve_and_override_raises K U E _ _ _ Hinit).
    + injection Hinit as <- <-. exists p.
      refine (conj eq_refl (conj eq_refl (conj Hfile (conj _ (conj Haf (conj _ Htr)))))).
      * rewrite Hap. eauto.
      * rewrite Hhp, Hans. eapply build_doc_snapshot. exact Hb.
  - exfalso. simpl in Hinit.
    exact (resolve_and_override_raises K U E _ _ _ Hinit).
Qed.

Lemma constructor_missing_answers_file_witness :
  ∃ s',
    __init__ atomicapp_constants (plain_env []) (plain_engine [])
      "/app" None None (Some "/work/absent.conf") empty_heap host_fs [] =
      Raise (NuleculeException "Answers file doesn't exist: /work/absent.conf")
        s' ∧
    path_isfile (fsys s') "/work/absent.conf" = false ∧
    answers_file (self s') = None ∧
    snapshot (hp s') (answers (self s')) =
      Some (DEFAULT_ANSWERS atomicapp_constants).
Proof.
  destruct (__init__ atomicapp_constants (plain_env []) (plain_engine [])
              "/app" None None (Some "/work/absent.conf") empty_heap host_fs [])
    as [[] s'|e s'] eqn:Hinit; [vm_compute in Hinit; discriminate|].
  assert (He : e = NuleculeException
                     "Answers file doesn't exist: /work/absent.conf").
  { vm_compute in Hinit. injection Hinit as <- _. reflexivity. }
  subst e. exists s'. split; [reflexivity|].
  destruct (constructor_missing_answers_file _ _ _ _ _ _ _ _ _ _ _ _ Hinit)
    as (p & Hp & _ & Hfile & _ & Haf & Hsnap & _).
  vm_compute in Hp. injection Hp as <-.
  auto.
Defined.

(** ** Answer resolution: failures and repetition *)

Section Resolution_outcomes.

Context (K : Consts) (E : Engine).

Lemma find_answers_file_run (s : state (bundle E)) :
  str_truthy (answers_file (self s)) = true ∨ is_Some (app_path (self s)) →
  find_answers_file K E s =
    Ret tt (State (with_answers_file (resolved_answers_file K s) (self s))
              (hp s) (fsys s) (trace s)).
Proof.
  intros Hor.
  unfold find_answers_file, resolved_answers_file, attr_app_path, bind,
    get_self, get_fs, set_answers_file, upd_self, ret, raise. simpl.
  destruct s as [m h f t]. simpl in *.
  destruct (str_truthy (answers_file m)) eqn:Ht; simpl.
  - destruct m; reflexivity.
  - destruct Hor as [Hor|[ap Hap]]; [discriminate|]. rewrite Hap. simpl.
    destruct (path_isfile f (Path.join ap (ANSWERS_FILE K))); simpl;
      [reflexivity|destruct m; reflexivity].
Qed.

Lemma resolved_truthy (s : state (bundle E)) p :
  as_truthy (resolved_answers_file K s) = Some p →
  resolved_answers_file K s = Some p ∧ Path.nonempty p = true ∧
  (str_truthy (answers_file (self s)) = true ∨ is_Some (app_path (self s))).
Proof.
  intros Hp. apply as_truthy_Some in Hp as [Hres Hne].
  refine (conj Hres (conj Hne _)).
  unfold resolved_answers_file in Hres.
  destruct (str_truthy (answers_file (self s))) eqn:Ht; [auto|].
  destruct (app_path (self s)) as [ap|]; [eauto|].
  rewrite Hres in Ht. simpl in Ht. congruence.
Qed.

(** The first two steps of answer resolution when the answers file they
    settle on holds a document. *)
Lemma find_and_load_run (s : state (bundle E)) p fmt fd :
  as_truthy (resolved_answers_file K s) = Some p →
  fsys s !! p = Some (NFile (Answers fmt fd)) →
  (find_answers_file K E ;;; load_answers_file E) s =
    Ret tt (State (with_answers (build_doc fd (hp s)).1
                     (with_answers_file (Some p) (self s)))
              (build_doc fd (hp s)).2 (fsys s) (EvLoadAnswers p :: trace s)).
Proof.
  intros Hp Hf. apply resolved_truthy in Hp as (Hres & Hne & Hor).
  rewrite bind_unfold, (find_answers_file_run s Hor), Hres.
  set (s1 := State (with_answers_file (Some p) (self s)) (hp s) (fsys s)
               (trace s)).
  unfold load_answers_file. rewrite bind_unfold. simpl. rewrite Hne.
  rewrite bind_unfold.
  rewrite (loadAnswers_run E s1 p fmt fd Hne Hf). reflexivity.
Qed.

(** Merging command-line answers into a document without a global
    section raises at the first answer. *)
Lemma merge_cli_answers_raise (s : state (bundle E)) d c :
  cli_answers (self s) = Some c → c ≠ ∅ →
  docs (hp s) !! answers (self s) = Some d →
  match d !! GLOBAL_CONF K with
  | Some (ESec _) => True
  | Some (EVal _) => merge_cli_answers K E s = Raise TypeError s
  | None => merge_cli_answers K E s = Raise (KeyError (GLOBAL_CONF K)) s
  end.
Proof.
  intros Hc Hne Hd.
  destruct (d !! GLOBAL_CONF K) as [[v|ls]|] eqn:Hg; [| exact I |].
  - unfold merge_cli_answers. rewrite bind_unfold. simpl. rewrite Hc.
    rewrite bool_decide_eq_false_2 by exact Hne. simpl.
    destruct (map_to_list c) as [|kv rest] eqn:Hl.
    { apply map_to_list_empty_iff in Hl. contradiction. }
    cbn [for_each]. rewrite bind_unfold.
    unfold set_cli_answer, setitem2, getitem, entry_set, heap_read, heap_op,
      bind, get_self, ret, raise. simpl.
    rewrite Hd. simpl. rewrite Hg. reflexivity.
  - unfold merge_cli_answers. rewrite bind_unfold. simpl. rewrite Hc.
    rewrite bool_decide_eq_false_2 by exact Hne. simpl.
    destruct (map_to_list c) as [|kv rest] eqn:Hl.
    { apply map_to_list_empty_iff in Hl. contradiction. }
    cbn [for_each]. rewrite bind_unfold.
    unfold set_cli_answer, setitem2, getitem, entry_set, heap_read, heap_op,
      bind, get_self, ret, raise. simpl.
    rewrite Hd. simpl. rewrite Hg. reflexivity.
Qed.

End Resolution_outcomes.

(** X6.  Answer resolution with an answers file and command-line answers
    to merge: the outcome is decided by what the file's document has
    under [GLOBAL_CONF].  With a section there, resolution returns.  With
    nothing there it raises [KeyError], and with a value that is not a
    section it raises [TypeError]; in both cases the failure comes after
    line 310, so [self.answers] is already the document loaded from the
    file, none of the command-line answers is in it, and
    [self.answers_file] records the file. *)
Theorem process_answers_needs_global_section (K : Consts) (E : Engine)
    (s : state (bundle E)) (p : string) (fmt : option string) (fd : fdoc)
    (c : sect) :
  as_truthy (resolved_answers_file K s) = Some p →
  fsys s !! p = Some (NFile (Answers fmt fd)) →
  cli_answers (self s) = Some c → c ≠ ∅ →
  ∃ l h1,
    let loaded :=
      State (with_answers l (with_answers_file (Some p) (self s))) h1 (fsys s)
        (EvLoadAnswers p :: trace s) in
    docs (hp s) !! l = None ∧ snapshot h1 l = Some fd ∧
    match fd !! GLOBAL_CONF K with
    | Some (FSec sec) =>
        ∃ s', _process_answers K E s = Ret tt s' ∧
              snapshot (hp s') (answers (self s')) =
                Some (<[GLOBAL_CONF K := FSec (c ∪ sec)]> fd)
    | Some (FVal _) => _process_answers K E s = Raise TypeError loaded
    | None => _process_answers K E s = Raise (KeyError (GLOBAL_CONF K)) loaded
    end.
Proof.
  intros Hp Hf Hc Hne.
  destruct (build_doc fd (hp s)) as [l h1] eqn:Hb.
  exists l, h1. cbv zeta.
  destruct (build_doc_spec _ _ _ _ Hb) as (Hfresh & _ & d & Hl & Hden & Hun & _).
  split; [exact Hfresh|]. split; [eapply build_doc_snapshot; exact Hb|].
  pose proof (find_and_load_run K E s p fmt fd Hp Hf) as Hload.
  rewrite Hb in Hload. simpl in Hload.
  set (s2 := State (with_answers l (with_answers_file (Some p) (self s))) h1
               (fsys s) (EvLoadAnswers p :: trace s)) in *.
  pose proof (merge_cli_answers_raise K E s2 d c Hc Hne Hl) as Hraise.
  pose proof (Hden (GLOBAL_CONF K)) as Hg.
  destruct (fd !! GLOBAL_CONF K) as [[v|sec]|] eqn:Hfd; simpl in Hg.
  - destruct (d !! GLOBAL_CONF K) as [[v'|ls]|]; simpl in Hg;
      [|destruct (secs h1 !! ls); discriminate|discriminate].
    rewrite process_answers_assoc, bind_unfold, Hload. exact Hraise.
  - destruct (d !! GLOBAL_CONF K) as [[v'|ls]|] eqn:Hdg; simpl in Hg;
      [discriminate| |discriminate].
    destruct (secs h1 !! ls) as [s0|] eqn:Hs; simpl in Hg; [|discriminate].
    injection Hg as ->.
    pose proof (merge_cli_answers_run K E s2 d ls sec c Hc Hl Hdg Hs) as Hrun.
    eexists. split.
    + rewrite process_answers_assoc, bind_unfold, Hload. exact Hrun.
    + simpl. eapply snapshot_denotes; [exact Hl|].
      apply denotes_update; assumption.
  - destruct (d !! GLOBAL_CONF K) as [[v'|ls]|]; simpl in Hg;
      [discriminate|destruct (secs h1 !! ls); discriminate|].
    rewrite process_answers_assoc, bind_unfold, Hload. exact Hraise.
Qed.

Lemma process_answers_needs_global_section_witness :
  ∃ s',
    _process_answers atomicapp_constants (plain_engine [])
      (State (Manager 1%positive (Some {[ "provider" := SStr "docker" ]})
                None None (Some "/app") None (Some "/app/Nulecule") None)
         (build_doc (DEFAULT_ANSWERS atomicapp_constants) empty_heap).2
         host_fs_no_global []) =
      Raise (KeyError "general") s' ∧
    answers_file (self s') = Some "/app/answers.conf" ∧
    snapshot (hp s') (answers (self s')) =
      Some {[ "mariadb" := FSec {[ "password" := SStr "x" ]} ]}.
Proof.
  set (s := State (Manager 1%positive (Some {[ "provider" := SStr "docker" ]})
                     None None (Some "/app") None (Some "/app/Nulecule") None)
              (build_doc (DEFAULT_ANSWERS atomicapp_constants) empty_heap).2
              host_fs_no_global []).
  destruct (process_answers_needs_global_section atomicapp_constants
              (plain_engine []) s "/app/answers.conf" None
              {[ "mariadb" := FSec {[ "password" := SStr "x" ]} ]}
              {[ "provider" := SStr "docker" ]})
    as (l & h1 & _ & Hsnap & Hout).
  - vm_compute. reflexivity.
  - vm_compute. reflexivity.
  - reflexivity.
  - intros Hempty.
    assert (Hl : ({[ "provider" := SStr "docker" ]} : gmap string scalar)
                   !! "provider" = None) by (rewrite Hempty; reflexivity).
    vm_compute in Hl. discriminate.
  - change (({[ "mariadb" := FSec {[ "password" := SStr "x" ]} ]} : gmap string fentry)
              !! GLOBAL_CONF atomicapp_constants)
      with (@None fentry) in Hout.
    eexists. split; [exact Hout|]. simpl. split; [reflexivity|exact Hsnap].
Defined.

Lemma cli_over_idemp cli k below :
  cli_over cli k (cli_over cli k below) = cli_over cli k below.
Proof.
  unfold cli_over. destruct cli as [c|]; [|reflexivity].
  destruct (c !! k); reflexivity.
Qed.

Section Resolution_twice.

Context (K : Consts) (E : Engine).

Lemma resolved_falsy (s sa : state (bundle E)) :
  as_truthy (resolved_answers_file K s) = None →
  find_answers_file K E s = Ret tt sa →
  as_truthy (answers_file (self s)) = None ∧
  ∃ ap, app_path (self s) = Some ap ∧
        path_isfile (fsys s) (Path.join ap (ANSWERS_FILE K)) = false.
Proof.
  unfold resolved_answers_file, find_answers_file, attr_app_path, bind,
    get_self, get_fs, set_answers_file, upd_self, ret, raise. simpl.
  destruct (str_truthy (answers_file (self s))) eqn:Ht; simpl.
  - intros Hres. apply as_truthy_None in Hres. congruence.
  - destruct (app_path (self s)) as [ap|]; simpl; [|discriminate].
    destruct (path_isfile (fsys s) (Path.join ap (ANSWERS_FILE K))) eqn:Hfile.
    + simpl. rewrite (path_isfile_nonempty _ _ Hfile). discriminate.
    + intros _ _. split; [apply str_truthy_as_truthy; exact Ht|eauto].
Qed.

Lemma mergeable_after_merge (s1 : state (bundle E)) fd :
  snapshot (hp s1) (answers (self s1)) =
    Some (merge_cli (GLOBAL_CONF K) (cli_answers (self s1)) fd) →
  (∀ k, lookup2 (hp s1) (answers (self s1)) (GLOBAL_CONF K) k =
        cli_over (cli_answers (self s1)) k (flookup2 fd (GLOBAL_CONF K) k)) →
  mergeable K (cli_answers (self s1)) fd.
Proof.
  intros Hsnap Hlk. unfold mergeable.
  destruct (cli_answers (self s1)) as [c|]; [|exact I].
  destruct (decide (c = ∅)) as [->|Hne]; [auto|]. right.
  apply map_choose in Hne as (k & v & Hk).
  specialize (Hlk k). unfold cli_over in Hlk. rewrite Hk in Hlk.
  rewrite (lookup2_snapshot _ _ _ _ _ Hsnap) in Hlk.
  unfold merge_cli, flookup2 in Hlk.
  destruct (fd !! GLOBAL_CONF K) as [[x|sec]|] eqn:Hg; [| eauto |].
  - rewrite Hg in Hlk. discriminate.
  - rewrite Hg in Hlk. discriminate.
Qed.

End Resolution_twice.

(** X7.  Answer resolution can be repeated: when [_process_answers]
    returns, a second call on the state it left returns too, settles on
    the same answers file and leaves the same values in the global
    section.  With an answers file the second call loads the file again,
    into a new document that reads as the first one did; without one it
    keeps the document and calls nothing. *)
Theorem process_answers_twice (K : Consts) (E : Engine)
    (s s1 : state (bundle E)) :
  _process_answers K E s = Ret tt s1 →
  ∃ s2,
    _process_answers K E s1 = Ret tt s2 ∧
    answers_file (self s2) = answers_file (self s1) ∧
    fsys s2 = fsys s1 ∧
    (∀ k, lookup2 (hp s2) (answers (self s2)) (GLOBAL_CONF K) k =
          lookup2 (hp s1) (answers (self s1)) (GLOBAL_CONF K) k) ∧
    match as_truthy (answers_file (self s1)) with
    | Some p =>
        trace s2 = EvLoadAnswers p :: trace s1 ∧
        docs (hp s1) !! answers (self s2) = None ∧
        snapshot (hp s2) (answers (self s2)) =
          snapshot (hp s1) (answers (self s1))
    | None =>
        trace s2 = trace s1 ∧ answers (self s2) = answers (self s1)
    end.
Proof.
  intros Hret.
  destruct (process_answers_ret K E _ _ Hret) as (Haf & Hfs & Hcase).
  pose proof (process_answers_effect K E s) as Heff. rewrite Hret in Heff.
  simpl in Heff. apply effect_self in Heff as (Hcli & _ & Hap & _).
  rewrite Haf.
  destruct (as_truthy (resolved_answers_file K s)) as [p|] eqn:Hp.
  - destruct Hcase as (fmt & fd & Hf & _ & Hsnap & Hlk & _).
    apply as_truthy_Some in Hp as [Hres Hne].
    rewrite Hres in Haf. rewrite <- Hfs in Hf. rewrite <- Hcli in Hsnap, Hlk.
    pose proof (mergeable_after_merge K E s1 fd Hsnap Hlk) as Hm.
    destruct (process_answers_load_run K E s1 p fmt fd Haf Hne Hf Hm)
      as [s2 Hret2].
    exists s2. split; [exact Hret2|].
    destruct (process_answers_ret K E _ _ Hret2) as (Haf2 & Hfs2 & Hcase2).
    assert (Hres2 : resolved_answers_file K s1 = Some p).
    { unfold resolved_answers_file. rewrite Haf. simpl. rewrite Hne.
      reflexivity. }
    rewrite Hres2 in Haf2, Hcase2. simpl in Hcase2. rewrite Hne in Hcase2.
    destruct Hcase2 as (fmt2 & fd2 & Hf2 & Hfresh2 & Hsnap2 & Hlk2 & Htr2).
    rewrite Hf in Hf2. injection Hf2 as <- <-.
    refine (conj _ (conj Hfs2 (conj _ (conj Htr2 (conj Hfresh2 _))))).
    + congruence.
    + intros k. rewrite Hlk2, Hlk. reflexivity.
    + rewrite Hsnap2, Hsnap. reflexivity.
  - destruct Hcase as (Hans & Hlk & Htr).
    rewrite process_answers_assoc in Hret.
    apply bind_ret_inv in Hret as ([] & sb & Hfl & Hmerge).
    assert (Hfind : ∃ sa, find_answers_file K E s = Ret tt sa).
    { rewrite bind_unfold in Hfl.
      destruct (find_answers_file K E s) as [[] sa|]; [eauto|discriminate]. }
    destruct Hfind as [sa Hfind].
    destruct (resolved_falsy K E _ _ Hp Hfind) as (Hnone & ap & Hpath & Hfile).
    rewrite (find_and_load_nothing K E s ap Hnone Hpath Hfile) in Hfl.
    injection Hfl as <-.
    destruct (merge_cli_answers_ret K E _ _ Hmerge)
      as (Hself & Hfs1 & Htr1 & Hdocs & _ & _).
    assert (Hsecond : ∃ s2, _process_answers K E s1 = Ret tt s2).
    { rewrite process_answers_assoc, bind_unfold.
      rewrite (find_and_load_nothing K E s1 ap);
        [|rewrite Hself; exact Hnone|rewrite Hself; exact Hpath
         |rewrite Hfs1; exact Hfile].
      destruct (cli_answers (self s)) as [c|] eqn:Hc.
      2:{ rewrite merge_cli_answers_none by (rewrite Hself; exact Hc). eauto. }
      destruct (decide (c = ∅)) as [->|Hne].
      { unfold merge_cli_answers. rewrite bind_unfold. simpl.
        rewrite Hself, Hc. rewrite bool_decide_eq_true_2 by reflexivity.
        simpl. eauto. }
      destruct (merge_cli_answers_section K E _ _ _ Hc Hne Hmerge)
        as (d & ls & s0 & Hd & Hg & Hs).
      rewrite (merge_cli_answers_run K E s d ls s0 c Hc Hd Hg Hs) in Hmerge.
      injection Hmerge as <-.
      erewrite merge_cli_answers_run; simpl; eauto.
      apply lookup_insert_eq. }
    destruct Hsecond as [s2 Hret2]. exists s2. split; [exact Hret2|].
    destruct (process_answers_ret K E _ _ Hret2) as (Haf2 & Hfs2 & Hcase2).
    assert (Hres2 : resolved_answers_file K s1 = resolved_answers_file K s).
    { unfold resolved_answers_file. rewrite Hself, Hfs1. reflexivity. }
    rewrite Hres2 in Haf2, Hcase2. rewrite Hp in Hcase2.
    destruct Hcase2 as (Hans2 & Hlk2 & Htr2).
    refine (conj Haf2 (conj Hfs2 (conj _ (conj Htr2 Hans2)))).
    intros k. rewrite Hans2, Hlk2, Hcli, Hans, Hlk. apply cli_over_idemp.
Qed.

Lemma process_answers_twice_witness :
  ∃ s1 s2,
    _process_answers atomicapp_constants (plain_engine [])
      (State (Manager 1%positive (Some {[ "provider" := SStr "docker" ]})
                None None (Some "/app") None (Some "/app/Nulecule") None)
         (build_doc (DEFAULT_ANSWERS atomicapp_constants) empty_heap).2
         host_fs_embedded []) = Ret tt s1 ∧
    _process_answers atomicapp_constants (plain_engine []) s1 = Ret tt s2 ∧
    answers_file (self s2) = Some "/app/answers.conf" ∧
    snapshot (hp s2) (answers (self s2)) =
      snapshot (hp s1) (answers (self s1)).
Proof.
  destruct (_process_answers atomicapp_constants (plain_engine [])
      (State (Manager 1%positive (Some {[ "provider" := SStr "docker" ]})
                None None (Some "/app") None (Some "/app/Nulecule") None)
         (build_doc (DEFAULT_ANSWERS atomicapp_constants) empty_heap).2
         host_fs_embedded [])) as [[] s1|e s1] eqn:H1;
    [|vm_compute in H1; discriminate].
  destruct (process_answers_twice _ _ _ _ H1)
    as (s2 & H2 & Haf & _ & _ & Hcase).
  exists s1, s2. split; [reflexivity|]. split; [exact H2|].
  assert (Haf1 : answers_file (self s1) = Some "/app/answers.conf").
  { vm_compute in H1. injection H1 as <-. reflexivity. }
  rewrite Haf1 in Hcase, Haf. simpl in Hcase.
  destruct Hcase as (_ & _ & Hsnap). auto.
Defined.

(** ** stop without runtime answers *)

(** X8.  [stop] on an application whose runtime answers file is not
    there, or does not hold an answers document: [Utils.loadAnswers]
    fails, and [stop] raises before it calls the engine.  The state it
    leaves is the one it started in but for [self.answers_file], which
    names the runtime answers file, and the logged call of
    [Utils.loadAnswers]: [self.answers] and the filesystem are
    untouched. *)
Theorem stop_without_runtime_answers (K : Consts) (E : Engine)
    (cli_provider : option string) (dryrun : bool) (s : state (bundle E))
    (ap : string) :
  app_path (self s) = Some ap →
  Path.nonempty (ANSWERS_RUNTIME_FILE K) = true →
  match fsys s !! Path.join ap (ANSWERS_RUNTIME_FILE K) with
  | Some (NFile (Answers _ _)) => False
  | _ => True
  end →
  stop K E cli_provider dryrun s =
    Raise UtilsError
      (State (with_answers_file
                (Some (Path.join ap (ANSWERS_RUNTIME_FILE K))) (self s))
         (hp s) (fsys s)
         (EvLoadAnswers (Path.join ap (ANSWERS_RUNTIME_FILE K)) :: trace s)).
Proof.
  intros Hap Hrt Hnofile.
  assert (Hne : Path.nonempty (Path.join ap (ANSWERS_RUNTIME_FILE K)) = true).
  { rewrite join_nonempty, Hrt. apply orb_true_r. }
  rewrite (stop_unfold K E _ _ _ _ Hap).
  set (rt := Path.join ap (ANSWERS_RUNTIME_FILE K)) in *.
  set (s1 := State (with_answers_file (Some rt) (self s)) (hp s) (fsys s)
               (trace s)).
  rewrite bind_unfold. unfold _process_answers.
  rewrite bind_unfold, find_answers_file_known by exact Hne.
  rewrite bind_unfold.
  unfold load_answers_file. rewrite bind_unfold. simpl. rewrite Hne.
  rewrite bind_unfold.
  unfold loadAnswers, log, get_fs, heap_op, bind, raise. simpl.
  destruct (fsys s !! rt) as [[|[fmt fd|]]|]; try reflexivity.
  contradiction.
Qed.

Lemma stop_without_runtime_answers_witness :
  stop atomicapp_constants (plain_engine []) None false built =
    Raise UtilsError
      (State (with_answers_file (Some "/app/answers.conf.gen") (self built))
         (hp built) (fsys built)
         (EvLoadAnswers "/app/answers.conf.gen" :: trace built)).
Proof.
  apply (stop_without_runtime_answers atomicapp_constants (plain_engine [])
           None false built "/app").
  - vm_compute. reflexivity.
  - reflexivity.
  - vm_compute. exact I.
Defined.

(** ** The answers the constructor ends with *)

(** X9.  Which answers the constructor ends with, outside a managed
    platform.  An answers file that was given (re-rooted, if absolute) is
    the one recorded and loaded, whether or not the application
    directory holds the conventional one; without it, the conventional
    file of the application directory is recorded and loaded when it is
    a file; otherwise nothing is recorded and nothing is loaded.  In the
    first two cases [self.answers] reads as the file's document with the
    command-line answers merged into its global section, in the last as
    [DEFAULT_ANSWERS] with them merged.  At most one file is loaded. *)
Theorem constructor_answers_source (K : Consts) (U : Env) (E : Engine)
    (app_spec : string) (destination : option string) (cli : option sect)
    (af : option string) (h : heap) (f : fs) (tr : list event)
    (s' : state (bundle E)) :
  running_on_openshift U = false →
  __init__ K U E app_spec destination cli af h f tr = Ret tt s' →
  ∃ ap new,
    app_path (self s') = Some ap ∧ Forall not_load new ∧
    let chosen :=
      match as_truthy (reroot_opt (getRoot U) af) with
      | Some p => Some p
      | None =>
          if path_isfile (fsys s') (Path.join ap (ANSWERS_FILE K))
          then Some (Path.join ap (ANSWERS_FILE K)) else None
      end in
    match chosen with
    | Some p =>
        answers_file (self s') = Some p ∧
        trace s' = EvLoadAnswers p :: new ++ tr ∧
        ∃ fmt fd,
          fsys s' !! p = Some (NFile (Answers fmt fd)) ∧
          snapshot (hp s') (answers (self s')) =
            Some (merge_cli (GLOBAL_CONF K) cli fd)
    | None =>
        answers_file (self s') = None ∧
        trace s' = new ++ tr ∧
        snapshot (hp s') (answers (self s')) =
          Some (merge_cli (GLOBAL_CONF K) cli (DEFAULT_ANSWERS K))
    end.
Proof.
  intros Hplain. unfold __init__, init_body. intros Hinit.
  destruct (build_doc (DEFAULT_ANSWERS K) h) as [l h1] eqn:Hb.
  destruct (build_doc_spec _ _ _ _ Hb) as (_ & _ & d0 & Hl0 & Hden0 & Hun0 & _).
  apply bind_ret_inv in Hinit as ([] & s1 & Hloc & Hans).
  pose proof (init_location_effect K U E (reroot (getRoot U) app_spec)
                (reroot_opt (getRoot U) destination)
                (State (Manager l cli None None None None None None) h1 f tr))
    as Heff.
  rewrite Hloc in Heff. simpl in Heff.
  apply effect_trace in Heff as (new & Htr1 & Hnew). simpl in Htr1.
  destruct (init_location_main_file K U E _ _ _ _ Hloc) as (ap & Hap & _).
  apply init_location_ret in Hloc as (_ & Hhp & Hanswers & Hcli & Haf1);
    [|reflexivity..].
  simpl in Hhp, Hanswers, Hcli, Haf1.
  unfold init_answers in Hans.
  apply bind_ret_inv in Hans as ([] & s2 & Hset & Hans).
  apply bind_ret_inv in Hans as ([] & s3 & Hpa & Hos).
  unfold openshift_overrides in Hos. rewrite Hplain in Hos.
  injection Hos as <-.
  apply init_answers_file_ret in Hset.
  pose proof (process_answers_effect K E s2) as Heff. rewrite Hpa in Heff.
  simpl in Heff. apply effect_self in Heff as (Hcli3 & _ & Hap3 & _).
  exists ap, new.
  destruct (process_answers_ret K E _ _ Hpa) as (Haf3 & Hfs3 & Hcase).
  destruct (as_truthy (reroot_opt (getRoot U) af)) as [p|] eqn:Hp.
  - destruct Hset as [Hfile ->]. simpl in *.
    pose proof (path_isfile_nonempty _ _ Hfile) as Hne.
    unfold resolved_answers_file in Haf3, Hcase. simpl in Haf3, Hcase.
    rewrite Hne in Haf3, Hcase. simpl in Hcase. rewrite Hne in Hcase.
    destruct Hcase as (fmt & fd & Hf & _ & Hsnap & _ & Htr).
    split; [congruence|]. split; [exact Hnew|].
    refine (conj Haf3 (conj _ _)).
    + rewrite Htr, Htr1. reflexivity.
    + exists fmt, fd. rewrite Hfs3. split; [exact Hf|].
      rewrite Hsnap, Hcli. reflexivity.
  - subst s2.
    split; [congruence|]. split; [exact Hnew|].
    unfold resolved_answers_file in Haf3, Hcase.
    rewrite Haf1 in Haf3, Hcase. simpl in Haf3, Hcase.
    rewrite Hap in Haf3, Hcase. rewrite Hfs3.
    destruct (path_isfile (fsys s1) (Path.join ap (ANSWERS_FILE K))) eqn:Hfile.
    + pose proof (path_isfile_nonempty _ _ Hfile) as Hne.
      simpl in Hcase. rewrite Hne in Hcase.
      destruct Hcase as (fmt & fd & Hf & _ & Hsnap & _ & Htr).
      refine (conj Haf3 (conj _ _)).
      * rewrite Htr, Htr1. reflexivity.
      * exists fmt, fd. split; [exact Hf|].
        rewrite Hsnap, Hcli. reflexivity.
    + simpl in Hcase. destruct Hcase as (Hans3 & _ & Htr).
      refine (conj Haf3 (conj _ _)).
      * rewrite Htr, Htr1. reflexivity.
      * rewrite process_answers_assoc in Hpa.
        rewrite bind_unfold in Hpa.
        rewrite (find_and_load_nothing K E s1 ap) in Hpa;
          [|rewrite Haf1; reflexivity|exact Hap|exact Hfile].
        destruct (merge_cli_answers_ret K E _ _ Hpa)
          as (_ & _ & _ & Hdocs & _ & Hden).
        rewrite Hans3, Hanswers.
        eapply snapshot_denotes.
        -- rewrite Hdocs, Hhp. exact Hl0.
        -- rewrite <- Hcli. apply Hden; [| |exact Hun0].
           ++ rewrite Hanswers, Hhp. exact Hl0.
           ++ rewrite Hhp. exact Hden0.
Qed.

Lemma constructor_answers_source_witness :
  ∃ s',
    __init__ atomicapp_constants (plain_env []) (plain_engine [])
      "/app" None (Some {[ "provider" := SStr "kubernetes" ]})
      (Some "/work/my.conf") empty_heap
      (<["/work/my.conf" := NFile (Answers None user_answers)]>
         host_fs_embedded) [] = Ret tt s' ∧
    answers_file (self s') = Some "/work/my.conf" ∧
    trace s' = [EvLoadAnswers "/work/my.conf"] ∧
    snapshot (hp s') (answers (self s')) =
      Some {[ "general" := FSec {[ "namespace" := SStr "fromfile";
                                  "provider" := SStr "kubernetes" ]} ]}.
Proof.
  destruct (__init__ atomicapp_constants (plain_env []) (plain_engine [])
      "/app" None (Some {[ "provider" := SStr "kubernetes" ]})
      (Some "/work/my.conf") empty_heap
      (<["/work/my.conf" := NFile (Answers None user_answers)]>
         host_fs_embedded) []) as [[] s'|e s'] eqn:Hinit;
    [|vm_compute in Hinit; discriminate].
  exists s'. split; [reflexivity|].
  destruct (constructor_answers_source atomicapp_constants (plain_env [])
              (plain_engine []) _ _ _ _ _ _ _ _ eq_refl Hinit)
    as (ap & new & Hap & Hnew & Hchosen).
  cbv zeta in Hchosen.
  change (as_truthy (reroot_opt (getRoot (plain_env [])) (Some "/work/my.conf")))
    with (Some "/work/my.conf") in Hchosen.
  destruct Hchosen as (Haf & Htr & fmt & fd & Hf & Hsnap).
  split; [exact Haf|].
  vm_compute in Hinit. injection Hinit as <-.
  split; [reflexivity|].
  vm_compute in Hf. injection Hf as <- <-.
  rewrite Hsnap. vm_compute. reflexivity.
Defined.

(** ** The calls of a returning operation, in order *)

Lemma log_ret {B} ev (s s' : state B) :
  log ev s = Ret tt s' →
  s' = State (self s) (hp s) (fsys s) (ev :: trace s).
Proof. intros [= <-]. reflexivity. Qed.

Lemma call_ret {B A} (g : heap → fs → eres A) (s s' : state B) a :
  call g s = Ret a s' → self s' = self s ∧ trace s' = trace s.
Proof.
  unfold call. destruct (g (hp s) (fsys s)); [|discriminate].
  intros [= <- <-]. auto.
Qed.

Lemma set_nulecule_ret {B} x (s s' : state B) :
  set_nulecule x s = Ret tt s' →
  only_nulecule (self s) (self s') ∧ nulecule (self s') = x ∧
  hp s' = hp s ∧ fsys s' = fsys s ∧ trace s' = trace s.
Proof.
  intros [= <-]. simpl. unfold only_nulecule. simpl. auto 10.
Qed.


Section Calls.

Context (K : Consts) (U : Env) (E : Engine).

Lemma unpack_ret update dryrun nodeps config (s s' : state (bundle E)) b :
  unpack E update dryrun nodeps config s = Ret b s' →
  self s' = self s ∧
  trace s' = unpack_event (self s) config nodeps dryrun update :: trace s.
Proof.
  unfold unpack, unpack_event, as_truthy. rewrite bind_unfold. simpl.
  destruct (image (self s)) as [img|].
  - destruct (Path.nonempty img); rewrite bind_unfold; simpl;
      intros Hc; apply call_ret in Hc; exact Hc.
  - rewrite bind_unfold; simpl. intros Hc; apply call_ret in Hc; exact Hc.
Qed.

Lemma load_own_config_ret b ask skip (s s' : state (bundle E)) b' :
  load_own_config E b ask skip s = Ret b' s' →
  only_nulecule (self s) (self s') ∧
  trace s' = EvLoadConfig (nl_config E b) ask skip :: trace s.
Proof.
  unfold load_own_config. rewrite bind_unfold. simpl.
  intros Hret. apply bind_ret_inv in Hret as (b1 & s1 & Hc & Hret).
  apply call_ret in Hc as [Hself Htr]. simpl in Hself, Htr.
  apply bind_ret_inv in Hret as ([] & s2 & Hn & Hret).
  injection Hret as _ <-.
  apply set_nulecule_ret in Hn as (Hon & _ & _ & _ & Htr2).
  rewrite Hself in Hon. split; [exact Hon|]. congruence.
Qed.

(** The runtime answers have a namespace in their global section. *)
Lemma runtime_answers_written path fmt config cp (s s1 s' : state (bundle E)) l :
  _get_runtime_answers K E config cp s = Ret l s1 →
  _write_answers U E path l fmt s1 = Ret tt s' →
  ∃ d,
    s' = State (self s) (hp s1) (<[path := NFile (Answers fmt d)]> (fsys s))
           (EvSerialize path fmt d :: trace s) ∧
    snapshot (hp s1) l = Some d ∧
    fhas_namespace K d ∧
    (∀ p, as_truthy cp = Some p →
          flookup2 d (GLOBAL_CONF K) (PROVIDER_KEY K) = Some (SStr p)).
Proof.
  intros Hg Hw.
  apply get_runtime_answers_ret in Hg as (Hself & Hfs & Htr & _ & Hns & Hprov).
  apply write_answers_ret in Hw as (d & Hd & ->).
  exists d. rewrite Hself, Hfs, Htr.
  refine (conj eq_refl (conj Hd (conj _ _))).
  - unfold fhas_namespace. rewrite <- (lookup2_snapshot _ _ _ _ _ Hd).
    destruct Hns as [ns Hns]. rewrite Hns. eauto.
  - intros p Hp. apply as_truthy_Some in Hp as [-> Hne].
    rewrite <- (lookup2_snapshot _ _ _ _ _ Hd). auto.
Qed.

End Calls.



(** X11.  What a returning [genanswers] has done, in order: the answers
    file of the working directory was not there; one call of
    [Nulecule.unpack] (for an image) or [Nulecule.load_from_path], with
    [update] false and [self.answers] as the configuration; one call of
    [load_config] with [skip_asking]; one serialization, to
    [ANSWERS_FILE] in the working directory, in the format as given, of
    a document that has a namespace in its global section.
    [self.answers] and [self.answers_file] are as before: the file
    written is not recorded as the answers file of the instance. *)
Theorem genanswers_returns (K : Consts) (U : Env) (E : Engine)
    (dryrun : bool) (fmt : option string) (s s' : state (bundle E)) :
  genanswers K U E dryrun fmt s = Ret tt s' →
  ∃ b d,
    path_exists (fsys s) (Path.join (getcwd U) (ANSWERS_FILE K)) = false ∧
    trace s' =
      [ EvSerialize (Path.join (getcwd U) (ANSWERS_FILE K)) fmt d;
        EvLoadConfig (nl_config E b) false true;
        unpack_event (self s) (Some (answers (self s))) false dryrun false ]
      ++ trace s ∧
    fsys s' !! Path.join (getcwd U) (ANSWERS_FILE K) =
      Some (NFile (Answers fmt d)) ∧
    fhas_namespace K d ∧
    answers_format (self s') =
      Some (or_str fmt (ANSWERS_FILE_SAMPLE_FORMAT K)) ∧
    answers (self s') = answers (self s) ∧
    answers_file (self s') = answers_file (self s).
Proof.
  intros Hret. unfold genanswers in Hret.
  apply bind_ret_inv in Hret as ([] & s1 & Hfmt & Hret).
  unfold set_answers_format, upd_self in Hfmt. injection Hfmt as <-.
  apply bind_ret_inv in Hret as (f0 & s1' & Hf0 & Hret).
  unfold get_fs in Hf0. injection Hf0 as <- <-. cbn [fsys] in Hret.
  destruct (path_exists (fsys s) (Path.join (getcwd U) (ANSWERS_FILE K)))
    eqn:Hex; [discriminate|].
  apply bind_ret_inv in Hret as (me & s1' & Hme & Hret).
  unfold get_self in Hme. injection Hme as <- <-. cbn [self] in Hret.
  apply bind_ret_inv in Hret as (b & s2 & Hun & Hret).
  apply unpack_ret in Hun as [Hself2 Htr2]. cbn [self trace] in Hself2, Htr2.
  apply bind_ret_inv in Hret as ([] & s3 & Hn & Hret).
  apply set_nulecule_ret in Hn as (Hon3 & _ & _ & _ & Htr3).
  apply bind_ret_inv in Hret as (b1 & s4 & Hlc & Hret).
  apply load_own_config_ret in Hlc as [Hon4 Htr4].
  apply bind_ret_inv in Hret as (l & s5 & Hg & Hw).
  destruct (runtime_answers_written K U E _ _ _ _ _ _ _ _ Hg Hw)
    as (d & -> & _ & Hns & _).
  assert (Hon : only_nulecule (self s2) (self s4)).
  { etransitivity; eassumption. }
  rewrite Hself2 in Hon. destruct Hon as (Ha & _ & Hf & Haf & _).
  simpl in Ha, Hf, Haf.
  exists b, d. simpl.
  refine (conj eq_refl (conj _ (conj _ (conj Hns (conj Hf (conj Ha Haf)))))).
  - rewrite Htr4, Htr3, Htr2. reflexivity.
  - apply lookup_insert_eq.
Qed.

Lemma genanswers_returns_witness :
  ∃ s' b d,
    genanswers atomicapp_constants (plain_env ["docker"]) (plain_engine [])
      false None built = Ret tt s' ∧
    trace s' =
      [ EvSerialize "/work/answers.conf" None d;
        EvLoadConfig (nl_config (plain_engine []) b) false true;
        unpack_event (self built) (Some (answers (self built)))
          false false false ]
      ++ trace built ∧
    fsys s' !! "/work/answers.conf" = Some (NFile (Answers None d)) ∧
    answers_file (self s') = answers_file (self built).
Proof.
  destruct (genanswers atomicapp_constants (plain_env ["docker"])
              (plain_engine []) false None built)
    as [[] s'|e s'] eqn:Hret; [|vm_compute in Hret; discriminate].
  destruct (genanswers_returns _ _ _ _ _ _ _ Hret)
    as (b & d & _ & Htr & Hfile & _ & _ & _ & Haf).
  exists s', b, d.
  refine (conj eq_refl (conj Htr (conj Hfile Haf))).
Defined.



(** X13.  What a returning [stop] has done, in order: one call of
    [Utils.loadAnswers], on [ANSWERS_RUNTIME_FILE] in the application
    path, which held an answers document; [Nulecule.load_from_path] on
    the application path; [load_config]; [render]; [stop].  The document
    handed to [load_from_path] and to [load_config] is the one
    [self.answers] names afterwards, a document that was not in the
    store when [stop] started: the answers the instance had before are
    not used. *)
Theorem stop_returns (K : Consts) (E : Engine)
    (cli_provider : option string) (dryrun : bool)
    (s s' : state (bundle E)) :
  Path.nonempty (ANSWERS_RUNTIME_FILE K) = true →
  stop K E cli_provider dryrun s = Ret tt s' →
  ∃ ap fmt fd,
    app_path (self s) = Some ap ∧
    fsys s !! Path.join ap (ANSWERS_RUNTIME_FILE K) =
      Some (NFile (Answers fmt fd)) ∧
    answers_file (self s') = Some (Path.join ap (ANSWERS_RUNTIME_FILE K)) ∧
    docs (hp s) !! answers (self s') = None ∧
    trace s' =
      [ EvStop cli_provider dryrun;
        EvRender cli_provider dryrun;
        EvLoadConfig (answers (self s')) false false;
        EvLoadFromPath (Some ap) dryrun (Some (answers (self s')));
        EvLoadAnswers (Path.join ap (ANSWERS_RUNTIME_FILE K)) ]
      ++ trace s.
Proof.
  intros Hrt Hret.
  assert (Hap : ∃ ap, app_path (self s) = Some ap).
  { unfold stop in Hret. apply bind_ret_inv in Hret as (ap & s0 & Hap & _).
    apply attr_app_path_ret in Hap as [Hap _]. eauto. }
  destruct Hap as [ap Hap].
  assert (Hne : Path.nonempty (Path.join ap (ANSWERS_RUNTIME_FILE K)) = true).
  { rewrite join_nonempty, Hrt. apply orb_true_r. }
  rewrite (stop_unfold K E _ _ _ _ Hap) in Hret.
  set (rt := Path.join ap (ANSWERS_RUNTIME_FILE K)) in *.
  apply bind_ret_inv in Hret as ([] & s2 & Hpa & Hret).
  pose proof (process_answers_effect K E
                (State (with_answers_file (Some rt) (self s)) (hp s)
                   (fsys s) (trace s))) as Heff.
  rewrite Hpa in Heff. cbn [final] in Heff.
  apply effect_self in Heff as (_ & _ & Hap2 & _). cbn [self app_path] in Hap2.
  destruct (process_answers_ret K E _ _ Hpa) as (Haf & _ & Hcase).
  unfold resolved_answers_file in Haf, Hcase. simpl in Haf, Hcase.
  fold rt in Haf, Hcase. rewrite Hne in Haf, Hcase. simpl in Hcase.
  fold rt in Hcase. rewrite Hne in Hcase.
  destruct Hcase as (fmt & fd & Hf & Hfresh & _ & _ & Htr2).
  exists ap, fmt, fd.
  unfold stop_engine_calls in Hret.
  apply bind_ret_inv in Hret as (me & s2' & Hme & Hret).
  unfold get_self in Hme. injection Hme as <- <-.
  apply bind_ret_inv in Hret as ([] & s3 & Hlog & Hret).
  apply log_ret in Hlog. subst s3.
  apply bind_ret_inv in Hret as (b & s4 & Hc & Hret).
  apply call_ret in Hc as [Hself4 Htr4]. cbn [self trace] in Hself4, Htr4.
  apply bind_ret_inv in Hret as ([] & s5 & Hn & Hret).
  apply set_nulecule_ret in Hn as (Hon5 & _ & _ & _ & Htr5).
  apply bind_ret_inv in Hret as (me5 & s5' & Hme & Hret).
  unfold get_self in Hme. injection Hme as <- <-.
  apply bind_ret_inv in Hret as ([] & s6 & Hlog & Hret).
  apply log_ret in Hlog. subst s6.
  apply bind_ret_inv in Hret as (b1 & s7 & Hc & Hret).
  apply call_ret in Hc as [Hself7 Htr7]. cbn [self trace] in Hself7, Htr7.
  apply bind_ret_inv in Hret as ([] & s8 & Hn & Hret).
  apply set_nulecule_ret in Hn as (Hon8 & _ & _ & _ & Htr8).
  apply bind_ret_inv in Hret as ([] & s9 & Hlog & Hret).
  apply log_ret in Hlog. subst s9.
  apply bind_ret_inv in Hret as (b2 & s10 & Hc & Hret).
  apply call_ret in Hc as [Hself10 Htr10]. cbn [self trace] in Hself10, Htr10.
  apply bind_ret_inv in Hret as ([] & s11 & Hn & Hret).
  apply set_nulecule_ret in Hn as (Hon11 & _ & _ & _ & Htr11).
  apply bind_ret_inv in Hret as ([] & s12 & Hlog & Hret).
  apply log_ret in Hlog. subst s12.
  apply bind_ret_inv in Hret as (b3 & s13 & Hc & Hret).
  apply call_ret in Hc as [Hself13 Htr13]. cbn [self trace] in Hself13, Htr13.
  apply set_nulecule_ret in Hret as (Hon14 & _ & _ & _ & Htr14).
  assert (Hon5' : only_nulecule (self s2) (self s5)).
  { rewrite <- Hself4. exact Hon5. }
  assert (Hon : only_nulecule (self s5) (self s')).
  { rewrite Hself7 in Hon8. etransitivity; [exact Hon8|].
    rewrite Hself10 in Hon11. etransitivity; [exact Hon11|].
    rewrite Hself13 in Hon14. exact Hon14. }
  assert (Hon2 : only_nulecule (self s2) (self s')).
  { etransitivity; eassumption. }
  destruct Hon5' as (Ha5 & _). destruct Hon2 as (Ha & _ & _ & Haf' & _).
  refine (conj Hap (conj Hf (conj _ (conj _ _)))).
  - rewrite Haf'. exact Haf.
  - rewrite Ha. exact Hfresh.
  - rewrite Htr14, Htr13. cbn [trace]. rewrite Htr11, Htr10. cbn [trace].
    rewrite Htr8, Htr7. cbn [trace]. rewrite Htr5, Htr4. cbn [trace].
    rewrite Htr2, Ha5, Hap2, Ha. cbn [with_answers_file app_path].
    rewrite Hap. reflexivity.
Qed.

Lemma stop_returns_witness :
  ∃ s' fmt fd,
    stop atomicapp_constants (plain_engine []) None false after_run =
      Ret tt s' ∧
    fsys after_run !! "/app/answers.conf.gen" =
      Some (NFile (Answers fmt fd)) ∧
    trace s' =
      [ EvStop None false;
        EvRender None false;
        EvLoadConfig (answers (self s')) false false;
        EvLoadFromPath (Some "/app") false (Some (answers (self s')));
        EvLoadAnswers "/app/answers.conf.gen" ]
      ++ trace after_run.
Proof.
  destruct (stop atomicapp_constants (plain_engine []) None false after_run)
    as [[] s'|e s'] eqn:Hret; [|vm_compute in Hret; discriminate].
  destruct (stop_returns atomicapp_constants (plain_engine []) None false
              after_run s' eq_refl Hret)
    as (ap & fmt & fd & Hap & Hf & _ & _ & Htr).
  assert (Hap' : ap = "/app").
  { vm_compute in Hap. injection Hap as <-. reflexivity. }
  subst ap. exists s', fmt, fd.
  refine (conj eq_refl (conj Hf Htr)).
Defined.

(** ** The runtime answers, in full *)

(** [copy.deepcopy] of the entries of a document whose sections are all
    in the store: it succeeds, the copies are new section dictionaries
    holding what the originals hold, and nothing that was in the store
    is changed. *)
Lemma copy_items_spec (h0 : heap) items : ∀ memo h,
  docs h = docs h0 →
  (∀ a x, secs h0 !! a = Some x → secs h !! a = Some x) →
  (∀ a a', memo !! a = Some a' →
     secs h0 !! a' = None ∧ is_Some (secs h0 !! a) ∧
     secs h !! a' = secs h0 !! a) →
  (∀ k e, (k, e) ∈ items → is_Some (snap_entry h0 e)) →
  ∃ d' memo' h',
    copy_items items memo h = Some (d', memo', h') ∧
    docs h' = docs h0 ∧
    (∀ a x, secs h0 !! a = Some x → secs h' !! a = Some x) ∧
    (∀ a a', memo' !! a = Some a' →
       secs h0 !! a' = None ∧ is_Some (secs h0 !! a) ∧
       secs h' !! a' = secs h0 !! a) ∧
    (∀ k, snap_entry h' <$> d' !! k =
          snap_entry h0 <$> (list_to_map items : gmap string entry) !! k) ∧
    (∀ k a', d' !! k = Some (ESec a') → secs h0 !! a' = None).
Proof.
  induction items as [|[k e] rest IH]; intros memo h Hdocs Hext Hmemo Hall.
  - exists ∅, memo, h. cbn [copy_items].
    refine (conj eq_refl (conj Hdocs (conj Hext (conj Hmemo (conj _ _))))).
    + intros k. simpl. rewrite !lookup_empty. reflexivity.
    + intros k a' H. rewrite lookup_empty in H. discriminate.
  - destruct (IH memo h Hdocs Hext Hmemo) as
      (d1 & memo1 & h1 & Hc & Hdocs1 & Hext1 & Hmemo1 & Hsnap1 & Hfresh1).
    { intros k' e' Hin. apply (Hall k' e'). right. exact Hin. }
    assert (Hrest : ∀ k' e', d1 !! k' = Some e' → is_Some (snap_entry h1 e')).
    { intros k' e' He'. specialize (Hsnap1 k'). rewrite He' in Hsnap1.
      simpl in Hsnap1.
      destruct (list_to_map rest !! k') as [e0|] eqn:H0; simpl in Hsnap1;
        [|discriminate].
      injection Hsnap1 as ->. apply (Hall k' e0). right.
      apply elem_of_list_to_map_2. exact H0. }
    cbn [copy_items]. rewrite Hc.
    destruct e as [v|ls].
    + exists (<[k := EVal v]> d1), memo1, h1.
      refine (conj eq_refl (conj Hdocs1 (conj Hext1 (conj Hmemo1 (conj _ _))))).
      * intros k'. simpl. destruct (decide (k = k')) as [->|Hne].
        -- rewrite !lookup_insert_eq. reflexivity.
        -- rewrite !lookup_insert_ne by exact Hne. apply Hsnap1.
      * intros k' a' H. destruct (decide (k = k')) as [->|Hne].
        -- rewrite lookup_insert_eq in H. discriminate.
        -- rewrite lookup_insert_ne in H by exact Hne. eauto.
    + destruct (Hall k (ESec ls)) as [fe Hfe]; [left|].
      simpl in Hfe. destruct (secs h0 !! ls) as [s0|] eqn:Hs0; [|discriminate].
      destruct (memo1 !! ls) as [ls'|] eqn:Hm.
      * destruct (Hmemo1 _ _ Hm) as (Hf & _ & Hcopy).
        exists (<[k := ESec ls']> d1), memo1, h1.
        refine (conj eq_refl (conj Hdocs1 (conj Hext1 (conj Hmemo1
                  (conj _ _))))).
        -- intros k'. simpl. destruct (decide (k = k')) as [->|Hne].
           ++ rewrite !lookup_insert_eq. simpl. rewrite Hcopy. reflexivity.
           ++ rewrite !lookup_insert_ne by exact Hne. apply Hsnap1.
        -- intros k' a' H. destruct (decide (k = k')) as [->|Hne].
           ++ rewrite lookup_insert_eq in H. injection H as <-. exact Hf.
           ++ rewrite lookup_insert_ne in H by exact Hne. eauto.
      * rewrite (Hext1 _ _ Hs0).
        destruct (alloc_sec s0 h1) as [ls' h2] eqn:Ha.
        apply alloc_sec_spec in Ha as [Hnew ->].
        assert (Hnew0 : secs h0 !! ls' = None).
        { destruct (secs h0 !! ls') as [x|] eqn:Hx; [|reflexivity].
          rewrite (Hext1 _ _ Hx) in Hnew. discriminate. }
        exists (<[k := ESec ls']> d1), (<[ls := ls']> memo1),
          (Heap (docs h1) (<[ls' := s0]> (secs h1))).
        refine (conj eq_refl (conj Hdocs1 (conj _ (conj _ (conj _ _))))).
        -- intros a x Hx. simpl. rewrite lookup_insert_ne; [auto|].
           intros ->. congruence.
        -- intros a a' Ha. simpl. destruct (decide (ls = a)) as [->|Hne].
           ++ rewrite lookup_insert_eq in Ha. injection Ha as <-.
              rewrite lookup_insert_eq. rewrite Hs0. eauto.
           ++ rewrite lookup_insert_ne in Ha by exact Hne.
              destruct (Hmemo1 _ _ Ha) as (Hf & Hsome & Hcopy).
              refine (conj Hf (conj Hsome _)).
              rewrite lookup_insert_ne; [exact Hcopy|].
              intros ->. rewrite Hnew in Hcopy. destruct Hsome as [x Hx].
              congruence.
        -- intros k'. destruct (decide (k = k')) as [->|Hne].
           ++ cbn [list_to_map]. unfold list_to_map. simpl.
              rewrite !lookup_insert_eq. simpl. rewrite lookup_insert_eq, Hs0.
              reflexivity.
           ++ simpl. rewrite !lookup_insert_ne by exact Hne.
              rewrite <- Hsnap1.
              destruct (d1 !! k') as [[v|a]|] eqn:He'; simpl; try reflexivity.
              rewrite lookup_insert_ne; [reflexivity|].
              intros ->. destruct (Hrest _ _ He') as [x Hx]. simpl in Hx.
              rewrite Hnew in Hx. discriminate.
        -- intros k' a' H. destruct (decide (k = k')) as [->|Hne].
           ++ rewrite lookup_insert_eq in H. injection H as <-. exact Hnew0.
           ++ rewrite lookup_insert_ne in H by exact Hne. eauto.
Qed.

(** [copy.deepcopy] of a document that reads as a tree: a new document
    that reads as the same tree and shares no dictionary with the
    store it was copied in. *)
Lemma deepcopy_doc_run l h d fd :
  docs h !! l = Some d → denotes h d fd →
  ∃ l' h' d',
    deepcopy_doc l h = Some (l', h') ∧
    docs h !! l' = None ∧
    docs h' = <[l' := d']> (docs h) ∧
    (∀ a x, secs h !! a = Some x → secs h' !! a = Some x) ∧
    denotes h' d' fd ∧
    (∀ k a', d' !! k = Some (ESec a') → secs h !! a' = None).
Proof.
  intros Hl Hden. unfold deepcopy_doc. rewrite Hl.
  destruct (copy_items_spec h (map_to_list d) ∅ h eq_refl)
    as (d' & memo' & h1 & Hc & Hdocs & Hext & _ & Hsnap & Hfresh).
  { auto. }
  { intros a a' H. rewrite lookup_empty in H. discriminate. }
  { intros k e Hin. apply elem_of_map_to_list in Hin.
    specialize (Hden k). rewrite Hin in Hden. simpl in Hden.
    destruct (fd !! k) as [fe|]; simpl in Hden; [|discriminate].
    injection Hden as ->. eauto. }
  rewrite Hc. destruct (alloc_doc d' h1) as [l' h'] eqn:Ha.
  apply alloc_doc_spec in Ha as [Hnew ->].
  exists l', (Heap (<[l' := d']> (docs h1)) (secs h1)), d'.
  rewrite Hdocs in *. simpl.
  refine (conj eq_refl (conj Hnew (conj eq_refl (conj Hext (conj _ Hfresh))))).
  intros k. unfold snap_entry at 1. specialize (Hsnap k).
  rewrite list_to_map_to_list in Hsnap.
  change (snap_entry {| docs := <[l':=d']> (docs h); secs := secs h1 |})
    with (snap_entry h1) in *.
  etransitivity; [|apply Hden].
  destruct (d' !! k) as [[v|a]|]; destruct (d !! k) as [e|]; simpl in *;
    try exact Hsnap.
Qed.

Section Runtime_answers_forwards.

Context (K : Consts) (E : Engine).

Lemma doc_get_run (s : state (bundle E)) l d k :
  docs (hp s) !! l = Some d → doc_get l k s = Ret (d !! k) s.
Proof.
  intros Hd. unfold doc_get, heap_read, bind, ret. rewrite Hd. reflexivity.
Qed.

Lemma doc_set_run (s : state (bundle E)) l d k e :
  docs (hp s) !! l = Some d →
  doc_set l k e s =
    Ret tt (State (self s) (Heap (<[l := <[k := e]> d]> (docs (hp s)))
                              (secs (hp s))) (fsys s) (trace s)).
Proof.
  intros Hd. unfold doc_set, heap_read, heap_op, bind. rewrite Hd.
  reflexivity.
Qed.

Lemma getitem_run (s : state (bundle E)) l d k e :
  docs (hp s) !! l = Some d → d !! k = Some e → getitem l k s = Ret e s.
Proof.
  intros Hd He. unfold getitem, heap_read, bind, ret. rewrite Hd, He.
  reflexivity.
Qed.

Lemma entry_get_run (s : state (bundle E)) ls s0 k :
  secs (hp s) !! ls = Some s0 → entry_get (ESec ls) k s = Ret (s0 !! k) s.
Proof.
  intros Hs. unfold entry_get, heap_read, bind, ret. rewrite Hs. reflexivity.
Qed.

(** Lines 347-352 on the copy, once the section to start from is
    known. *)
Lemma runtime_answers_finish cp (s : state (bundle E)) l' d' lg s0 :
  docs (hp s) !! l' = Some d' → secs (hp s) !! lg = Some s0 →
  (doc_set l' (GLOBAL_CONF K) (ESec lg) ;;;
   let* sec := getitem l' (GLOBAL_CONF K) in
   let* ns := entry_get sec (NAMESPACE_KEY K) in
   let ns' :=
     match ns with
     | Some v => if truthy v then v else SStr (DEFAULT_NAMESPACE K)
     | None => SStr (DEFAULT_NAMESPACE K)
     end in
   setitem2 l' (GLOBAL_CONF K) (NAMESPACE_KEY K) ns' ;;;
   match cp with
   | Some p =>
       if Path.nonempty p
       then setitem2 l' (GLOBAL_CONF K) (PROVIDER_KEY K) (SStr p)
       else ret tt
   | None => ret tt
   end ;;;
   ret l') s =
  Ret l' (State (self s)
            (Heap (<[l' := <[GLOBAL_CONF K := ESec lg]> d']> (docs (hp s)))
               (<[lg := runtime_section K cp s0]> (secs (hp s))))
            (fsys s) (trace s)).
Proof.
  intros Hd Hs.
  rewrite bind_unfold, (doc_set_run s l' d' _ _ Hd).
  set (s1 := State (self s)
               (Heap (<[l' := <[GLOBAL_CONF K := ESec lg]> d']> (docs (hp s)))
                  (secs (hp s))) (fsys s) (trace s)).
  assert (Hd1 : docs (hp s1) !! l' = Some (<[GLOBAL_CONF K := ESec lg]> d'))
    by apply lookup_insert_eq.
  assert (Hg1 : <[GLOBAL_CONF K := ESec lg]> d' !! GLOBAL_CONF K =
                Some (ESec lg)) by apply lookup_insert_eq.
  rewrite bind_unfold, (getitem_run s1 _ _ _ _ Hd1 Hg1).
  rewrite bind_unfold, (entry_get_run s1 lg s0 _ Hs).
  cbv zeta. rewrite bind_unfold.
  rewrite (setitem2_run E s1 l' _ _ lg s0 _ _ Hd1 Hg1 Hs).
  set (ns := match s0 !! NAMESPACE_KEY K with
             | Some v => if truthy v then v else SStr (DEFAULT_NAMESPACE K)
             | None => SStr (DEFAULT_NAMESPACE K)
             end).
  set (s2 := State (self s1)
               (set_section (hp s1) lg (<[NAMESPACE_KEY K := ns]> s0))
               (fsys s1) (trace s1)).
  assert (Hs2 : secs (hp s2) !! lg = Some (<[NAMESPACE_KEY K := ns]> s0))
    by apply lookup_insert_eq.
  rewrite bind_unfold. unfold runtime_section, as_truthy. fold ns.
  destruct cp as [p|]; [destruct (Path.nonempty p)|].
  - rewrite (setitem2_run E s2 l' _ _ lg _ _ _ Hd1 Hg1 Hs2).
    unfold ret, set_section. simpl. rewrite !insert_insert_eq. reflexivity.
  - unfold ret, set_section. simpl. reflexivity.
  - unfold ret, set_section. simpl. reflexivity.
Qed.

(** [_get_runtime_answers] on a document that reads as a tree whose
    global section can be started from: it returns, and this is the
    store it leaves. *)
Lemma get_runtime_answers_run config cp (s : state (bundle E)) d fd s0 :
  docs (hp s) !! config = Some d → denotes (hp s) d fd →
  global_base K fd = Some s0 →
  ∃ l' d' lg h1,
    _get_runtime_answers K E config cp s =
      Ret l' (State (self s)
                (Heap (<[l' := <[GLOBAL_CONF K := ESec lg]> d']> (docs (hp s)))
                   (<[lg := runtime_section K cp s0]> (secs h1)))
                (fsys s) (trace s)) ∧
    docs (hp s) !! l' = None ∧
    (∀ a x, secs (hp s) !! a = Some x → secs h1 !! a = Some x) ∧
    denotes h1 d' fd ∧
    (∀ k a', d' !! k = Some (ESec a') → a' ≠ lg) ∧
    (if global_shared K fd
     then d !! GLOBAL_CONF K = Some (ESec lg) ∧ secs (hp s) !! lg = Some s0
     else secs (hp s) !! lg = None).
Proof.
  intros Hd Hden Hbase.
  destruct (deepcopy_doc_run config (hp s) d fd Hd Hden)
    as (l' & h1 & d' & Hdc & Hnew & Hdocs1 & Hext1 & Hden1 & Hfresh1).
  unfold _get_runtime_answers. rewrite bind_unfold.
  unfold deepcopy at 1. rewrite Hdc.
  set (s1 := State (self s) h1 (fsys s) (trace s)).
  assert (Hd1 : docs (hp s1) !! config = Some d).
  { simpl. rewrite Hdocs1. rewrite lookup_insert_ne; [exact Hd|].
    intros ->. congruence. }
  assert (Hl1 : docs (hp s1) !! l' = Some d').
  { simpl. rewrite Hdocs1. apply lookup_insert_eq. }
  rewrite bind_unfold, (doc_get_run s1 _ _ _ Hd1). rewrite bind_unfold.
  assert (Hcopy_exists : ∀ k a', d' !! k = Some (ESec a') →
            is_Some (secs h1 !! a')).
  { intros k a' Hk. specialize (Hden1 k). rewrite Hk in Hden1. simpl in Hden1.
    destruct (secs h1 !! a'); [eauto|].
    destruct (fd !! k); discriminate. }
  (* a new, empty section to start from *)
  assert (Hfresh_case :
    global_shared K fd = false → s0 = ∅ →
    (let* l := heap_op (alloc_sec ∅) in ret (ESec l)) s1 =
      Ret (ESec (alloc_sec ∅ h1).1)
        (State (self s1) (alloc_sec ∅ h1).2 (fsys s1) (trace s1)) →
    ∃ l'0 d'0 lg h2,
      match (let* l := heap_op (alloc_sec ∅) in ret (ESec l)) s1 with
      | Ret a s2 =>
          (doc_set l' (GLOBAL_CONF K) a ;;;
           let* sec := getitem l' (GLOBAL_CONF K) in
           let* ns := entry_get sec (NAMESPACE_KEY K) in
           let ns' :=
             match ns with
             | Some v => if truthy v then v else SStr (DEFAULT_NAMESPACE K)
             | None => SStr (DEFAULT_NAMESPACE K)
             end in
           setitem2 l' (GLOBAL_CONF K) (NAMESPACE_KEY K) ns' ;;;
           match cp with
           | Some p =>
               if Path.nonempty p
               then setitem2 l' (GLOBAL_CONF K) (PROVIDER_KEY K) (SStr p)
               else ret tt
           | None => ret tt
           end ;;;
           ret l') s2
      | Raise e s2 => Raise e s2
      end =
      Ret l'0 (State (self s)
                 (Heap (<[l'0 := <[GLOBAL_CONF K := ESec lg]> d'0]>
                          (docs (hp s)))
                    (<[lg := runtime_section K cp s0]> (secs h2)))
                 (fsys s) (trace s)) ∧
      docs (hp s) !! l'0 = None ∧
      (∀ a x, secs (hp s) !! a = Some x → secs h2 !! a = Some x) ∧
      denotes h2 d'0 fd ∧
      (∀ k a', d'0 !! k = Some (ESec a') → a' ≠ lg) ∧
      (if global_shared K fd
       then d !! GLOBAL_CONF K = Some (ESec lg) ∧ secs (hp s) !! lg = Some s0
       else secs (hp s) !! lg = None)).
  { intros Hshared -> Halloc. rewrite Halloc.
    destruct (alloc_sec ∅ h1) as [lg h2] eqn:Ha.
    apply alloc_sec_spec in Ha as [Hlg ->]. cbn [fst snd].
    pose proof (runtime_answers_finish cp
                  (State (self s1) (Heap (docs h1) (<[lg := ∅]> (secs h1)))
                     (fsys s1) (trace s1)) l' d' lg ∅ Hl1
                  (lookup_insert_eq _ _ _)) as Hfin.
    exists l', d', lg, h1. rewrite Hshared.
    refine (conj _ (conj Hnew (conj Hext1 (conj Hden1 (conj _ _))))).
    - etransitivity; [exact Hfin|]. subst s1.
      cbn [hp docs secs self fsys trace].
      rewrite Hdocs1, !insert_insert_eq. reflexivity.
    - intros k a' Hk ->. destruct (Hcopy_exists _ _ Hk) as [x Hx]. congruence.
    - destruct (secs (hp s) !! lg) as [x|] eqn:Hx; [|reflexivity].
      rewrite (Hext1 _ _ Hx) in Hlg. discriminate. }
  assert (Halloc : (let* l := heap_op (alloc_sec ∅) in ret (ESec l)) s1 =
            Ret (ESec (alloc_sec ∅ h1).1)
              (State (self s1) (alloc_sec ∅ h1).2 (fsys s1) (trace s1))).
  { unfold heap_op, bind, ret. simpl. destruct (alloc_sec ∅ h1). reflexivity. }
  unfold global_base in Hbase. unfold global_shared in *.
  pose proof (Hden (GLOBAL_CONF K)) as Hg.
  destruct (fd !! GLOBAL_CONF K) as [[v|sec]|] eqn:Hfd; simpl in Hg.
  - (* a value *)
    destruct (truthy v) eqn:Hv; [discriminate|]. injection Hbase as <-.
    destruct (d !! GLOBAL_CONF K) as [[v'|ls]|] eqn:Hdg; simpl in Hg;
      [|destruct (secs (hp s) !! ls); discriminate|discriminate].
    injection Hg as ->.
    rewrite bind_unfold. unfold entry_truthy at 1. unfold ret at 1.
    rewrite Hv. apply Hfresh_case; [reflexivity|reflexivity|exact Halloc].
  - (* a section *)
    injection Hbase as <-.
    destruct (d !! GLOBAL_CONF K) as [[v'|ls]|] eqn:Hdg; simpl in Hg;
      [discriminate| |discriminate].
    destruct (secs (hp s) !! ls) as [x|] eqn:Hls; simpl in Hg; [|discriminate].
    injection Hg as ->.
    pose proof (Hext1 _ _ Hls) as Hls1.
    rewrite bind_unfold. unfold entry_truthy at 1.
    rewrite bind_unfold. unfold heap_read at 1. cbn [hp s1].
    rewrite Hls1. unfold ret at 1.
    case_bool_decide as Hempty; cbn [negb].
    + apply Hfresh_case; [reflexivity|exact Hempty|exact Halloc].
    + pose proof (runtime_answers_finish cp s1 l' d' ls sec Hl1 Hls1) as Hfin.
      exists l', d', ls, h1.
      refine (conj _ (conj Hnew (conj Hext1 (conj Hden1 (conj _ _))))).
      { etransitivity; [exact Hfin|]. subst s1.
        cbn [hp docs secs self fsys trace].
        rewrite Hdocs1, !insert_insert_eq. reflexivity. }
      * intros k a' Hk ->. rewrite (Hfresh1 _ _ Hk) in Hls. discriminate.
      * auto.
  - (* nothing *)
    injection Hbase as <-.
    destruct (d !! GLOBAL_CONF K) as [[v'|ls]|] eqn:Hdg; simpl in Hg;
      [discriminate|destruct (secs (hp s) !! ls); discriminate|].
    apply Hfresh_case; [reflexivity|reflexivity|exact Halloc].
Qed.

End Runtime_answers_forwards.

(** X14.  [_get_runtime_answers] in full, on a configuration that reads
    as a tree.  It returns unless the configuration has, under
    [GLOBAL_CONF], a value that is true and not a dictionary.  The
    result is a new document that reads as the configuration with its
    global section replaced: the section it had (an empty one when it
    had none, or an empty one, or a value that is false), with
    [DEFAULT_NAMESPACE] for a namespace that is missing or false, and
    with the provider when one is given.  Nothing of the instance, the
    filesystem or the log changes.  The configuration itself reads as
    before when its global section was missing, empty or no
    dictionary; when it was a dictionary that is not empty, the result
    holds that very dictionary, so the configuration reads the new
    namespace and provider too. *)
Theorem runtime_answers_tree (K : Consts) (E : Engine) (config : loc)
    (cli_provider : option string) (s : state (bundle E)) (fd rt : fdoc) :
  snapshot (hp s) config = Some fd →
  runtime_tree K cli_provider fd = Some rt →
  ∃ l s',
    _get_runtime_answers K E config cli_provider s = Ret l s' ∧
    self s' = self s ∧ fsys s' = fsys s ∧ trace s' = trace s ∧
    docs (hp s) !! l = None ∧
    snapshot (hp s') l = Some rt ∧
    if global_shared K fd
    then ∀ k, lookup2 (hp s') config (GLOBAL_CONF K) k =
              flookup2 rt (GLOBAL_CONF K) k
    else snapshot (hp s') config = Some fd.
Proof.
  intros Hsnap Hrt.
  apply snapshot_inv in Hsnap as (d & Hd & Hden).
  unfold runtime_tree in Hrt.
  destruct (global_base K fd) as [s0|] eqn:Hbase; [|discriminate].
  injection Hrt as <-.
  destruct (get_runtime_answers_run K E config cli_provider s d fd s0
              Hd Hden Hbase)
    as (l' & d' & lg & h1 & Hrun & Hnew & Hext & Hden1 & Hother & Hcase).
  eexists l', _. split; [exact Hrun|]. cbn [self fsys trace hp].
  refine (conj eq_refl (conj eq_refl (conj eq_refl (conj Hnew (conj _ _))))).
  - eapply snapshot_denotes; [apply lookup_insert_eq|].
    intros k. destruct (decide (GLOBAL_CONF K = k)) as [<-|Hne].
    + rewrite !lookup_insert_eq. simpl. rewrite lookup_insert_eq. reflexivity.
    + rewrite !lookup_insert_ne by exact Hne. rewrite <- (Hden1 k).
      destruct (d' !! k) as [[v|a]|] eqn:Hk; simpl; try reflexivity.
      rewrite lookup_insert_ne; [reflexivity|].
      intros ->. exact (Hother _ _ Hk eq_refl).
  - assert (Hconfig : (<[l' := <[GLOBAL_CONF K := ESec lg]> d']> (docs (hp s)))
                        !! config = Some d).
    { rewrite lookup_insert_ne; [exact Hd|]. intros ->. congruence. }
    destruct (global_shared K fd).
    + destruct Hcase as [Hg Hs]. intros k.
      unfold lookup2, flookup2. cbn [docs secs]. rewrite Hconfig, Hg.
      rewrite !lookup_insert_eq. reflexivity.
    + eapply snapshot_denotes; [exact Hconfig|].
      intros k. rewrite <- (Hden k).
      destruct (d !! k) as [[v|a]|] eqn:Hk; simpl; try reflexivity.
      pose proof (Hden k) as Hdk. rewrite Hk in Hdk. simpl in Hdk.
      destruct (secs (hp s) !! a) as [x|] eqn:Ha.
      * rewrite lookup_insert_ne by (intros ->; congruence).
        rewrite (Hext _ _ Ha). reflexivity.
      * destruct (fd !! k); discriminate.
Qed.

Lemma runtime_answers_tree_witness :
  ∃ l s',
    _get_runtime_answers atomicapp_constants (plain_engine []) config_loc
      (Some "kubernetes") config_state = Ret l s' ∧
    snapshot (hp s') l =
      Some {[ "general" := FSec {[ "provider" := SStr "kubernetes";
                                  "namespace" := SStr "default" ]} ]} ∧
    lookup2 (hp s') config_loc "general" "provider" =
      Some (SStr "kubernetes").
Proof.
  destruct (runtime_answers_tree atomicapp_constants (plain_engine [])
              config_loc (Some "kubernetes") config_state docker_config
              {[ "general" := FSec {[ "provider" := SStr "kubernetes";
                                      "namespace" := SStr "default" ]} ]})
    as (l & s' & Hret & _ & _ & _ & _ & Hsnap & Hin).
  - vm_compute. reflexivity.
  - vm_compute. reflexivity.
  - exists l, s'. refine (conj Hret (conj Hsnap _)).
    change (global_shared atomicapp_constants docker_config) with true in Hin.
    etransitivity; [exact (Hin "provider")|]. vm_compute. reflexivity.
Defined.

(** X15.  [_get_runtime_answers] on a configuration that has, under
    [GLOBAL_CONF], a value that is true and not a dictionary (a string,
    a number): line 347 stores that value in the copy and line 348
    calls [get] on it, which raises [AttributeError].  The configuration
    reads as before, and the instance, the filesystem and the log are
    untouched. *)
Theorem runtime_answers_global_not_a_section (K : Consts) (E : Engine)
    (config : loc) (cli_provider : option string) (s : state (bundle E))
    (fd : fdoc) (v : scalar) :
  snapshot (hp s) config = Some fd →
  fd !! GLOBAL_CONF K = Some (FVal v) → truthy v = true →
  ∃ s',
    _get_runtime_answers K E config cli_provider s = Raise AttributeError s' ∧
    self s' = self s ∧ fsys s' = fsys s ∧ trace s' = trace s ∧
    snapshot (hp s') config = Some fd.
Proof.
  intros Hsnap Hfd Hv.
  apply snapshot_inv in Hsnap as (d & Hd & Hden).
  destruct (deepcopy_doc_run config (hp s) d fd Hd Hden)
    as (l' & h1 & d' & Hdc & Hnew & Hdocs1 & Hext1 & Hden1 & Hfresh1).
  pose proof (Hden (GLOBAL_CONF K)) as Hg. rewrite Hfd in Hg. simpl in Hg.
  destruct (d !! GLOBAL_CONF K) as [[v'|ls]|] eqn:Hdg; simpl in Hg;
    [|destruct (secs (hp s) !! ls); discriminate|discriminate].
  injection Hg as ->.
  unfold _get_runtime_answers. rewrite bind_unfold.
  unfold deepcopy at 1. rewrite Hdc.
  set (s1 := State (self s) h1 (fsys s) (trace s)).
  assert (Hd1 : docs (hp s1) !! config = Some d).
  { simpl. rewrite Hdocs1. rewrite lookup_insert_ne; [exact Hd|].
    intros ->. congruence. }
  assert (Hl1 : docs (hp s1) !! l' = Some d').
  { simpl. rewrite Hdocs1. apply lookup_insert_eq. }
  rewrite bind_unfold, (doc_get_run E s1 _ _ _ Hd1), Hdg.
  rewrite bind_unfold. rewrite bind_unfold. unfold entry_truthy at 1.
  unfold ret at 1. rewrite Hv. unfold ret at 1.
  rewrite bind_unfold, (doc_set_run E s1 l' d' _ _ Hl1).
  set (s2 := State (self s1)
               (Heap (<[l' := <[GLOBAL_CONF K := EVal v]> d']> (docs (hp s1)))
                  (secs (hp s1))) (fsys s1) (trace s1)).
  assert (Hl2 : docs (hp s2) !! l' = Some (<[GLOBAL_CONF K := EVal v]> d'))
    by apply lookup_insert_eq.
  rewrite bind_unfold.
  rewrite (getitem_run E s2 l' _ _ (EVal v) Hl2 (lookup_insert_eq _ _ _)).
  rewrite bind_unfold. unfold entry_get at 1. unfold raise at 1.
  exists s2. refine (conj eq_refl (conj eq_refl (conj eq_refl (conj eq_refl _)))).
  eapply snapshot_denotes.
  - simpl. rewrite lookup_insert_ne by (intros ->; congruence). exact Hd1.
  - intros k. rewrite <- (Hden k).
    destruct (d !! k) as [[x|a]|] eqn:Hk; simpl; try reflexivity.
    pose proof (Hden k) as Hdk. rewrite Hk in Hdk. simpl in Hdk.
    destruct (secs (hp s) !! a) as [y|] eqn:Ha.
    + rewrite (Hext1 _ _ Ha). reflexivity.
    + destruct (fd !! k); discriminate.
Qed.

Lemma runtime_answers_global_not_a_section_witness :
  ∃ s',
    _get_runtime_answers atomicapp_constants (plain_engine [])
      (build_doc {[ "general" := FVal (SStr "x") ]} empty_heap).1 None
      (State (bare_instance (plain_engine []) 1%positive)
         (build_doc {[ "general" := FVal (SStr "x") ]} empty_heap).2 ∅ []) =
      Raise AttributeError s' ∧
    trace s' = [].
Proof.
  destruct (runtime_answers_global_not_a_section atomicapp_constants
              (plain_engine [])
              (build_doc {[ "general" := FVal (SStr "x") ]} empty_heap).1 None
              (State (bare_instance (plain_engine []) 1%positive)
                 (build_doc {[ "general" := FVal (SStr "x") ]} empty_heap).2
                 ∅ [])
              {[ "general" := FVal (SStr "x") ]} (SStr "x"))
    as (s' & Hret & _ & _ & Htr & _).
  - vm_compute. reflexivity.
  - vm_compute. reflexivity.
  - reflexivity.
  - exists s'. split; [exact Hret|exact Htr].
Defined.
